(** * Pytrees: flattening, key paths and structural diagnostics

    A shallow embedding of [jax/_src/tree_util.py].  Python values are an
    inductive type [pyobj]; the registries are explicit state; generators are
    finite lists of yielded items together with the exception, if any, that
    ended them.  The flatten / unflatten engine itself lives in the extension
    module [jax._src.lib.pytree], which is not part of the Python sources; the
    definitions that stand for it are marked as modelled from the
    specification. *)

From Stdlib Require Import ZArith String Ascii.
From stdpp Require Import base tactics option list gmap strings sorting.

Set Warnings "-register-all".

Local Open Scope Z_scope.
Local Open Scope nat_scope.
Local Open Scope string_scope.
Local Open Scope list_scope.

(** ** Python types and values *)

(** The runtime type of a value, as returned by [type(x)].  A namedtuple class
    is identified by its name and its [_fields]; any other user class by its
    name. *)
Inductive pytype :=
| TyNoneType
| TyInt
| TyStr
| TyTuple
| TyList
| TyDict
| TyOrderedDict
| TyDefaultDict
| TyNamedTuple (name : string) (fields : list string)
| TyClass (name : string).

#[global] Instance pytype_eq_dec : EqDecision pytype.
Proof. solve_decision. Defined.

(** Key entries (lines 892-927 of the source). *)
Inductive KeyEntry :=
| SequenceKey (idx : nat)
| DictKey (key : string)
| GetAttrKey (name : string)
| FlattenedIndexKey (key : nat).

#[global] Instance KeyEntry_eq_dec : EqDecision KeyEntry.
Proof. solve_decision. Defined.

Definition KeyPath := list KeyEntry.

(** Hashable auxiliary metadata stored in a treedef node.  The shapes are the
    ones the registered [to_iter] functions return: [None] for tuples, lists
    and [None]; the tuple of keys for [dict] and [OrderedDict]; the class for a
    namedtuple; [(default_factory, keys)] for [defaultdict]; and atoms for the
    metadata of user classes. *)
Inductive aux_data :=
| AuxNone
| AuxInt (n : Z)
| AuxStr (s : string)
| AuxKeys (keys : list string)
| AuxClass (cls : pytype)
| AuxFactoryKeys (default_factory : option pytype) (keys : list string).

#[global] Instance aux_data_eq_dec : EqDecision aux_data.
Proof. solve_decision. Defined.

(** Python values.  Mappings keep their items in insertion order, as Python
    dictionaries do.  [PyObject cls aux kids] is an instance of the user class
    [cls]; [kids] and [aux] are what the class's flatten function returns for
    it when the class is registered, and when it is not the instance is
    opaque. *)
Inductive pyobj :=
| PyNone
| PyInt (n : Z)
| PyStr (s : string)
| PyTuple (xs : list pyobj)
| PyList (xs : list pyobj)
| PyDict (items : list (string * pyobj))
| PyOrderedDict (items : list (string * pyobj))
| PyDefaultDict (default_factory : option pytype) (items : list (string * pyobj))
| PyNamedTuple (name : string) (items : list (string * pyobj))
| PyObject (cls : string) (aux : aux_data) (kids : list pyobj).

Definition type_of (x : pyobj) : pytype :=
  match x with
  | PyNone => TyNoneType
  | PyInt _ => TyInt
  | PyStr _ => TyStr
  | PyTuple _ => TyTuple
  | PyList _ => TyList
  | PyDict _ => TyDict
  | PyOrderedDict _ => TyOrderedDict
  | PyDefaultDict _ _ => TyDefaultDict
  | PyNamedTuple name items => TyNamedTuple name (items.*1)
  | PyObject cls _ _ => TyClass cls
  end.

(** Nesting depth; it bounds the recursion depth of every traversal. *)
Fixpoint depth (x : pyobj) : nat :=
  match x with
  | PyNone | PyInt _ | PyStr _ => 0
  | PyTuple xs | PyList xs | PyObject _ _ xs => S (max_list (depth <$> xs))
  | PyDict items | PyOrderedDict items | PyDefaultDict _ items
  | PyNamedTuple _ items =>
      S (max_list ((fun kv => depth (snd kv)) <$> items))
  end.

(** ** Treedefs *)

(** Modelled from the spec: the class [PyTreeDef] of [jax._src.lib.pytree]
    ("recursively defined as Leaf or Node(type_tag, aux_metadata, children)"),
    with [num_leaves] the count of leaf occurrences and [num_nodes] the count
    of all nodes, leaves included. *)
Inductive PyTreeDef :=
| TLeaf
| TNode (ty : pytype) (aux : aux_data) (children : list PyTreeDef).

Fixpoint num_leaves (td : PyTreeDef) : nat :=
  match td with
  | TLeaf => 1
  | TNode _ _ children => sum_list (num_leaves <$> children)
  end.

Fixpoint num_nodes (td : PyTreeDef) : nat :=
  match td with
  | TLeaf => 1
  | TNode _ _ children => S (sum_list (num_nodes <$> children))
  end.

(** [treedef.children()] and [outer.compose(inner)]. *)
Definition treedef_children (td : PyTreeDef) : list PyTreeDef :=
  match td with
  | TLeaf => []
  | TNode _ _ children => children
  end.

Fixpoint compose (outer inner : PyTreeDef) : PyTreeDef :=
  match outer with
  | TLeaf => inner
  | TNode ty aux children =>
      TNode ty aux ((fun c => compose c inner) <$> children)
  end.

(** Lines 249-273. *)
Definition treedef_is_leaf (treedef : PyTreeDef) : bool :=
  bool_decide (num_nodes treedef = 1).

Definition treedef_is_strict_leaf (treedef : PyTreeDef) : bool :=
  bool_decide (num_nodes treedef = 1) && bool_decide (num_leaves treedef = 1).

(** ** Errors, results and generators *)

Inductive mismatch :=
| LeafCount
| Diverges
| Composed (actual expected : PyTreeDef).

(** The error kinds of the library.  [UnrecognizedStructure] is the
    [ValueError] of [flatten_one_level]; [StructureMismatch] stands for the
    [ValueError] / [TypeError] raised on a leaf count or structure
    disagreement; [RecomposeError] is a failure inside a registered
    [from_iter] function; [IndexError] is an out-of-range subscript. *)
Inductive error :=
| UnrecognizedStructure (ty : pytype)
| StructureMismatch (why : mismatch)
| AssertionError
| RecomposeError
| IndexError.

Inductive result (A : Type) :=
| Ok (a : A)
| Raise (e : error).
Arguments Ok {A} a.
Arguments Raise {A} e.

#[global] Instance result_ret : MRet result := fun A a => Ok a.
#[global] Instance result_bind : MBind result := fun A B f m =>
  match m with
  | Ok a => f a
  | Raise e => Raise e
  end.
#[global] Instance result_fmap : FMap result := fun A B f m =>
  match m with
  | Ok a => Ok (f a)
  | Raise e => Raise e
  end.

(** [[f(x) for x in xs]] where [f] may raise. *)
Fixpoint map_result {A B} (f : A -> result B) (xs : list A) : result (list B) :=
  match xs with
  | [] => Ok []
  | x :: xs' => y ← f x; ys ← map_result f xs'; Ok (y :: ys)
  end.

(** A generator run to its end: the items it yielded, in order, and the
    exception that terminated it, if one did. *)
Definition gen (A : Type) : Type := list A * option error.

Definition gen_done {A} : gen A := ([], None).
Definition gen_yield {A} (a : A) : gen A := ([a], None).
Definition gen_raise {A} (e : error) : gen A := ([], Some e).

(** [g1] followed by [g2]; an exception in [g1] ends the whole generator. *)
Definition gen_seq {A} (g1 g2 : gen A) : gen A :=
  match g1 with
  | (xs, Some e) => (xs, Some e)
  | (xs, None) => (xs ++ fst g2, snd g2)
  end.

(** [for x in xs: yield from f(x)]. *)
Fixpoint gen_for {A B} (f : A -> gen B) (xs : list A) : gen B :=
  match xs with
  | [] => gen_done
  | x :: xs' => gen_seq (f x) (gen_for f xs')
  end.

(** [list(g)]: the items if the generator finished, else its exception. *)
Definition list_of_gen {A} (g : gen A) : result (list A) :=
  match g with
  | (xs, None) => Ok xs
  | (_, Some e) => Raise e
  end.

(** ** Sorting and dictionaries *)

(** Python's order on [str] is the lexicographic order on code points. *)
Definition key_le (a b : string) : Prop := String.leb a b = true.

#[global] Instance key_le_dec : RelDecision key_le.
Proof. intros a b. unfold key_le. apply _. Defined.

(** [sorted(keys)]. *)
Definition sorted_keys (keys : list string) : list string :=
  merge_sort key_le keys.

(** The order of [sorted(xs.items())]: pairs are compared by key first, and
    the keys of one dictionary are pairwise different. *)
Definition item_le {A} (a b : string * A) : Prop := key_le (fst a) (fst b).

#[global] Instance item_le_dec {A} : RelDecision (@item_le A).
Proof. intros a b. unfold item_le. apply _. Defined.

Definition sorted_items {A} (items : list (string * A)) : list (string * A) :=
  merge_sort item_le items.

(** [d[k]]. *)
Fixpoint dict_getitem {A} (k : string) (items : list (string * A)) : option A :=
  match items with
  | [] => None
  | (k', v) :: items' => if decide (k = k') then Some v else dict_getitem k items'
  end.

(** [d[k] = v]: an existing key keeps its position. *)
Fixpoint dict_setitem {A} (k : string) (v : A) (items : list (string * A))
  : list (string * A) :=
  match items with
  | [] => [(k, v)]
  | (k', v') :: items' =>
      if decide (k = k') then (k, v) :: items'
      else (k', v') :: dict_setitem k v items'
  end.

(** [dict(pairs)]. *)
Definition dict_of_pairs {A} (pairs : list (string * A)) : list (string * A) :=
  fold_left (fun d kv => dict_setitem (fst kv) (snd kv) d) pairs [].

(** [safe_zip] of [jax._src.util]: [zip] that rejects arguments of different
    lengths. *)
Definition safe_zip {A B} (xs : list A) (ys : list B) : result (list (A * B)) :=
  if decide (length xs = length ys) then Ok (zip xs ys) else Raise AssertionError.

(** ** Registries *)

(** Modelled from the spec: a registry instance of [jax._src.lib.pytree].
    Tuples, namedtuples, lists and dicts are enabled in each of the three
    instances (lines 43-70); [enable_none] is its policy for [None];
    [custom_nodes] are the classes added through [register_node]. *)
Record PyTreeRegistry := {
  enable_none : bool;
  custom_nodes : gset string;
}.

(** Modelled from the spec: [registry.register_node]. *)
Definition register_node (cls : string) (r : PyTreeRegistry) : PyTreeRegistry :=
  {| enable_none := enable_none r; custom_nodes := {[cls]} ∪ custom_nodes r |}.

(** [_flatten_defaultdict] (lines 654-656). *)
Definition _flatten_defaultdict (default_factory : option pytype)
    (d : list (string * pyobj)) : list pyobj * aux_data :=
  let keys := sorted_keys (d.*1) in
  (omap (fun k => dict_getitem k d) keys, AuxFactoryKeys default_factory keys).

(** The [to_iter] function of every type that is a node in some registry:
    the entries of [_registry] (lines 556-562), the registrations of
    [OrderedDict] and [defaultdict] (lines 649-661), and namedtuples, which
    decompose into their fields with the class as metadata. *)
Definition to_iter (x : pyobj) : option (list pyobj * aux_data) :=
  match x with
  | PyNone => Some ([], AuxNone)
  | PyTuple xs => Some (xs, AuxNone)
  | PyList xs => Some (xs, AuxNone)
  | PyDict items =>
      let s := sorted_items items in Some (s.*2, AuxKeys (s.*1))
  | PyOrderedDict items => Some (items.*2, AuxKeys (items.*1))
  | PyDefaultDict f items => Some (_flatten_defaultdict f items)
  | PyNamedTuple name items => Some (items.*2, AuxClass (TyNamedTuple name (items.*1)))
  | PyObject cls aux kids => Some (kids, aux)
  | PyInt _ | PyStr _ => None
  end.

(** Whether a type is a node type of the registry [r]. *)
Definition registered (r : PyTreeRegistry) (ty : pytype) : bool :=
  match ty with
  | TyNoneType => enable_none r
  | TyTuple | TyList | TyDict | TyNamedTuple _ _ => true
  | TyOrderedDict | TyDefaultDict => true
  | TyClass cls => bool_decide (cls ∈ custom_nodes r)
  | TyInt | TyStr => false
  end.

(** Modelled from the spec: [registry.flatten_one_level(x)], "returns None if
    type(value) is unregistered, else (children, aux_metadata)". *)
Definition registry_flatten_one_level (r : PyTreeRegistry) (x : pyobj)
  : option (list pyobj * aux_data) :=
  if registered r (type_of x) then to_iter x else None.

(** The [from_iter] functions: those of [_registry], of the [OrderedDict] and
    [defaultdict] registrations, the namedtuple constructor, and for a user
    class the function that rebuilds the instance from metadata and
    children. *)
Definition from_iter (ty : pytype) (aux : aux_data) (xs : list pyobj)
  : result pyobj :=
  match ty, aux with
  | TyNoneType, _ => Ok PyNone
  | TyTuple, _ => Ok (PyTuple xs)
  | TyList, _ => Ok (PyList xs)
  | TyDict, AuxKeys keys => Ok (PyDict (dict_of_pairs (zip keys xs)))
  | TyOrderedDict, AuxKeys keys =>
      pairs ← safe_zip keys xs; Ok (PyOrderedDict (dict_of_pairs pairs))
  | TyDefaultDict, AuxFactoryKeys f keys =>
      pairs ← safe_zip keys xs; Ok (PyDefaultDict f (dict_of_pairs pairs))
  | TyNamedTuple name fields, _ =>
      if decide (length fields = length xs)
      then Ok (PyNamedTuple name (zip fields xs))
      else Raise RecomposeError
  | TyClass cls, _ => Ok (PyObject cls aux xs)
  | _, _ => Raise RecomposeError
  end.

(** The state of the module: the three registry instances and the two
    Python-side tables.  Only user classes are recorded; the builtin entries
    and the import-time registrations are part of every state.  A class
    registered with keys carries the key of its [i]-th child. *)
Record tree_util := {
  default_registry : PyTreeRegistry;
  none_leaf_registry : PyTreeRegistry;
  dispatch_registry : PyTreeRegistry;
  _registry : gset string;
  _registry_with_keypaths : gmap string (nat -> KeyEntry);
}.

(** The state after import (lines 43-70, 556-562, 969-985). *)
Definition initial : tree_util :=
  {| default_registry := {| enable_none := true; custom_nodes := ∅ |};
     none_leaf_registry := {| enable_none := false; custom_nodes := ∅ |};
     dispatch_registry := {| enable_none := true; custom_nodes := ∅ |};
     _registry := ∅;
     _registry_with_keypaths := ∅ |}.

(** Lines 309-379. *)
Definition register_pytree_node (nodetype : string) (st : tree_util) : tree_util :=
  {| default_registry := register_node nodetype (default_registry st);
     none_leaf_registry := register_node nodetype (none_leaf_registry st);
     dispatch_registry := register_node nodetype (dispatch_registry st);
     _registry := {[nodetype]} ∪ _registry st;
     _registry_with_keypaths := _registry_with_keypaths st |}.

(** Lines 989-1061; [register_dataclass] and [register_static] update the
    same tables in the same way. *)
Definition register_pytree_with_keys (nodetype : string)
    (keys : nat -> KeyEntry) (st : tree_util) : tree_util :=
  let st' := register_pytree_node nodetype st in
  {| default_registry := default_registry st';
     none_leaf_registry := none_leaf_registry st';
     dispatch_registry := dispatch_registry st';
     _registry := _registry st';
     _registry_with_keypaths := <[nodetype := keys]> (_registry_with_keypaths st') |}.

(** The states the module can be in: the initial one and those reached from
    it by registration calls. *)
Inductive reachable : tree_util -> Prop :=
| reachable_initial : reachable initial
| reachable_node st cls :
    reachable st -> reachable (register_pytree_node cls st)
| reachable_with_keys st cls keys :
    reachable st -> reachable (register_pytree_with_keys cls keys st).

(** ** The flatten / unflatten engine *)

(** [is_leaf and is_leaf(tree)]. *)
Definition leaf_predicate (is_leaf : option (pyobj -> bool)) (tree : pyobj) : bool :=
  match is_leaf with
  | Some p => p tree
  | None => false
  end.

(** Modelled from the spec: [registry.flatten(tree, is_leaf)], the depth-first
    left-to-right traversal in which the predicate is checked before the
    registry, an unregistered type is a leaf, and a registered one is
    decomposed and its children flattened in order.  [fuel] bounds the
    recursion depth. *)
Fixpoint flatten_fuel (fuel : nat) (r : PyTreeRegistry)
    (is_leaf : option (pyobj -> bool)) (tree : pyobj) : list pyobj * PyTreeDef :=
  match fuel with
  | 0 => ([tree], TLeaf)
  | S fuel' =>
      if leaf_predicate is_leaf tree then ([tree], TLeaf)
      else match registry_flatten_one_level r tree with
           | None => ([tree], TLeaf)
           | Some (children, aux) =>
               let rs := flatten_fuel fuel' r is_leaf <$> children in
               (concat (rs.*1), TNode (type_of tree) aux (rs.*2))
           end
  end.

Definition registry_flatten (r : PyTreeRegistry) (tree : pyobj)
    (is_leaf : option (pyobj -> bool)) : list pyobj * PyTreeDef :=
  flatten_fuel (S (depth tree)) r is_leaf tree.

(** The children of a node are rebuilt left to right from a shared cursor. *)
Definition unflatten_children
    (unflatten_from : PyTreeDef -> list pyobj -> result (pyobj * list pyobj))
  : list PyTreeDef -> list pyobj -> result (list pyobj * list pyobj) :=
  fix go (children : list PyTreeDef) (leaves : list pyobj) :=
    match children with
    | [] => Ok ([], leaves)
    | c :: children' =>
        '(kid, leaves') ← unflatten_from c leaves;
        '(kids, leaves'') ← go children' leaves';
        Ok (kid :: kids, leaves'')
    end.

(** Modelled from the spec: the walk of [treedef.unflatten(leaves)]: a leaf
    consumes one value from the cursor, a node rebuilds its children and then
    calls the recompose function of its type. *)
Fixpoint unflatten_from (treedef : PyTreeDef) (leaves : list pyobj)
  : result (pyobj * list pyobj) :=
  match treedef with
  | TLeaf =>
      match leaves with
      | [] => Raise (StructureMismatch LeafCount)
      | x :: rest => Ok (x, rest)
      end
  | TNode ty aux children =>
      '(kids, rest) ← unflatten_children unflatten_from children leaves;
      node ← from_iter ty aux kids;
      Ok (node, rest)
  end.

(** Modelled from the spec: [treedef.unflatten(leaves)]; leaves left over
    after the walk are a leaf count disagreement as well. *)
Definition treedef_unflatten (treedef : PyTreeDef) (leaves : list pyobj)
  : result pyobj :=
  '(tree, rest) ← unflatten_from treedef leaves;
  match rest with
  | [] => Ok tree
  | _ :: _ => Raise (StructureMismatch LeafCount)
  end.

Definition map2_result {A B C} (f : A -> B -> result C)
  : list A -> list B -> result (list C) :=
  fix go (xs : list A) (ys : list B) :=
    match xs, ys with
    | x :: xs', y :: ys' => z ← f x y; zs ← go xs' ys'; Ok (z :: zs)
    | _, _ => Ok []
    end.

(** Modelled from the spec: [treedef.flatten_up_to(x)], which decomposes [x]
    only as far as the treedef branches: at a leaf of the treedef the whole
    of [x] is one value; at a node [x] has to be a node of the same type, with
    the same metadata and as many children. *)
Fixpoint flatten_up_to (r : PyTreeRegistry) (treedef : PyTreeDef) (x : pyobj)
  : result (list pyobj) :=
  match treedef with
  | TLeaf => Ok [x]
  | TNode ty aux children =>
      match registry_flatten_one_level r x with
      | Some (xs, aux') =>
          if decide (type_of x = ty /\ aux' = aux /\ length xs = length children)
          then ls ← map2_result (flatten_up_to r) children xs; Ok (concat ls)
          else Raise (StructureMismatch Diverges)
      | None => Raise (StructureMismatch Diverges)
      end
  end.

(** ** The exported traversal functions *)

Section tree_util.
Variable st : tree_util.

(** Lines 74-107. *)
Definition tree_flatten (tree : pyobj) (is_leaf : option (pyobj -> bool))
  : list pyobj * PyTreeDef :=
  registry_flatten (default_registry st) tree is_leaf.

(** Lines 110-137. *)
Definition tree_unflatten (treedef : PyTreeDef) (leaves : list pyobj)
  : result pyobj :=
  treedef_unflatten treedef leaves.

(** Lines 140-195. *)
Definition tree_leaves (tree : pyobj) (is_leaf : option (pyobj -> bool))
  : list pyobj :=
  fst (registry_flatten (default_registry st) tree is_leaf).

Definition tree_structure (tree : pyobj) (is_leaf : option (pyobj -> bool))
  : PyTreeDef :=
  snd (registry_flatten (default_registry st) tree is_leaf).

(** The next element of every list, if none is exhausted. *)
Fixpoint heads {A} (lists : list (list A)) : option (list A) :=
  match lists with
  | [] => Some []
  | [] :: _ => None
  | (x :: _) :: lists' =>
      match heads lists' with
      | Some hs => Some (x :: hs)
      | None => None
      end
  end.

(** [zip] applied to the unpacked [lists]: rows are produced until the
    shortest list is exhausted, and no lists give no rows. *)
Fixpoint zip_rows {A} (l : list A) (rest : list (list A)) : list (list A) :=
  match l with
  | [] => []
  | x :: l' =>
      match heads rest with
      | Some hs => (x :: hs) :: zip_rows l' (tail <$> rest)
      | None => []
      end
  end.

Definition zip_star {A} (lists : list (list A)) : list (list A) :=
  match lists with
  | [] => []
  | l :: rest => zip_rows l rest
  end.

(** Lines 431-473; [f] receives its positional arguments as the list [xs]. *)
Definition tree_map (f : list pyobj -> pyobj) (tree : pyobj)
    (rest : list pyobj) (is_leaf : option (pyobj -> bool)) : result pyobj :=
  let '(leaves, treedef) := tree_flatten tree is_leaf in
  rest_leaves ← map_result (flatten_up_to (default_registry st) treedef) rest;
  let all_leaves := leaves :: rest_leaves in
  treedef_unflatten treedef (f <$> zip_star all_leaves).

(** [[[next(iter_flat) for _ in range(inner_size)] for __ in range(outer_size)]]. *)
Fixpoint rows_of {A} (outer_size inner_size : nat) (flat : list A)
  : list (list A) :=
  match outer_size with
  | 0 => []
  | S outer_size' =>
      take inner_size flat :: rows_of outer_size' inner_size (drop inner_size flat)
  end.

(** Lines 507-549. *)
Definition tree_transpose (outer_treedef : PyTreeDef)
    (inner_treedef : option PyTreeDef) (pytree_to_transpose : pyobj)
  : result pyobj :=
  let '(flat, treedef) := tree_flatten pytree_to_transpose None in
  inner_treedef ←
    match inner_treedef with
    | Some inner => Ok inner
    | None =>
        slots ← flatten_up_to (default_registry st) outer_treedef
                  pytree_to_transpose;
        match slots with
        | slot :: _ => Ok (tree_structure slot None)
        | [] => Raise IndexError
        end
    end;
  let inner_size := num_leaves inner_treedef in
  let outer_size := num_leaves outer_treedef in
  if decide (num_leaves treedef ≠ inner_size * outer_size) then
    let expected_treedef := compose outer_treedef inner_treedef in
    Raise (StructureMismatch (Composed treedef expected_treedef))
  else
    let lol := rows_of outer_size inner_size flat in
    let transposed_lol := zip_star lol in
    subtrees ← map_result (tree_unflatten outer_treedef) transposed_lol;
    tree_unflatten inner_treedef subtrees.

(** Lines 774-802. *)
Definition flatten_one_level (pytree : pyobj) : result (list pyobj * aux_data) :=
  match registry_flatten_one_level (default_registry st) pytree with
  | None => Raise (UnrecognizedStructure (type_of pytree))
  | Some out => Ok out
  end.

(** ** Key paths *)

(** The handlers passed to [_register_keypaths] (lines 971-985). *)
Definition keypath_handler (xs : pyobj) : option (list KeyEntry) :=
  match xs with
  | PyTuple l | PyList l => Some (SequenceKey <$> seq 0 (length l))
  | PyDict items => Some (DictKey <$> sorted_keys (items.*1))
  | PyDefaultDict _ items => Some (DictKey <$> items.*1)
  | PyOrderedDict items => Some (DictKey <$> items.*1)
  | _ => None
  end.

(** [_registry_with_keypaths.get(type(tree))] applied to [tree]: for the
    types of [_register_keypaths] the keys of the handler zipped with the
    children of [to_iter] (lines 960-962), for a class registered with keys
    its own keyed children. *)
Definition flatten_with_keys (tree : pyobj) : option (list (KeyEntry * pyobj)) :=
  match tree with
  | PyObject cls aux kids =>
      keys ← _registry_with_keypaths st !! cls;
      Some (zip (keys <$> seq 0 (length kids)) kids)
  | _ =>
      keys ← keypath_handler tree;
      '(children, _) ← to_iter tree;
      Some (zip keys children)
  end.

(** [isinstance(tree, tuple) and hasattr(tree, '_fields')], with the keyed
    fields [[(GetAttrKey(s), getattr(tree, s)) for s in tree._fields]]. *)
Definition namedtuple_fields (tree : pyobj) : option (list (KeyEntry * pyobj)) :=
  match tree with
  | PyNamedTuple _ items => Some (prod_map GetAttrKey id <$> items)
  | _ => None
  end.

(** Lines 1300-1330. *)
Fixpoint generate_key_paths_fuel (fuel : nat) (key_path : KeyPath)
    (tree : pyobj) (is_leaf : option (pyobj -> bool)) : list (KeyPath * pyobj) :=
  match fuel with
  | 0 => [(key_path, tree)]
  | S fuel' =>
      let recurse := fun kc : KeyEntry * pyobj =>
        generate_key_paths_fuel fuel' (key_path ++ [fst kc]) (snd kc) is_leaf in
      if leaf_predicate is_leaf tree then [(key_path, tree)]
      else match flatten_with_keys tree with
      | Some key_children => concat (recurse <$> key_children)
      | None =>
          match registry_flatten_one_level (default_registry st) tree with
          | None => [(key_path, tree)]
          | Some (children, aux) =>
              match namedtuple_fields tree with
              | Some key_children =>
                  if decide (aux = AuxClass (type_of tree))
                  then concat (recurse <$> key_children)
                  else concat (recurse <$>
                         zip (FlattenedIndexKey <$> seq 0 (length children)) children)
              | None =>
                  concat (recurse <$>
                    zip (FlattenedIndexKey <$> seq 0 (length children)) children)
              end
          end
      end
  end.

(** Lines 1292-1296. *)
Definition generate_key_paths (tree : pyobj) (is_leaf : option (pyobj -> bool))
  : list (KeyPath * pyobj) :=
  generate_key_paths_fuel (S (depth tree)) [] tree is_leaf.

(** Lines 1368-1378. *)
Definition _child_keys (pytree : pyobj) : result (list KeyEntry) :=
  if treedef_is_strict_leaf (tree_structure pytree None) then Raise AssertionError
  else match flatten_with_keys pytree with
  | Some key_children => Ok (key_children.*1)
  | None =>
      match namedtuple_fields pytree with
      | Some key_children => Ok (key_children.*1)
      | None =>
          let num_children := length (treedef_children (tree_structure pytree None)) in
          Ok (FlattenedIndexKey <$> seq 0 num_children)
      end
  end.

(** ** Structural diagnostics *)

(** What a reported disagreement says: the explanation with the data its
    message is formatted from.  The symmetric difference of the key sets, which
    only decorates the message, is left out. *)
Inductive difference :=
| TypesDiffer (ty1 ty2 : pytype)
| LengthsDiffer (ty : pytype) (len1 len2 : nat)
| ChildrenDiffer (ty : pytype) (num1 num2 : nat)
| MetadataDiffer (ty : pytype) (meta1 meta2 : aux_data).

(** [isinstance(t, (list, tuple))]; a namedtuple is a tuple. *)
Definition is_list_or_tuple (t : pyobj) : bool :=
  match t with
  | PyTuple _ | PyList _ | PyNamedTuple _ _ => true
  | _ => false
  end.

(** [len(t)]. *)
Definition py_len (t : pyobj) : nat :=
  match t with
  | PyTuple xs | PyList xs => length xs
  | PyDict items | PyOrderedDict items | PyDefaultDict _ items
  | PyNamedTuple _ items => length items
  | _ => 0
  end.

(** A call that may raise inside a generator body. *)
Definition gen_try {A B} (m : result A) (k : A -> gen B) : gen B :=
  match m with
  | Ok a => k a
  | Raise e => gen_raise e
  end.

(** [zip(keys, xs, ys)]. *)
Definition zip3 {A B C} (keys : list A) (xs : list B) (ys : list C)
  : list (A * B * C) :=
  zip (zip keys xs) ys.

(** Lines 835-889. *)
Fixpoint _equality_errors_fuel (fuel : nat) (path : KeyPath) (t1 t2 : pyobj)
    (is_leaf : option (pyobj -> bool)) : gen (KeyPath * difference) :=
  match fuel with
  | 0 => gen_done
  | S fuel' =>
      if treedef_is_strict_leaf (tree_structure t1 is_leaf) &&
         treedef_is_strict_leaf (tree_structure t2 is_leaf) then gen_done
      else if decide (type_of t1 ≠ type_of t2) then
        gen_yield (path, TypesDiffer (type_of t1) (type_of t2))
      else if is_list_or_tuple t1 && negb (bool_decide (py_len t1 = py_len t2)) then
        gen_yield (path, LengthsDiffer (type_of t1) (py_len t1) (py_len t2))
      else
        gen_try (flatten_one_level t1) (fun '(t1_children, t1_meta) =>
        gen_try (flatten_one_level t2) (fun '(t2_children, t2_meta) =>
        gen_try (_child_keys t1) (fun t1_keys =>
        gen_try (_child_keys t2) (fun t2_keys =>
        if decide (length t1_children ≠ length t2_children) then
          gen_yield (path, ChildrenDiffer (type_of t1)
                             (length t1_children) (length t2_children))
        else if decide (t1_meta ≠ t2_meta) then
          gen_yield (path, MetadataDiffer (type_of t1) t1_meta t2_meta)
        else if decide (t1_keys ≠ t2_keys) then gen_raise AssertionError
        else
          gen_for (fun '(k, c1, c2) =>
                     _equality_errors_fuel fuel' (path ++ [k]) c1 c2 is_leaf)
                  (zip3 t1_keys t1_children t2_children)))))
  end.

Definition _equality_errors (path : KeyPath) (t1 t2 : pyobj)
    (is_leaf : option (pyobj -> bool)) : gen (KeyPath * difference) :=
  _equality_errors_fuel (S (depth t1)) path t1 t2 is_leaf.

(** Lines 813-832. *)
Definition equality_errors (tree1 tree2 : pyobj)
    (is_leaf : option (pyobj -> bool)) : gen (KeyPath * difference) :=
  _equality_errors [] tree1 tree2 is_leaf.

(** Lines 1381-1477.  Each yielded closure is represented by the key path and
    the data its message is built from.  The recursive call of the source
    passes three arguments, so below the root [is_leaf] is [None]. *)
Fixpoint _prefix_error_fuel (fuel : nat) (key_path : KeyPath)
    (prefix_tree full_tree : pyobj) (is_leaf : option (pyobj -> bool))
  : gen (KeyPath * difference) :=
  match fuel with
  | 0 => gen_done
  | S fuel' =>
      if treedef_is_strict_leaf (tree_structure prefix_tree is_leaf) then gen_done
      else if decide (type_of prefix_tree ≠ type_of full_tree) then
        gen_yield (key_path, TypesDiffer (type_of prefix_tree) (type_of full_tree))
      else
        gen_try (flatten_one_level prefix_tree)
          (fun '(prefix_tree_children, prefix_tree_meta) =>
        gen_try (flatten_one_level full_tree)
          (fun '(full_tree_children, full_tree_meta) =>
        gen_try (_child_keys prefix_tree) (fun prefix_tree_keys =>
        gen_try (_child_keys full_tree) (fun full_tree_keys =>
        let continue_ :=
          if decide (prefix_tree_meta ≠ full_tree_meta) then
            gen_yield (key_path, MetadataDiffer (type_of prefix_tree)
                                   prefix_tree_meta full_tree_meta)
          else if decide (prefix_tree_keys ≠ full_tree_keys) then
            gen_raise AssertionError
          else
            gen_for (fun '(k, t1, t2) =>
                       _prefix_error_fuel fuel' (key_path ++ [k]) t1 t2 None)
                    (zip3 prefix_tree_keys prefix_tree_children full_tree_children)
        in
        if is_list_or_tuple prefix_tree then
          if decide (py_len prefix_tree ≠ py_len full_tree) then
            gen_yield (key_path, LengthsDiffer (type_of prefix_tree)
                                   (py_len prefix_tree) (py_len full_tree))
          else continue_
        else
          if decide (length prefix_tree_children ≠ length full_tree_children) then
            gen_yield (key_path, ChildrenDiffer (type_of prefix_tree)
                         (length prefix_tree_children) (length full_tree_children))
          else continue_))))
  end.

Definition _prefix_error (key_path : KeyPath) (prefix_tree full_tree : pyobj)
    (is_leaf : option (pyobj -> bool)) : gen (KeyPath * difference) :=
  _prefix_error_fuel (S (depth prefix_tree)) key_path prefix_tree full_tree is_leaf.

(** Lines 806-809. *)
Definition prefix_errors (prefix_tree full_tree : pyobj)
    (is_leaf : option (pyobj -> bool)) : result (list (KeyPath * difference)) :=
  list_of_gen (_prefix_error [] prefix_tree full_tree is_leaf).

End tree_util.

(** ** Further functions of the module *)

(** [functools.reduce(function, xs[, initializer])]: a left fold, seeded with
    the initializer when given and with the first element otherwise; [None]
    stands for the [TypeError] raised on an empty sequence without
    initializer. *)
Definition functools_reduce (function : pyobj -> pyobj -> pyobj)
    (xs : list pyobj) (initializer : option pyobj) : option pyobj :=
  match initializer, xs with
  | Some init, _ => Some (fold_left function xs init)
  | None, x :: xs' => Some (fold_left function xs' x)
  | None, [] => None
  end.

(** A positional argument of the function given to [tree_map_with_path]: the
    key path of a leaf, or a value. *)
Inductive arg :=
| ArgPath (key_path : KeyPath)
| ArgValue (x : pyobj).

Section more_tree_util.
Variable st : tree_util.

(** Lines 590-622; the absent initializer [no_initializer] is [None]. *)
Definition tree_reduce (function : pyobj -> pyobj -> pyobj) (tree : pyobj)
    (initializer : option pyobj) (is_leaf : option (pyobj -> bool))
  : option pyobj :=
  functools_reduce function (tree_leaves st tree is_leaf) initializer.

(** Lines 625-646; [truth] is the truth value [bool(x)] of a leaf. *)
Definition tree_all (truth : pyobj -> bool) (tree : pyobj) : bool :=
  forallb truth (tree_leaves st tree None).

(** Lines 564-568. *)
Definition _replace_nones (sentinel : pyobj) (tree : pyobj) : result pyobj :=
  let '(leaves, treedef) := registry_flatten (none_leaf_registry st) tree None in
  let leaves :=
    (fun x => match x with PyNone => sentinel | _ => x end) <$> leaves in
  treedef_unflatten treedef leaves.

(** Lines 760-771.  The function mapped over the two trees extends [result]
    with [num_leaves(subtree)] copies of [x] and returns [None]; the calls
    are made in traversal order while [tree_map] rewraps their results. *)
Definition broadcast_prefix (prefix_tree full_tree : pyobj)
    (is_leaf : option (pyobj -> bool)) : result (list pyobj) :=
  let num_leaves_of := fun t => num_leaves (tree_structure st t None) in
  let add_leaves := fun xs : list pyobj =>
    match xs with
    | [x; subtree] => replicate (num_leaves_of subtree) x
    | _ => []
    end in
  let '(leaves, treedef) := tree_flatten st prefix_tree is_leaf in
  rest_leaves ←
    map_result (flatten_up_to (default_registry st) treedef) [full_tree];
  let all_leaves := leaves :: rest_leaves in
  let calls := zip_star all_leaves in
  _ ← treedef_unflatten treedef ((fun _ => PyNone) <$> calls);
  Ok (concat (add_leaves <$> calls)).

(** Lines 1254-1288. *)
Definition tree_flatten_with_path (tree : pyobj)
    (is_leaf : option (pyobj -> bool))
  : list (KeyPath * pyobj) * PyTreeDef :=
  let '(_, tree_def) := tree_flatten st tree is_leaf in
  (generate_key_paths st tree is_leaf, tree_def).

Definition tree_leaves_with_path (tree : pyobj)
    (is_leaf : option (pyobj -> bool)) : list (KeyPath * pyobj) :=
  generate_key_paths st tree is_leaf.

(** Lines 1333-1365; [f] receives the key path, the leaf and the values of
    the further trees as the list of its positional arguments. *)
Definition tree_map_with_path (f : list arg -> pyobj) (tree : pyobj)
    (rest : list pyobj) (is_leaf : option (pyobj -> bool)) : result pyobj :=
  let '(keypath_leaves, treedef) := tree_flatten_with_path tree is_leaf in
  let keypath_leaves : list (list arg) :=
    zip_star ((fun kl => [ArgPath (fst kl); ArgValue (snd kl)])
                <$> keypath_leaves) in
  rest_leaves ← map_result (flatten_up_to (default_registry st) treedef) rest;
  let all_keypath_leaves :=
    keypath_leaves ++ ((fun l : list pyobj => ArgValue <$> l) <$> rest_leaves) in
  treedef_unflatten treedef (f <$> zip_star all_keypath_leaves).

End more_tree_util.

(** * Vocabulary of the properties *)

(** The values directly contained in a value. *)
Definition sub_objects (x : pyobj) : list pyobj :=
  match x with
  | PyNone | PyInt _ | PyStr _ => []
  | PyTuple xs | PyList xs | PyObject _ _ xs => xs
  | PyDict items | PyOrderedDict items | PyDefaultDict _ items
  | PyNamedTuple _ items => items.*2
  end.

(** What the single registration path maintains: [None] is a node of the
    default registry, the three instances know the same user classes, and
    every class with a key handler is a node. *)
Record consistent (st : tree_util) : Prop := {
  consistent_none : enable_none (default_registry st) = true;
  consistent_none_leaf :
    custom_nodes (none_leaf_registry st) = custom_nodes (default_registry st);
  consistent_dispatch :
    custom_nodes (dispatch_registry st) = custom_nodes (default_registry st);
  consistent_keypaths cls :
    is_Some (_registry_with_keypaths st !! cls) ->
    cls ∈ custom_nodes (default_registry st);
}.

(** A treedef whose nodes can be recomposed: the recompose function of each
    node accepts as many children as the node has.  Every treedef that
    flattening produces is of this kind. *)
Inductive wf_treedef : PyTreeDef -> Prop :=
| wf_treedef_leaf : wf_treedef TLeaf
| wf_treedef_node ty aux children :
    (forall xs, length xs = length children ->
       exists t, from_iter ty aux xs = Ok t) ->
    Forall wf_treedef children ->
    wf_treedef (TNode ty aux children).

(** Python dictionaries have pairwise different keys, and namedtuples
    pairwise different field names. *)
Definition keys_unique (x : pyobj) : Prop :=
  match x with
  | PyDict items | PyOrderedDict items | PyDefaultDict _ items
  | PyNamedTuple _ items => NoDup (items.*1)
  | _ => True
  end.

Inductive wf_pyobj : pyobj -> Prop :=
| wf_pyobj_intro x :
    keys_unique x -> (forall c, c ∈ sub_objects x -> wf_pyobj c) -> wf_pyobj x.

(** Structural equality of values, as [==] decides it: componentwise, with
    the items of a [dict] or [defaultdict] compared whatever their insertion
    order. *)
Inductive py_eq : pyobj -> pyobj -> Prop :=
| py_eq_none : py_eq PyNone PyNone
| py_eq_int n : py_eq (PyInt n) (PyInt n)
| py_eq_str s : py_eq (PyStr s) (PyStr s)
| py_eq_tuple xs ys : Forall2 py_eq xs ys -> py_eq (PyTuple xs) (PyTuple ys)
| py_eq_list xs ys : Forall2 py_eq xs ys -> py_eq (PyList xs) (PyList ys)
| py_eq_dict items1 items2 items2' :
    items2 ≡ₚ items2' ->
    Forall2 (fun a b => fst a = fst b /\ py_eq (snd a) (snd b)) items1 items2' ->
    py_eq (PyDict items1) (PyDict items2)
| py_eq_ordered_dict items1 items2 :
    Forall2 (fun a b => fst a = fst b /\ py_eq (snd a) (snd b)) items1 items2 ->
    py_eq (PyOrderedDict items1) (PyOrderedDict items2)
| py_eq_default_dict f items1 items2 items2' :
    items2 ≡ₚ items2' ->
    Forall2 (fun a b => fst a = fst b /\ py_eq (snd a) (snd b)) items1 items2' ->
    py_eq (PyDefaultDict f items1) (PyDefaultDict f items2)
| py_eq_namedtuple name items1 items2 :
    Forall2 (fun a b => fst a = fst b /\ py_eq (snd a) (snd b)) items1 items2 ->
    py_eq (PyNamedTuple name items1) (PyNamedTuple name items2)
| py_eq_object cls aux kids1 kids2 :
    Forall2 py_eq kids1 kids2 ->
    py_eq (PyObject cls aux kids1) (PyObject cls aux kids2).

(** A value has the treedef as a structural prefix when it shares the
    structure of the treedef wherever the treedef branches; where the treedef
    has reached a leaf the value is unconstrained. *)
Inductive prefix_of (r : PyTreeRegistry) : PyTreeDef -> pyobj -> Prop :=
| prefix_of_leaf x : prefix_of r TLeaf x
| prefix_of_node ty aux children x xs :
    registry_flatten_one_level r x = Some (xs, aux) ->
    type_of x = ty ->
    Forall2 (prefix_of r) children xs ->
    prefix_of r (TNode ty aux children) x.

(** The [j]-th tuple of [zip] applied to [lists]. *)
Definition per_leaf {A} (lists : list (list A)) (j : nat) : list A :=
  omap (fun l => l !! j) lists.

(** The keys of a [defaultdict] were inserted in sorted order, here and in
    every component. *)
Definition defaultdict_in_key_order (x : pyobj) : Prop :=
  match x with
  | PyDefaultDict _ items => items.*1 = sorted_keys (items.*1)
  | _ => True
  end.

Inductive key_ordered : pyobj -> Prop :=
| key_ordered_intro x :
    defaultdict_in_key_order x ->
    (forall c, c ∈ sub_objects x -> key_ordered c) -> key_ordered x.

(** No instance of the class [cls] occurs in a value. *)
Inductive free_of (cls : string) : pyobj -> Prop :=
| free_of_intro x :
    type_of x <> TyClass cls ->
    (forall c, c ∈ sub_objects x -> free_of cls c) -> free_of cls x.

(** What a key entry names in a value: [tree[idx]], [tree[key]],
    [getattr(tree, name)], and for a flat index the child at that position of
    the value's decomposition. *)
Definition key_child (k : KeyEntry) (tree : pyobj) : option pyobj :=
  match k, tree with
  | SequenceKey idx, (PyTuple xs | PyList xs) => xs !! idx
  | DictKey key, (PyDict items | PyOrderedDict items | PyDefaultDict _ items) =>
      dict_getitem key items
  | GetAttrKey name, PyNamedTuple _ items => dict_getitem name items
  | FlattenedIndexKey i, _ => '(children, _) ← to_iter tree; children !! i
  | _, _ => None
  end.

(** The value reached from [tree] by following a key path. *)
Fixpoint lookup_path (key_path : KeyPath) (tree : pyobj) : option pyobj :=
  match key_path with
  | [] => Some tree
  | k :: key_path' => c ← key_child k tree; lookup_path key_path' c
  end.

Ltac solve_wf_pyobj :=
  repeat (constructor;
          [simpl; try done; by apply (bool_decide_unpack _)
          |simpl; let c := fresh "c" in let Hc := fresh "Hc" in
           intros c Hc;
           repeat (apply elem_of_cons in Hc as [->|Hc]);
           try (by apply elem_of_nil in Hc)]).

(** * Properties *)

(** ** Order on keys and sorting *)

Lemma string_compare_refl (s : string) : String.compare s s = Eq.
Proof.
  induction s as [|a s IH]; simpl; [done|].
  unfold Ascii.compare. by rewrite N.compare_refl.
Qed.

Lemma string_compare_lt_trans (a b c : string) :
  String.compare a b = Lt -> String.compare b c = Lt -> String.compare a c = Lt.
Proof.
  revert b c. induction a as [|x a IH]; intros [|y b] [|z c]; simpl; try done.
  unfold Ascii.compare.
  destruct (N.compare_spec (N_of_ascii x) (N_of_ascii y)) as [Hxy|Hxy|Hxy];
    destruct (N.compare_spec (N_of_ascii y) (N_of_ascii z)) as [Hyz|Hyz|Hyz];
    try done; intros H1 H2.
  - rewrite Hxy, Hyz, N.compare_refl. eauto.
  - rewrite Hxy. by apply N.compare_lt_iff in Hyz as ->.
  - rewrite <- Hyz. by apply N.compare_lt_iff in Hxy as ->.
  - assert (N_of_ascii x < N_of_ascii z)%N as Hxz by (by etrans).
    by apply N.compare_lt_iff in Hxz as ->.
Qed.

#[global] Instance key_le_total : Total key_le.
Proof. intros a b. apply String.leb_total. Qed.

#[global] Instance key_le_antisym : AntiSymm (=) key_le.
Proof. intros a b. apply String.leb_antisym. Qed.

#[global] Instance key_le_refl : Reflexive key_le.
Proof. intros a. unfold key_le, String.leb. by rewrite string_compare_refl. Qed.

#[global] Instance key_le_trans : Transitive key_le.
Proof.
  intros a b c. unfold key_le, String.leb.
  destruct (String.compare a b) eqn:Hab; [|
    destruct (String.compare b c) eqn:Hbc|]; try done.
  - apply String.compare_eq_iff in Hab as ->. done.
  - apply String.compare_eq_iff in Hbc as ->. by rewrite Hab.
  - by rewrite (string_compare_lt_trans _ _ _ Hab Hbc).
Qed.

#[global] Instance item_le_total {A} : Total (@item_le A).
Proof. intros a b. apply key_le_total. Qed.

#[global] Instance item_le_trans {A} : Transitive (@item_le A).
Proof. intros a b c. apply key_le_trans. Qed.

Lemma sorted_items_perm {A} (items : list (string * A)) :
  sorted_items items ≡ₚ items.
Proof. apply merge_sort_Permutation. Qed.

Lemma sorted_items_sorted {A} (items : list (string * A)) :
  StronglySorted item_le (sorted_items items).
Proof. apply StronglySorted_merge_sort; apply _. Qed.

Lemma sorted_keys_perm (keys : list string) : sorted_keys keys ≡ₚ keys.
Proof. apply merge_sort_Permutation. Qed.

Lemma sorted_keys_sorted (keys : list string) :
  StronglySorted key_le (sorted_keys keys).
Proof. apply StronglySorted_merge_sort; apply _. Qed.

Lemma NoDup_fst_inj {A} (items : list (string * A)) k v1 v2 :
  NoDup (items.*1) -> (k, v1) ∈ items -> (k, v2) ∈ items -> v1 = v2.
Proof.
  induction items as [|[k' v'] items IH]; csimpl; intros Hnd H1 H2.
  { by apply elem_of_nil in H1. }
  apply NoDup_cons in Hnd as [Hk Hnd].
  apply elem_of_cons in H1 as [H1|H1]; apply elem_of_cons in H2 as [H2|H2];
    simplify_eq; try done; [| |by eauto].
  - destruct Hk. apply list_elem_of_fmap. by exists (k', v2).
  - destruct Hk. apply list_elem_of_fmap. by exists (k', v1).
Qed.

(** Sorting the items and projecting the keys is sorting the keys. *)
Lemma sorted_items_keys {A} (items : list (string * A)) :
  (sorted_items items).*1 = sorted_keys (items.*1).
Proof.
  eapply (StronglySorted_unique (A:=string) key_le).
  - eapply (StronglySorted_fmap fst item_le key_le); [|apply sorted_items_sorted].
    intros; done.
  - apply sorted_keys_sorted.
  - by rewrite sorted_items_perm, sorted_keys_perm.
Qed.

(** Two orderings of the same items, with pairwise different keys, sort to the
    same list. *)
Lemma sorted_items_unique {A} (items1 items2 : list (string * A)) :
  NoDup (items1.*1) -> items1 ≡ₚ items2 ->
  sorted_items items1 = sorted_items items2.
Proof.
  intros Hnd Hp.
  eapply (StronglySorted_unique_strong item_le); try apply sorted_items_sorted.
  - intros [k1 v1] [k2 v2] H1 H2 Hle1 Hle2.
    assert (k1 = k2) as <- by (by apply (anti_symm key_le)).
    rewrite sorted_items_perm in H1. rewrite sorted_items_perm, <- Hp in H2.
    f_equal. by eapply NoDup_fst_inj.
  - by rewrite !sorted_items_perm.
Qed.

(** ** Components of a value and recursion depth *)

Lemma list_fmap_ext' {A B} (f g : A -> B) (l : list A) :
  (forall x, x ∈ l -> f x = g x) -> f <$> l = g <$> l.
Proof.
  intros H. apply list_eq. intros i. rewrite !list_lookup_fmap.
  destruct (l !! i) eqn:E; simpl; [|done].
  f_equal. apply H. by eapply list_elem_of_lookup_2.
Qed.

Lemma max_list_map_le {A} (f : A -> nat) (l : list A) (x : A) :
  x ∈ l -> f x <= max_list (f <$> l).
Proof.
  induction 1 as [x l|x y l _ IH]; csimpl; lia.
Qed.

Lemma sub_objects_depth (x c : pyobj) : c ∈ sub_objects x -> depth c < depth x.
Proof.
  destruct x; simpl; intros Hc; try (by apply elem_of_nil in Hc);
    try (apply (max_list_map_le depth) in Hc; lia).
  all: apply list_elem_of_fmap in Hc as [[k v] [-> Hc]];
    apply (max_list_map_le (fun kv => depth (snd kv))) in Hc; simpl in *; lia.
Qed.

(** Induction on values through their components. *)
Lemma pyobj_sub_ind (P : pyobj -> Prop) :
  (forall x, (forall c, c ∈ sub_objects x -> P c) -> P x) -> forall x, P x.
Proof.
  intros step x. remember (depth x) as n eqn:Hn.
  revert x Hn. induction n as [n IH] using lt_wf_ind. intros x ->.
  apply step. intros c Hc. eapply IH; [|done]. by apply sub_objects_depth.
Qed.

Lemma dict_getitem_elem_of {A} (k : string) (items : list (string * A)) (v : A) :
  dict_getitem k items = Some v -> (k, v) ∈ items.
Proof.
  induction items as [|[k' v'] items IH]; simpl; [done|].
  case_decide; intros ?; simplify_eq; [left|right; auto].
Qed.

Lemma to_iter_sub_objects (x : pyobj) children aux :
  to_iter x = Some (children, aux) -> children ⊆ sub_objects x.
Proof.
  destruct x; simpl; unfold _flatten_defaultdict; intros ?; simplify_eq;
    try done.
  - by rewrite sorted_items_perm.
  - intros c Hc. apply list_elem_of_omap in Hc as (k & _ & Hk).
    apply dict_getitem_elem_of in Hk. apply list_elem_of_fmap. by exists (k, c).
Qed.

Lemma one_level_sub_objects r (x : pyobj) children aux :
  registry_flatten_one_level r x = Some (children, aux) ->
  children ⊆ sub_objects x.
Proof.
  unfold registry_flatten_one_level. case_match; [|done].
  apply to_iter_sub_objects.
Qed.

Lemma one_level_depth r (x : pyobj) children aux c :
  registry_flatten_one_level r x = Some (children, aux) ->
  c ∈ children -> depth c < depth x.
Proof.
  intros H Hc. eapply sub_objects_depth, one_level_sub_objects; eauto.
Qed.

(** ** Flattening: enough fuel and the defining equation *)

Lemma flatten_fuel_enough r il (n m : nat) (t : pyobj) :
  depth t < n -> depth t < m -> flatten_fuel n r il t = flatten_fuel m r il t.
Proof.
  revert m t. induction n as [|n IH]; intros [|m] t Hn Hm; try lia.
  simpl. destruct (leaf_predicate il t); [done|].
  destruct (registry_flatten_one_level r t) as [[children aux]|] eqn:E; [|done].
  assert (flatten_fuel n r il <$> children = flatten_fuel m r il <$> children)
    as ->; [|done].
  apply list_fmap_ext'. intros c Hc.
  pose proof (one_level_depth _ _ _ _ _ E Hc). apply IH; lia.
Qed.

(** The equation the traversal satisfies, with no fuel in sight. *)
Lemma registry_flatten_eq r (t : pyobj) il :
  registry_flatten r t il =
    if leaf_predicate il t then ([t], TLeaf)
    else match registry_flatten_one_level r t with
         | None => ([t], TLeaf)
         | Some (children, aux) =>
             let rs := (fun c => registry_flatten r c il) <$> children in
             (concat (rs.*1), TNode (type_of t) aux (rs.*2))
         end.
Proof.
  unfold registry_flatten at 1. simpl.
  destruct (leaf_predicate il t); [done|].
  destruct (registry_flatten_one_level r t) as [[children aux]|] eqn:E; [|done].
  assert (flatten_fuel (depth t) r il <$> children
          = (fun c => registry_flatten r c il) <$> children) as ->; [|done].
  apply list_fmap_ext'. intros c Hc.
  pose proof (one_level_depth _ _ _ _ _ E Hc).
  apply flatten_fuel_enough; lia.
Qed.

(** ** Leaf treedefs *)

Lemma num_nodes_pos (td : PyTreeDef) : 1 <= num_nodes td.
Proof. destruct td; simpl; lia. Qed.

Lemma sum_list_num_nodes_zero (children : list PyTreeDef) :
  sum_list (num_nodes <$> children) = 0 -> children = [].
Proof.
  destruct children as [|c children]; csimpl; [done|].
  pose proof (num_nodes_pos c). lia.
Qed.

Lemma single_node_cases (td : PyTreeDef) :
  num_nodes td = 1 -> td = TLeaf \/ exists ty aux, td = TNode ty aux [].
Proof.
  destruct td as [|ty aux children]; simpl; [by left|].
  intros H. right. exists ty, aux. f_equal.
  apply sum_list_num_nodes_zero. lia.
Qed.

(** C10: [treedef_is_leaf] is true exactly for single-node treedefs, the
    strict check asks for exactly one leaf in addition, and the two disagree
    exactly on single-node treedefs without leaves, such as the structure of
    [None] or of an empty tuple or list. *)
Theorem treedef_is_leaf_single_node (treedef : PyTreeDef) :
  (treedef_is_leaf treedef = true <-> num_nodes treedef = 1) /\
  (treedef_is_strict_leaf treedef = true <->
     num_nodes treedef = 1 /\ num_leaves treedef = 1) /\
  (treedef_is_leaf treedef <> treedef_is_strict_leaf treedef <->
     num_nodes treedef = 1 /\ num_leaves treedef = 0) /\
  (treedef_is_leaf (tree_structure initial PyNone None) = true /\
   treedef_is_strict_leaf (tree_structure initial PyNone None) = false /\
   num_leaves (tree_structure initial PyNone None) = 0) /\
  (forall st,
     treedef_is_leaf (tree_structure st (PyTuple []) None) = true /\
     treedef_is_strict_leaf (tree_structure st (PyTuple []) None) = false /\
     num_leaves (tree_structure st (PyList []) None) = 0).
Proof.
  unfold treedef_is_leaf, treedef_is_strict_leaf.
  split_and!; try done.
  - apply bool_decide_eq_true.
  - rewrite andb_true_iff, !bool_decide_eq_true. done.
  - split.
    + intros Hne. repeat case_bool_decide; simpl in *; try done.
      split; [done|].
      destruct (single_node_cases treedef) as [->|(ty & aux & ->)]; done.
    + intros [H1 H0]. rewrite !bool_decide_eq_true_2 by done.
      rewrite bool_decide_eq_false_2 by lia. done.
Qed.

(** ** Registration keeps the registries aligned *)

Lemma consistent_initial : consistent initial.
Proof.
  split; try done. intros cls [keys H]. simpl in H.
  by rewrite lookup_empty in H.
Qed.

Lemma consistent_register_pytree_node st cls :
  consistent st -> consistent (register_pytree_node cls st).
Proof.
  intros [H1 H2 H3 H4]. split; simpl; try done; try congruence.
  intros c Hc. apply elem_of_union. right. by apply H4.
Qed.

Lemma consistent_register_pytree_with_keys st cls keys :
  consistent st -> consistent (register_pytree_with_keys cls keys st).
Proof.
  intros [H1 H2 H3 H4]. split; simpl; try done; try congruence.
  intros c Hc. apply elem_of_union.
  destruct (decide (cls = c)) as [->|Hne]; [left; by apply elem_of_singleton|].
  rewrite lookup_insert_ne in Hc by done. right. by apply H4.
Qed.

Lemma reachable_consistent st : reachable st -> consistent st.
Proof.
  induction 1; auto using consistent_initial, consistent_register_pytree_node,
    consistent_register_pytree_with_keys.
Qed.

Lemma registered_to_iter r (x : pyobj) :
  registered r (type_of x) = true -> is_Some (to_iter x).
Proof. destruct x; simpl; try done; intros _; eauto. Qed.

Lemma registered_none_leaf st ty :
  consistent st ->
  registered (none_leaf_registry st) ty = true ->
  registered (default_registry st) ty = true.
Proof.
  intros [H1 H2 H3 H4]. destruct ty; simpl; try done; by rewrite ?H1, ?H2.
Qed.

Lemma registered_dispatch st ty :
  consistent st ->
  registered (dispatch_registry st) ty = true ->
  registered (default_registry st) ty = true.
Proof.
  intros [H1 H2 H3 H4]. destruct ty; simpl; try done; by rewrite ?H1, ?H3.
Qed.

Lemma tree_flatten_unregistered st (x : pyobj) il :
  registered (default_registry st) (type_of x) = false ->
  tree_flatten st x il = ([x], TLeaf).
Proof.
  intros H. unfold tree_flatten. rewrite registry_flatten_eq.
  unfold registry_flatten_one_level. rewrite H. by destruct (leaf_predicate il x).
Qed.

(** C9, as amended: [flatten_one_level] consults the default registry only.
    In every state it raises the unrecognized-structure error exactly for
    values whose type is no node type of the default registry, and raises
    nothing else; [tree_flatten] returns such a value as a single leaf.  In
    the states reached by the registration calls of this module that is the
    same as being a node type of none of the three registries. *)
Theorem flatten_one_level_unrecognized st (x : pyobj) :
  (flatten_one_level st x = Raise (UnrecognizedStructure (type_of x)) <->
     registered (default_registry st) (type_of x) = false) /\
  (forall e, flatten_one_level st x = Raise e ->
     e = UnrecognizedStructure (type_of x)) /\
  (forall is_leaf,
     registered (default_registry st) (type_of x) = false ->
     tree_flatten st x is_leaf = ([x], TLeaf)) /\
  (reachable st ->
   (registered (default_registry st) (type_of x) = false <->
    registered (default_registry st) (type_of x) = false /\
    registered (none_leaf_registry st) (type_of x) = false /\
    registered (dispatch_registry st) (type_of x) = false)).
Proof.
  split_and!.
  - unfold flatten_one_level, registry_flatten_one_level.
    destruct (registered (default_registry st) (type_of x)) eqn:E; [|done].
    destruct (registered_to_iter _ x E) as [out ->]. done.
  - unfold flatten_one_level. intros e.
    destruct (registry_flatten_one_level _ x); intros ?; by simplify_eq.
  - intros il. apply tree_flatten_unregistered.
  - intros Hst%reachable_consistent. split; [|by intros (? & _)].
    intros E. split_and!; [done|..]; apply not_true_is_false; intros H.
    + apply registered_none_leaf in H; [congruence|done].
    + apply registered_dispatch in H; [congruence|done].
Qed.

Lemma flatten_one_level_unrecognized_witness :
  flatten_one_level initial (PyInt 1) = Raise (UnrecognizedStructure TyInt) /\
  tree_flatten initial (PyInt 1) None = ([PyInt 1], TLeaf).
Proof.
  pose proof (flatten_one_level_unrecognized initial (PyInt 1))
    as (H1 & _ & H3 & _).
  split; [by apply H1|by apply H3].
Defined.

(** C9, as stated, fails where the dispatch registry knows a type that the
    default registry does not (the source names PRNG key arrays): the type is
    registered in a registry, and [flatten_one_level] raises all the same. *)
Lemma flatten_one_level_dispatch_only :
  let st :=
    {| default_registry := default_registry initial;
       none_leaf_registry := none_leaf_registry initial;
       dispatch_registry :=
         register_node "PRNGKeyArray" (dispatch_registry initial);
       _registry := _registry initial;
       _registry_with_keypaths := _registry_with_keypaths initial |} in
  let x := PyObject "PRNGKeyArray" AuxNone [PyInt 0] in
  registered (dispatch_registry st) (type_of x) = true /\
  flatten_one_level st x = Raise (UnrecognizedStructure (type_of x)).
Proof. by split. Qed.

(** ** Canonical order of mappings *)

(** C4: flattening a [dict] emits the values in sorted key order and records
    the sorted keys; two dictionaries with the same items flatten alike
    whatever the insertion order; [{"b": 1, "a": 2}] gives leaves [[2, 1]] and
    keys [(a, b)]. *)
Theorem dict_flatten_sorted st is_leaf (items1 items2 : list (string * pyobj)) :
  NoDup (items1.*1) -> items1 ≡ₚ items2 ->
  leaf_predicate is_leaf (PyDict items1) = false ->
  leaf_predicate is_leaf (PyDict items2) = false ->
  let s := sorted_items items1 in
  tree_flatten st (PyDict items1) is_leaf =
    (concat ((fun kv => fst (tree_flatten st (snd kv) is_leaf)) <$> s),
     TNode TyDict (AuxKeys (s.*1))
       ((fun kv => snd (tree_flatten st (snd kv) is_leaf)) <$> s)) /\
  StronglySorted key_le (s.*1) /\ s ≡ₚ items1 /\
  tree_flatten st (PyDict items2) is_leaf = tree_flatten st (PyDict items1) is_leaf /\
  tree_flatten st (PyDict [("b", PyInt 1); ("a", PyInt 2)]) None =
    ([PyInt 2; PyInt 1], TNode TyDict (AuxKeys ["a"; "b"]) [TLeaf; TLeaf]) /\
  generate_key_paths st (PyDict [("b", PyInt 1); ("a", PyInt 2)]) None =
    [([DictKey "a"], PyInt 2); ([DictKey "b"], PyInt 1)].
Proof.
  intros Hnd Hp Hl1 Hl2 s. subst s.
  assert (forall items, leaf_predicate is_leaf (PyDict items) = false ->
    tree_flatten st (PyDict items) is_leaf =
      (concat ((fun kv => fst (tree_flatten st (snd kv) is_leaf)) <$> sorted_items items),
       TNode TyDict (AuxKeys ((sorted_items items).*1))
         ((fun kv => snd (tree_flatten st (snd kv) is_leaf)) <$> sorted_items items)))
    as Heq.
  { intros items Hl. unfold tree_flatten. rewrite registry_flatten_eq, Hl.
    unfold registry_flatten_one_level. simpl.
    by rewrite <- !list_fmap_compose. }
  split_and!.
  - by apply Heq.
  - rewrite sorted_items_keys. apply sorted_keys_sorted.
  - apply sorted_items_perm.
  - rewrite !Heq by done. by rewrite (sorted_items_unique items1 items2).
  - done.
  - done.
Qed.

Lemma dict_flatten_sorted_witness :
  tree_flatten initial (PyDict [("a", PyInt 2); ("b", PyInt 1)]) None =
  tree_flatten initial (PyDict [("b", PyInt 1); ("a", PyInt 2)]) None.
Proof.
  refine (proj1 (proj2 (proj2 (proj2
    (dict_flatten_sorted initial None
       [("b", PyInt 1); ("a", PyInt 2)] [("a", PyInt 2); ("b", PyInt 1)]
       _ _ _ _))))).
  - by apply (bool_decide_unpack _).
  - apply perm_swap.
  - reflexivity.
  - reflexivity.
Defined.

(** ** Leaf counts *)

(** Induction on treedefs, with the hypothesis for every child of a node. *)
Fixpoint PyTreeDef_Forall_ind (P : PyTreeDef -> Prop) (Hleaf : P TLeaf)
    (Hnode : forall ty aux children,
       Forall P children -> P (TNode ty aux children))
    (td : PyTreeDef) : P td :=
  match td with
  | TLeaf => Hleaf
  | TNode ty aux children =>
      Hnode ty aux children
        ((fix go (l : list PyTreeDef) : Forall P l :=
            match l with
            | [] => Forall_nil_2 P
            | c :: l' =>
                Forall_cons_2 P c l' (PyTreeDef_Forall_ind P Hleaf Hnode c) (go l')
            end) children)
  end.

Lemma num_leaves_registry_flatten r (t : pyobj) il :
  num_leaves (snd (registry_flatten r t il)) = length (fst (registry_flatten r t il)).
Proof.
  induction t as [t IH] using pyobj_sub_ind.
  rewrite registry_flatten_eq. destruct (leaf_predicate il t); [done|].
  destruct (registry_flatten_one_level r t) as [[children aux]|] eqn:E; [|done].
  simpl. pose proof (one_level_sub_objects _ _ _ _ E) as Hsub.
  clear E. induction children as [|c children IHc]; csimpl; [done|].
  rewrite length_app, IH, IHc; [done| |].
  - intros x Hx. apply Hsub. by right.
  - apply Hsub. by left.
Qed.

Lemma omap_total_length {A B} (f : A -> option B) (l : list A) :
  (forall x, x ∈ l -> is_Some (f x)) -> length (omap f l) = length l.
Proof.
  induction l as [|x l IH]; csimpl; intros H; [done|].
  destruct (H x) as [y ->]; [by left|]. simpl. f_equal. apply IH.
  intros z Hz. apply H. by right.
Qed.

Lemma dict_getitem_is_Some {A} (k : string) (items : list (string * A)) :
  k ∈ items.*1 -> is_Some (dict_getitem k items).
Proof.
  induction items as [|[k' v'] items IH]; csimpl; intros H.
  { by apply elem_of_nil in H. }
  case_decide; [eauto|]. apply elem_of_cons in H as [?|?]; [done|auto].
Qed.

Lemma _flatten_defaultdict_length f (d : list (string * pyobj)) :
  length (fst (_flatten_defaultdict f d)) = length d.
Proof.
  unfold _flatten_defaultdict. simpl. rewrite omap_total_length.
  - unfold sorted_keys. by rewrite merge_sort_Permutation, length_fmap.
  - intros k Hk. apply dict_getitem_is_Some.
    by rewrite sorted_keys_perm in Hk.
Qed.

(** The recompose function accepts the number of children its own decompose
    function produced. *)
Lemma from_iter_to_iter_arity (x : pyobj) children aux (xs : list pyobj) :
  to_iter x = Some (children, aux) -> length xs = length children ->
  exists t, from_iter (type_of x) aux xs = Ok t.
Proof.
  destruct x as [| | | | | | |f items| |]; simpl;
    try pose proof (_flatten_defaultdict_length f items) as Hd;
    unfold _flatten_defaultdict in *; intros ? Hlen; simplify_eq; simpl; eauto.
  - rewrite length_fmap in Hlen. unfold safe_zip.
    rewrite length_fmap, decide_True by done. simpl. eauto.
  - simpl in Hd. rewrite Hd in Hlen. unfold safe_zip, sorted_keys.
    rewrite decide_True; [simpl; eauto|].
    by rewrite merge_sort_Permutation, length_fmap.
  - rewrite length_fmap in Hlen.
    rewrite length_fmap, decide_True by done. eauto.
Qed.

Lemma registry_flatten_wf_treedef r (t : pyobj) il :
  wf_treedef (snd (registry_flatten r t il)).
Proof.
  induction t as [t IH] using pyobj_sub_ind.
  rewrite registry_flatten_eq. destruct (leaf_predicate il t); [constructor|].
  destruct (registry_flatten_one_level r t) as [[children aux]|] eqn:E;
    [|constructor].
  simpl. constructor.
  - intros xs Hlen. rewrite !length_fmap in Hlen.
    unfold registry_flatten_one_level in E. case_match; [|done].
    by eapply from_iter_to_iter_arity.
  - apply Forall_fmap, Forall_fmap, Forall_forall. intros c Hc. simpl.
    apply IH. eapply one_level_sub_objects; eauto.
Qed.

(** The walk consumes [num_leaves] values, or fails for lack of them. *)
Lemma unflatten_from_spec (td : PyTreeDef) :
  wf_treedef td -> forall leaves,
  (num_leaves td <= length leaves ->
     exists t, unflatten_from td leaves = Ok (t, drop (num_leaves td) leaves)) /\
  (length leaves < num_leaves td ->
     unflatten_from td leaves = Raise (StructureMismatch LeafCount)).
Proof.
  induction td as [|ty aux children IH] using PyTreeDef_Forall_ind;
    intros Hwf leaves.
  { destruct leaves; simpl; split; intros; try lia; eauto. }
  inversion_clear Hwf as [|? ? ? Harity Hwfc].
  assert (forall leaves,
    (sum_list (num_leaves <$> children) <= length leaves ->
       exists kids, unflatten_children unflatten_from children leaves
         = Ok (kids, drop (sum_list (num_leaves <$> children)) leaves)
         /\ length kids = length children) /\
    (length leaves < sum_list (num_leaves <$> children) ->
       unflatten_children unflatten_from children leaves
         = Raise (StructureMismatch LeafCount))) as Hchildren.
  { clear Harity. induction children as [|c children IHc]; intros ls; csimpl.
    { split; [|lia]. intros _. exists []. by rewrite drop_0. }
    apply Forall_cons in IH as [IHhd IHtl]. apply Forall_cons in Hwfc as [Hc Hcs].
    destruct (IHhd Hc ls) as [Hok Hshort].
    destruct (decide (num_leaves c <= length ls)) as [Hle|Hgt].
    - destruct (Hok Hle) as [kid ->]. simpl.
      destruct (IHc IHtl Hcs (drop (num_leaves c) ls)) as [Hok' Hshort'].
      rewrite length_drop in Hok', Hshort'. split; intros Hsum.
      + destruct Hok' as (kids & -> & Hlen); [lia|]. simpl.
        exists (kid :: kids). rewrite drop_drop. simpl. by rewrite Hlen.
      + rewrite Hshort' by lia. done.
    - split; [lia|]. intros _. rewrite Hshort by lia. done. }
  simpl. destruct (Hchildren leaves) as [Hok Hshort]. split; intros Hlen.
  - destruct (Hok Hlen) as (kids & -> & Hk). simpl.
    destruct (Harity kids Hk) as [t ->]. simpl. eauto.
  - by rewrite Hshort.
Qed.

Lemma treedef_unflatten_spec (td : PyTreeDef) (leaves : list pyobj) :
  wf_treedef td ->
  (length leaves = num_leaves td -> exists t, treedef_unflatten td leaves = Ok t) /\
  (length leaves <> num_leaves td ->
     treedef_unflatten td leaves = Raise (StructureMismatch LeafCount)).
Proof.
  intros Hwf. unfold treedef_unflatten.
  destruct (unflatten_from_spec td Hwf leaves) as [Hok Hshort].
  split; intros Hlen.
  - destruct Hok as [t ->]; [lia|]. simpl.
    rewrite drop_ge by lia. eauto.
  - destruct (decide (length leaves < num_leaves td)) as [Hlt|Hge].
    + by rewrite Hshort.
    + destruct Hok as [t ->]; [lia|]. simpl.
      destruct (drop (num_leaves td) leaves) eqn:E; [|done].
      apply (f_equal length) in E. rewrite length_drop in E. simpl in E. lia.
Qed.

(** C2: for a treedef whose nodes can be recomposed -- in particular any
    treedef produced by flattening -- unflattening fails with the leaf count
    mismatch exactly when the number of leaves given differs from
    [num_leaves], and succeeds otherwise; and the treedef returned by
    [tree_flatten] counts exactly the leaves returned with it. *)
Theorem unflatten_leaf_count st (treedef : PyTreeDef) (leaves : list pyobj) :
  wf_treedef treedef ->
  (tree_unflatten treedef leaves = Raise (StructureMismatch LeafCount) <->
     length leaves <> num_leaves treedef) /\
  ((exists t, tree_unflatten treedef leaves = Ok t) <->
     length leaves = num_leaves treedef) /\
  (forall tree is_leaf,
     num_leaves (snd (tree_flatten st tree is_leaf))
       = length (fst (tree_flatten st tree is_leaf)) /\
     wf_treedef (snd (tree_flatten st tree is_leaf))).
Proof.
  intros Hwf. unfold tree_unflatten.
  destruct (treedef_unflatten_spec treedef leaves Hwf) as [Hok Hbad].
  split_and!.
  - split; [|done]. intros Hr Hlen. destruct (Hok Hlen) as [t Ht]. congruence.
  - split; [|done]. intros [t Ht].
    destruct (decide (length leaves = num_leaves treedef)) as [|Hne]; [done|].
    rewrite Hbad in Ht by done. done.
  - intros tree il. split.
    + apply num_leaves_registry_flatten.
    + apply registry_flatten_wf_treedef.
Qed.

Lemma unflatten_leaf_count_witness :
  tree_unflatten (TNode TyList AuxNone [TLeaf; TLeaf]) [PyInt 1]
    = Raise (StructureMismatch LeafCount).
Proof.
  refine (proj2 (proj1 (unflatten_leaf_count initial
    (TNode TyList AuxNone [TLeaf; TLeaf]) [PyInt 1] _)) _).
  - constructor; [simpl; eauto|]. repeat constructor.
  - simpl. lia.
Defined.

(** ** Round trip *)

Lemma Forall2_same {A} (R : A -> A -> Prop) (l : list A) :
  (forall x, x ∈ l -> R x x) -> Forall2 R l l.
Proof.
  induction l as [|x l IH]; intros H; constructor.
  - apply H. by left.
  - apply IH. intros y Hy. apply H. by right.
Qed.

Lemma py_eq_refl (x : pyobj) : py_eq x x.
Proof.
  induction x as [x IH] using pyobj_sub_ind.
  assert (forall items : list (string * pyobj),
    (forall c, c ∈ items.*2 -> py_eq c c) ->
    Forall2 (fun a b => fst a = fst b /\ py_eq (snd a) (snd b)) items items)
    as Hitems.
  { intros items H. apply Forall2_same. intros [k v] Hkv. split; [done|].
    apply H. apply list_elem_of_fmap. by exists (k, v). }
  destruct x; simpl in IH.
  - constructor.
  - constructor.
  - constructor.
  - constructor. by apply Forall2_same.
  - constructor. by apply Forall2_same.
  - econstructor; [done|]. by apply Hitems.
  - constructor. by apply Hitems.
  - econstructor; [done|]. by apply Hitems.
  - constructor. by apply Hitems.
  - constructor. by apply Forall2_same.
Qed.

Lemma dict_setitem_fresh {A} (k : string) (v : A) (items : list (string * A)) :
  k ∉ items.*1 -> dict_setitem k v items = items ++ [(k, v)].
Proof.
  induction items as [|[k' v'] items IH]; csimpl; intros H; [done|].
  apply not_elem_of_cons in H as [Hne H]. rewrite decide_False by done.
  by rewrite IH.
Qed.

Lemma dict_of_pairs_NoDup {A} (pairs : list (string * A)) :
  NoDup (pairs.*1) -> dict_of_pairs pairs = pairs.
Proof.
  unfold dict_of_pairs.
  assert (forall acc, NoDup ((acc ++ pairs).*1) ->
    fold_left (fun d kv => dict_setitem (fst kv) (snd kv) d) pairs acc
      = acc ++ pairs) as H.
  { induction pairs as [|[k v] pairs IH]; intros acc Hnd; simpl.
    { by rewrite app_nil_r. }
    rewrite dict_setitem_fresh.
    - rewrite IH; rewrite <- app_assoc; done.
    - rewrite fmap_app in Hnd. apply NoDup_app in Hnd as (_ & Hnd & _).
      intros Hk. apply (Hnd k Hk). csimpl. by left. }
  intros Hnd. by apply (H []).
Qed.

Lemma dict_getitem_NoDup {A} (items : list (string * A)) k v :
  NoDup (items.*1) -> (k, v) ∈ items -> dict_getitem k items = Some v.
Proof.
  intros Hnd Hkv.
  destruct (dict_getitem_is_Some k items) as [v' Hv'].
  { apply list_elem_of_fmap. by exists (k, v). }
  rewrite Hv'. f_equal. apply dict_getitem_elem_of in Hv'.
  by eapply NoDup_fst_inj.
Qed.

Lemma omap_dict_getitem {A} (items l : list (string * A)) :
  NoDup (items.*1) -> l ⊆ items ->
  omap (fun k => dict_getitem k items) (l.*1) = l.*2.
Proof.
  intros Hnd. induction l as [|[k v] l IH]; csimpl; intros Hsub; [done|].
  rewrite (dict_getitem_NoDup items k v); [|done|apply Hsub; by left].
  simpl. f_equal. apply IH. intros x Hx. apply Hsub. by right.
Qed.

(** With unique keys, [_flatten_defaultdict] returns the values and keys of
    the sorted items. *)
Lemma _flatten_defaultdict_sorted f (d : list (string * pyobj)) :
  NoDup (d.*1) ->
  _flatten_defaultdict f d
    = ((sorted_items d).*2, AuxFactoryKeys f ((sorted_items d).*1)).
Proof.
  intros Hnd. unfold _flatten_defaultdict.
  rewrite <- sorted_items_keys, omap_dict_getitem; [done..|].
  intros x. by rewrite sorted_items_perm.
Qed.

Lemma Forall2_zip_items (kids : list pyobj) (items : list (string * pyobj)) :
  Forall2 py_eq kids (items.*2) ->
  Forall2 (fun a b => fst a = fst b /\ py_eq (snd a) (snd b))
    (zip (items.*1) kids) items.
Proof.
  revert kids. induction items as [|[k v] items IH]; intros kids H; csimpl in *.
  { apply Forall2_nil_inv_r in H as ->. constructor. }
  apply Forall2_cons_inv_r in H as (kid & kids' & Hk & Hks & ->).
  simpl. constructor; [done|auto].
Qed.

Lemma zip_items_keys (kids : list pyobj) (items : list (string * pyobj)) :
  length kids = length items -> (zip (items.*1) kids).*1 = items.*1.
Proof. intros H. apply fst_zip. rewrite length_fmap. lia. Qed.

(** One level of the round trip: recomposing structurally equal children
    with the metadata of a value gives a structurally equal value. *)
Lemma from_iter_to_iter (x : pyobj) children aux (kids : list pyobj) :
  keys_unique x -> to_iter x = Some (children, aux) ->
  Forall2 py_eq kids children ->
  exists x', from_iter (type_of x) aux kids = Ok x' /\ py_eq x' x.
Proof.
  intros Hu Hx Hkids. pose proof (Forall2_length _ _ _ Hkids) as Hlen.
  destruct x as [| | |xs|xs|items|items|f items|name items|cls a xs]; simpl in *;
    try rewrite _flatten_defaultdict_sorted in Hx by done; simplify_eq; simpl.
  - apply Forall2_nil_inv_r in Hkids as ->. eexists; split; [done|constructor].
  - eexists; split; [done|by constructor].
  - eexists; split; [done|by constructor].
  - rewrite length_fmap in Hlen.
    assert (NoDup ((sorted_items items).*1)) as Hnd.
    { by rewrite sorted_items_perm. }
    eexists; split; [done|]. rewrite dict_of_pairs_NoDup.
    + eapply py_eq_dict; [symmetry; apply sorted_items_perm|].
      by apply Forall2_zip_items.
    + by rewrite zip_items_keys.
  - rewrite length_fmap in Hlen. unfold safe_zip.
    rewrite length_fmap, decide_True by done. simpl.
    eexists; split; [done|]. rewrite dict_of_pairs_NoDup.
    + constructor. by apply Forall2_zip_items.
    + by rewrite zip_items_keys.
  - rewrite length_fmap in Hlen. unfold safe_zip.
    assert (NoDup ((sorted_items items).*1)) as Hnd.
    { by rewrite sorted_items_perm. }
    rewrite length_fmap, decide_True by done. simpl.
    eexists; split; [done|]. rewrite dict_of_pairs_NoDup.
    + eapply py_eq_default_dict; [symmetry; apply sorted_items_perm|].
      by apply Forall2_zip_items.
    + by rewrite zip_items_keys.
  - rewrite length_fmap in Hlen.
    rewrite length_fmap, decide_True by done.
    eexists; split; [done|]. constructor. by apply Forall2_zip_items.
  - eexists; split; [done|by constructor].
Qed.

Lemma wf_pyobj_inv (x : pyobj) :
  wf_pyobj x -> keys_unique x /\ forall c, c ∈ sub_objects x -> wf_pyobj c.
Proof. by inversion 1. Qed.

(** Unflattening the leaves of a tree, followed by anything, rebuilds the
    tree and leaves what followed. *)
Lemma unflatten_from_flatten r (t : pyobj) il :
  wf_pyobj t -> forall rest, exists t',
    unflatten_from (snd (registry_flatten r t il))
      (fst (registry_flatten r t il) ++ rest) = Ok (t', rest) /\ py_eq t' t.
Proof.
  induction t as [t IH] using pyobj_sub_ind. intros [Hu Hwf]%wf_pyobj_inv rest.
  rewrite registry_flatten_eq.
  destruct (leaf_predicate il t).
  { exists t. split; [done|apply py_eq_refl]. }
  destruct (registry_flatten_one_level r t) as [[children aux]|] eqn:E.
  2:{ exists t. split; [done|apply py_eq_refl]. }
  pose proof (one_level_sub_objects _ _ _ _ E) as Hsub.
  assert (forall rest, exists kids,
    unflatten_children unflatten_from
      (((fun c => registry_flatten r c il) <$> children).*2)
      (concat (((fun c => registry_flatten r c il) <$> children).*1) ++ rest)
      = Ok (kids, rest) /\ Forall2 py_eq kids children) as Hchildren.
  { clear E. induction children as [|c children IHc]; intros rest'; csimpl.
    { exists []. split; [done|constructor]. }
    destruct (IH c) with (rest := concat
      (((fun c => registry_flatten r c il) <$> children).*1) ++ rest')
      as (kid & Hkid & Heq); [apply Hsub; by left|apply Hwf, Hsub; by left|].
    rewrite <- app_assoc, Hkid. simpl.
    destruct (IHc) with (rest := rest') as (kids & -> & Hkids).
    { intros x Hx. apply Hsub. by right. }
    simpl. exists (kid :: kids). split; [done|by constructor]. }
  simpl. destruct (Hchildren rest) as (kids & -> & Hkids). simpl.
  unfold registry_flatten_one_level in E. case_match; [|done].
  destruct (from_iter_to_iter t children aux kids Hu E Hkids) as (t' & -> & Ht').
  simpl. eauto.
Qed.

(** C1: unflattening the treedef and leaves of a tree gives back a
    structurally equal tree. *)
Theorem tree_unflatten_flatten st (t : pyobj) is_leaf :
  wf_pyobj t ->
  exists t',
    tree_unflatten (snd (tree_flatten st t is_leaf))
      (fst (tree_flatten st t is_leaf)) = Ok t' /\ py_eq t' t.
Proof.
  intros Hwf. unfold tree_unflatten, tree_flatten, treedef_unflatten.
  destruct (unflatten_from_flatten (default_registry st) t is_leaf Hwf [])
    as (t' & Ht' & Heq).
  rewrite app_nil_r in Ht'. rewrite Ht'. simpl. eauto.
Qed.

Lemma tree_unflatten_flatten_witness :
  exists t',
    tree_unflatten
      (snd (tree_flatten initial
              (PyDict [("b", PyInt 1); ("a", PyList [PyInt 2; PyNone])]) None))
      (fst (tree_flatten initial
              (PyDict [("b", PyInt 1); ("a", PyList [PyInt 2; PyNone])]) None))
      = Ok t' /\
    py_eq t' (PyDict [("b", PyInt 1); ("a", PyList [PyInt 2; PyNone])]).
Proof.
  apply (tree_unflatten_flatten initial
           (PyDict [("b", PyInt 1); ("a", PyList [PyInt 2; PyNone])]) None).
  solve_wf_pyobj.
Defined.

(** ** Key paths follow the flattening order *)

Lemma elem_of_zip_snd {A B} (ks : list A) (cs : list B) (kc : A * B) :
  kc ∈ zip ks cs -> snd kc ∈ cs.
Proof. destruct kc as [k c]. apply elem_of_zip_r. Qed.

Lemma flatten_with_keys_sub_objects st (t : pyobj) key_children kc :
  flatten_with_keys st t = Some key_children ->
  kc ∈ key_children -> snd kc ∈ sub_objects t.
Proof.
  unfold flatten_with_keys. intros H Hkc.
  destruct t; simpl in H; simplify_option_eq;
    try (apply elem_of_zip_snd in Hkc); try done.
  - apply list_elem_of_fmap in Hkc as (kv & -> & Hkv).
    apply list_elem_of_fmap. exists kv. split; [done|].
    by rewrite <- (sorted_items_perm items).
  - by apply (to_iter_sub_objects (PyDefaultDict default_factory items) _ _ eq_refl).
Qed.

Lemma namedtuple_fields_sub_objects (t : pyobj) key_children kc :
  namedtuple_fields t = Some key_children ->
  kc ∈ key_children -> snd kc ∈ sub_objects t.
Proof.
  destruct t; simpl; intros ? Hkc; simplify_eq.
  apply list_elem_of_fmap in Hkc as ([k v] & -> & Hkv). simpl.
  apply list_elem_of_fmap. by exists (k, v).
Qed.

Lemma generate_key_paths_fuel_enough st il (n m : nat) key_path (t : pyobj) :
  depth t < n -> depth t < m ->
  generate_key_paths_fuel st n key_path t il
    = generate_key_paths_fuel st m key_path t il.
Proof.
  revert m key_path t.
  induction n as [|n IH]; intros [|m] key_path t Hn Hm; try lia.
  simpl. destruct (leaf_predicate il t); [done|].
  assert (forall kcs : list (KeyEntry * pyobj),
    (forall kc, kc ∈ kcs -> snd kc ∈ sub_objects t) ->
    (fun kc => generate_key_paths_fuel st n (key_path ++ [fst kc]) (snd kc) il)
      <$> kcs =
    (fun kc => generate_key_paths_fuel st m (key_path ++ [fst kc]) (snd kc) il)
      <$> kcs) as Hrec.
  { intros kcs Hsub. apply list_fmap_ext'. intros kc Hkc.
    pose proof (sub_objects_depth _ _ (Hsub kc Hkc)). apply IH; lia. }
  destruct (flatten_with_keys st t) as [kcs|] eqn:Ek.
  { rewrite Hrec; [done|]. intros kc.
    by apply (flatten_with_keys_sub_objects st). }
  destruct (registry_flatten_one_level _ t) as [[children aux]|] eqn:E; [|done].
  assert (forall kc, kc ∈ zip (FlattenedIndexKey <$> seq 0 (length children))
            children -> snd kc ∈ sub_objects t) as Hflat.
  { intros kc Hkc%elem_of_zip_snd. eapply one_level_sub_objects; eauto. }
  destruct (namedtuple_fields t) as [kcs|] eqn:En.
  - case_decide; [|by rewrite Hrec].
    rewrite Hrec; [done|]. intros kc. by apply namedtuple_fields_sub_objects.
  - by rewrite Hrec.
Qed.

Lemma snd_concat_fmap {A B C} (g : A -> list (B * C)) (h : A -> list C)
    (l : list A) :
  (forall x, x ∈ l -> (g x).*2 = h x) ->
  (concat (g <$> l)).*2 = concat (h <$> l).
Proof.
  induction l as [|x l IH]; csimpl; intros H; [done|].
  rewrite fmap_app, H, IH; [done| |by left].
  intros y Hy. apply H. by right.
Qed.

(** The children a key handler pairs with keys are the children of the
    one-level decomposition, in the same order. *)
Lemma flatten_with_keys_children st (t : pyobj) key_children :
  consistent st -> flatten_with_keys st t = Some key_children ->
  exists aux,
    registry_flatten_one_level (default_registry st) t
      = Some (key_children.*2, aux).
Proof.
  intros Hst H. unfold flatten_with_keys in H.
  unfold registry_flatten_one_level.
  destruct t as [| | |xs|xs|items|items|f items|name items|cls a xs];
    simpl in H; simplify_option_eq.
  - exists AuxNone. by rewrite snd_zip by (by rewrite length_fmap, length_seq).
  - exists AuxNone. by rewrite snd_zip by (by rewrite length_fmap, length_seq).
  - eexists. rewrite snd_zip; [done|].
    rewrite !length_fmap. unfold sorted_keys, sorted_items.
    by rewrite !merge_sort_Permutation, length_fmap.
  - eexists. by rewrite snd_zip by (by rewrite !length_fmap).
  - eexists. unfold _flatten_defaultdict. rewrite snd_zip; [done|].
    pose proof (_flatten_defaultdict_length f items) as Hlen.
    unfold _flatten_defaultdict in Hlen. simpl in Hlen.
    by rewrite Hlen, !length_fmap.
  - exists a. by rewrite snd_zip by (by rewrite length_fmap, length_seq).
  - exfalso. match goal with H : _ ∉ _ |- _ => apply H end.
    apply (consistent_keypaths _ Hst). eauto.
Qed.

Lemma generate_key_paths_fuel_leaves st il (t : pyobj) :
  consistent st -> forall key_path,
  (generate_key_paths_fuel st (S (depth t)) key_path t il).*2
    = fst (registry_flatten (default_registry st) t il).
Proof.
  intros Hst. induction t as [t IH] using pyobj_sub_ind. intros key_path.
  rewrite registry_flatten_eq. simpl.
  destruct (leaf_predicate il t); [done|].
  assert (forall kcs : list (KeyEntry * pyobj),
    (forall kc, kc ∈ kcs -> snd kc ∈ sub_objects t) ->
    (concat ((fun kc => generate_key_paths_fuel st (depth t)
                (key_path ++ [fst kc]) (snd kc) il) <$> kcs)).*2
    = concat (((fun c => registry_flatten (default_registry st) c il)
                <$> kcs.*2).*1)) as Hrec.
  { intros kcs Hsub. rewrite <- !list_fmap_compose.
    apply snd_concat_fmap. intros kc Hkc. simpl.
    pose proof (sub_objects_depth _ _ (Hsub kc Hkc)).
    rewrite (generate_key_paths_fuel_enough st il _ (S (depth (snd kc))))
      by lia.
    apply IH. by apply Hsub. }
  destruct (flatten_with_keys st t) as [kcs|] eqn:Ek.
  { destruct (flatten_with_keys_children st t kcs Hst Ek) as [aux ->].
    simpl. apply Hrec. intros kc. by apply (flatten_with_keys_sub_objects st). }
  destruct (registry_flatten_one_level _ t) as [[children aux]|] eqn:E; [|done].
  simpl.
  assert (forall kc, kc ∈ zip (FlattenedIndexKey <$> seq 0 (length children))
            children -> snd kc ∈ sub_objects t) as Hflat.
  { intros kc Hkc%elem_of_zip_snd. eapply one_level_sub_objects; eauto. }
  assert ((zip (FlattenedIndexKey <$> seq 0 (length children)) children).*2
          = children) as Hzip.
  { by rewrite snd_zip by (by rewrite length_fmap, length_seq). }
  destruct (namedtuple_fields t) as [kcs|] eqn:En.
  - case_decide; [|by rewrite Hrec, Hzip].
    rewrite Hrec by (intros kc; by apply namedtuple_fields_sub_objects).
    destruct t; simpl in En; simplify_eq.
    unfold registry_flatten_one_level in E. simpl in E. simplify_eq.
    assert ((prod_map GetAttrKey id <$> items).*2 = items.*2) as ->; [|done].
    rewrite <- list_fmap_compose. apply list_fmap_ext'. by intros [k v] _.
  - by rewrite Hrec, Hzip.
Qed.

(** C5: in every state reached by registration calls, the leaves that
    [generate_key_paths] yields are the leaves of [tree_flatten], in the same
    order, one entry per leaf; this holds for [defaultdict] too, whose values
    come out in sorted key order. *)
Theorem generate_key_paths_leaves st (tree : pyobj) is_leaf :
  reachable st ->
  (generate_key_paths st tree is_leaf).*2 = fst (tree_flatten st tree is_leaf) /\
  length (generate_key_paths st tree is_leaf)
    = num_leaves (snd (tree_flatten st tree is_leaf)) /\
  (generate_key_paths st
     (PyDefaultDict None [("b", PyInt 1); ("a", PyInt 2)]) None).*2
    = [PyInt 2; PyInt 1].
Proof.
  intros Hst%reachable_consistent.
  assert ((generate_key_paths st tree is_leaf).*2
          = fst (tree_flatten st tree is_leaf)) as Heq.
  { by apply generate_key_paths_fuel_leaves. }
  split_and!; [done| |].
  - unfold tree_flatten. rewrite num_leaves_registry_flatten.
    fold (tree_flatten st tree is_leaf). by rewrite <- Heq, length_fmap.
  - done.
Qed.

Lemma generate_key_paths_leaves_witness :
  (generate_key_paths initial
     (PyList [PyDefaultDict None [("b", PyInt 1); ("a", PyInt 2)]; PyNone;
              PyTuple [PyInt 3]]) None).*2
  = fst (tree_flatten initial
     (PyList [PyDefaultDict None [("b", PyInt 1); ("a", PyInt 2)]; PyNone;
              PyTuple [PyInt 3]]) None).
Proof.
  exact (proj1 (generate_key_paths_leaves initial
    (PyList [PyDefaultDict None [("b", PyInt 1); ("a", PyInt 2)]; PyNone;
             PyTuple [PyInt 3]]) None reachable_initial)).
Defined.

(** ** Mapping over trees *)

(** [flatten_up_to] returns one value per leaf of the treedef when the value
    has the treedef as a prefix, and raises the mismatch otherwise. *)
Lemma flatten_up_to_cases r (td : PyTreeDef) (x : pyobj) :
  (exists ls, flatten_up_to r td x = Ok ls /\ length ls = num_leaves td /\
              prefix_of r td x) \/
  (flatten_up_to r td x = Raise (StructureMismatch Diverges) /\
   ~ prefix_of r td x).
Proof.
  revert x. induction td as [|ty aux children IH] using PyTreeDef_Forall_ind;
    intros x.
  { left. exists [x]. split_and!; [done..|constructor]. }
  simpl. destruct (registry_flatten_one_level r x) as [[xs aux']|] eqn:E.
  2:{ right. split; [done|]. inversion 1; congruence. }
  case_decide as Hc.
  2:{ right. split; [done|]. inversion 1 as [|? ? ? ? ? E' Hty Hf]; subst.
      rewrite E in E'. simplify_eq. apply Hc. split_and!; try done.
      symmetry. by eapply Forall2_length. }
  destruct Hc as (Hty & -> & Hlen).
  assert ((exists lss, map2_result (flatten_up_to r) children xs = Ok lss /\
             length (concat lss) = sum_list (num_leaves <$> children) /\
             Forall2 (prefix_of r) children xs) \/
          (map2_result (flatten_up_to r) children xs
             = Raise (StructureMismatch Diverges) /\
           ~ Forall2 (prefix_of r) children xs)) as Hchildren.
  { clear E. revert xs Hlen.
    induction children as [|c children IHc]; intros [|y ys] Hlen; try done.
    { left. exists []. split_and!; [done..|constructor]. }
    apply Forall_cons in IH as [IHhd IHtl]. simpl in Hlen. csimpl.
    destruct (IHhd y) as [(ls & -> & Hls & Hp)|[-> Hnp]].
    - simpl. destruct (IHc IHtl ys) as [(lss & -> & Hlss & Hps)|[-> Hnps]];
        [lia|..]; simpl.
      + left. exists (ls :: lss). simpl. rewrite length_app.
        split_and!; [done|lia|by constructor].
      + right. split; [done|]. by intros [? ?]%Forall2_cons.
    - right. split; [done|]. by intros [? ?]%Forall2_cons. }
  destruct Hchildren as [(lss & -> & Hlss & Hps)|[-> Hnps]]; simpl.
  - left. exists (concat lss). split_and!; [done..|]. by econstructor.
  - right. split; [done|]. inversion 1 as [|? ? ? ? ? E' _ Hf]; subst.
    rewrite E in E'. by simplify_eq.
Qed.

Lemma map_result_flatten_up_to r (td : PyTreeDef) (rest : list pyobj) :
  (exists rls, map_result (flatten_up_to r td) rest = Ok rls /\
     Forall2 (fun x rl => flatten_up_to r td x = Ok rl) rest rls /\
     Forall (fun rl => length rl = num_leaves td) rls /\
     Forall (prefix_of r td) rest) \/
  (map_result (flatten_up_to r td) rest = Raise (StructureMismatch Diverges) /\
   ~ Forall (prefix_of r td) rest).
Proof.
  induction rest as [|x rest IH]; simpl.
  { left. exists []. split_and!; try done; constructor. }
  destruct (flatten_up_to_cases r td x) as [(ls & Hx & Hls & Hp)|[Hx Hnp]];
    rewrite Hx; simpl.
  - destruct IH as [(rls & -> & Hrls & Hlen & Hps)|[-> Hnps]]; simpl.
    + left. exists (ls :: rls). split_and!; try done; by constructor.
    + right. split; [done|]. by intros [? ?]%Forall_cons.
  - right. split; [done|]. by intros [? ?]%Forall_cons.
Qed.

Lemma heads_per_leaf {A} (rest : list (list A)) (n : nat) :
  Forall (fun l => length l = S n) rest ->
  heads rest = Some (per_leaf rest 0).
Proof.
  unfold per_leaf.
  induction 1 as [|l rest Hl _ IH]; csimpl; [done|].
  destruct l as [|x l]; [done|]. by rewrite IH.
Qed.

Lemma per_leaf_tail {A} (rest : list (list A)) (j : nat) :
  per_leaf (tail <$> rest) j = per_leaf rest (S j).
Proof.
  unfold per_leaf. induction rest as [|l rest IH]; csimpl; [done|].
  rewrite IH. by destruct l.
Qed.

(** On lists of one length [zip] produces exactly the per-index tuples. *)
Lemma zip_rows_per_leaf {A} (l : list A) (rest : list (list A)) :
  Forall (fun l' => length l' = length l) rest ->
  zip_rows l rest = per_leaf (l :: rest) <$> seq 0 (length l).
Proof.
  revert rest. induction l as [|x l IH]; intros rest Hrest; [done|].
  change (zip_rows (x :: l) rest) with
    (match heads rest with
     | Some hs => (x :: hs) :: zip_rows l (tail <$> rest)
     | None => []
     end).
  rewrite (heads_per_leaf rest (length l) Hrest).
  change (seq 0 (length (x :: l))) with (0 :: seq 1 (length l)).
  rewrite fmap_cons. f_equal.
  rewrite IH.
  - rewrite <- fmap_S_seq, <- list_fmap_compose. apply list_fmap_ext'.
    intros j _. unfold per_leaf at 1. csimpl.
    fold (per_leaf (tail <$> rest) j). rewrite per_leaf_tail.
    unfold per_leaf. csimpl. done.
  - apply Forall_fmap. eapply Forall_impl; [done|].
    intros [|y l'] Hl; simpl in *; lia.
Qed.

(** C3: [tree_map] flattens [tree], flattens every further tree up to the
    treedef of [tree], applies [f] to the per-leaf tuples in traversal order
    and rewraps the results with the treedef; it raises the structure mismatch
    when a further tree does not have the treedef as a prefix.  The example of
    the docstring evaluates to [[[5, 7, 9], [6, 1, 2]]]. *)
Theorem tree_map_spec st (f : list pyobj -> pyobj) (tree : pyobj)
    (rest : list pyobj) is_leaf :
  let leaves := fst (tree_flatten st tree is_leaf) in
  let treedef := snd (tree_flatten st tree is_leaf) in
  (Forall (prefix_of (default_registry st) treedef) rest ->
     exists rest_leaves out,
       Forall2 (fun r rl =>
                  flatten_up_to (default_registry st) treedef r = Ok rl /\
                  length rl = length leaves) rest rest_leaves /\
       tree_unflatten treedef
         ((fun j => f (per_leaf (leaves :: rest_leaves) j))
            <$> seq 0 (length leaves)) = Ok out /\
       tree_map st f tree rest is_leaf = Ok out) /\
  (~ Forall (prefix_of (default_registry st) treedef) rest ->
     tree_map st f tree rest is_leaf = Raise (StructureMismatch Diverges)) /\
  tree_map st
    (fun xs => match xs with
               | [x; PyList y] => PyList (x :: y)
               | _ => PyNone
               end)
    (PyList [PyInt 5; PyInt 6])
    [PyList [PyList [PyInt 7; PyInt 9]; PyList [PyInt 1; PyInt 2]]] None
  = Ok (PyList [PyList [PyInt 5; PyInt 7; PyInt 9];
                PyList [PyInt 6; PyInt 1; PyInt 2]]).
Proof.
  intros leaves treedef. unfold tree_map.
  destruct (tree_flatten st tree is_leaf) as [leaves' treedef'] eqn:Ef.
  simpl in leaves, treedef. subst leaves treedef.
  assert (num_leaves treedef' = length leaves') as Hn.
  { pose proof (num_leaves_registry_flatten (default_registry st) tree is_leaf)
      as H. unfold tree_flatten in Ef. by rewrite Ef in H. }
  assert (wf_treedef treedef') as Hwf.
  { pose proof (registry_flatten_wf_treedef (default_registry st) tree is_leaf)
      as H. unfold tree_flatten in Ef. by rewrite Ef in H. }
  split_and!; [| |done].
  - intros Hall.
    destruct (map_result_flatten_up_to (default_registry st) treedef' rest)
      as [(rls & -> & Hrls & Hlen & _)|[_ Hn']]; [|done].
    simpl. rewrite zip_rows_per_leaf by (by rewrite <- Hn).
    destruct (treedef_unflatten_spec treedef'
      ((fun xs => f xs) <$> (per_leaf (leaves' :: rls) <$> seq 0 (length leaves')))
      Hwf) as [[out Hout] _].
    { by rewrite !length_fmap, length_seq. }
    exists rls, out. split_and!.
    + apply Forall2_same_length_lookup. split; [by eapply Forall2_length|].
      intros i r rl Hr Hrl. split.
      * by eapply Forall2_lookup_lr in Hrls.
      * rewrite <- Hn. eapply Forall_lookup_1 in Hlen; eauto.
    + unfold tree_unflatten. rewrite <- list_fmap_compose in Hout. exact Hout.
    + done.
  - intros Hnot.
    destruct (map_result_flatten_up_to (default_registry st) treedef' rest)
      as [(rls & _ & _ & _ & Hall)|[-> _]]; done.
Qed.

Lemma tree_map_spec_witness :
  tree_map initial (fun xs => PyTuple xs)
    (PyDict [("b", PyInt 1); ("a", PyInt 2)])
    [PyDict [("a", PyList [PyInt 3]); ("b", PyNone)]] None
  = Ok (PyDict [("a", PyTuple [PyInt 2; PyList [PyInt 3]]);
                ("b", PyTuple [PyInt 1; PyNone])]) /\
  tree_map initial (fun xs => PyTuple xs)
    (PyList [PyInt 1; PyInt 2]) [PyList [PyInt 3]] None
  = Raise (StructureMismatch Diverges).
Proof.
  split.
  - destruct (proj1 (tree_map_spec initial (fun xs => PyTuple xs)
      (PyDict [("b", PyInt 1); ("a", PyInt 2)])
      [PyDict [("a", PyList [PyInt 3]); ("b", PyNone)]] None))
      as (rls & out & _ & _ & Hout).
    + repeat econstructor.
    + rewrite Hout. vm_compute in Hout. by injection Hout as <-.
  - apply (proj1 (proj2 (tree_map_spec initial (fun xs => PyTuple xs)
      (PyList [PyInt 1; PyInt 2]) [PyList [PyInt 3]] None))).
    intros H. apply Forall_cons in H as [H _].
    inversion H as [|? ? ? ? ? E _ Hf]; subst.
    vm_compute in E. simplify_eq.
    apply Forall2_length in Hf. done.
Defined.

(** ** Transposition *)

Lemma omap_fmap_seq {A B} (g : nat -> list A) (f : list A -> option B)
    (h : nat -> option B) (j m : nat) :
  (forall o, f (g o) = h o) -> omap f (g <$> seq j m) = omap h (seq j m).
Proof.
  intros H. revert j. induction m as [|m IH]; intros j; csimpl; [done|].
  by rewrite H, IH.
Qed.

Lemma rows_of_seq {A} (outer_size inner_size : nat) (flat : list A) :
  rows_of outer_size inner_size flat
  = (fun o => take inner_size (drop (o * inner_size) flat)) <$> seq 0 outer_size.
Proof.
  revert flat. induction outer_size as [|m IH]; intros flat; [done|].
  simpl. rewrite drop_0. f_equal.
  rewrite IH, <- fmap_S_seq, <- list_fmap_compose.
  apply list_fmap_ext'. intros o _. simpl. by rewrite drop_drop.
Qed.

Lemma omap_total_length_seq {A} (h : nat -> option A) (j m : nat) :
  (forall o, j <= o < j + m -> is_Some (h o)) -> length (omap h (seq j m)) = m.
Proof.
  intros H. rewrite omap_total_length; [by rewrite length_seq|].
  intros o Ho%elem_of_seq. by apply H.
Qed.

(** The transposed grid: row [i] collects, over the outer positions [o], the
    element [o * inner_size + i] of the flat sequence. *)
Lemma zip_star_rows_of {A} (outer_size inner_size : nat) (flat : list A) :
  length flat = inner_size * outer_size -> 0 < outer_size ->
  zip_star (rows_of outer_size inner_size flat)
  = (fun i => omap (fun o => flat !! (o * inner_size + i)) (seq 0 outer_size))
      <$> seq 0 inner_size.
Proof.
  intros Hlen Hpos.
  assert (Forall (fun row => length row = inner_size)
            (rows_of outer_size inner_size flat)) as Hrows.
  { rewrite rows_of_seq. apply Forall_fmap, Forall_forall.
    intros o Ho%elem_of_seq. simpl.
    rewrite length_take_le; [done|]. rewrite length_drop. nia. }
  assert (forall i, i < inner_size ->
    per_leaf (rows_of outer_size inner_size flat) i
    = omap (fun o => flat !! (o * inner_size + i)) (seq 0 outer_size)) as Hcol.
  { intros i Hi. unfold per_leaf. rewrite rows_of_seq.
    apply omap_fmap_seq. intros o.
    by rewrite lookup_take_lt, lookup_drop by done. }
  destruct (rows_of outer_size inner_size flat) as [|row rows] eqn:E.
  { destruct outer_size; [lia|done]. }
  apply Forall_cons in Hrows as [Hrow Hrows]. simpl.
  rewrite zip_rows_per_leaf by (by rewrite Hrow). rewrite Hrow.
  apply list_fmap_ext'. intros i Hi%elem_of_seq. apply Hcol. lia.
Qed.

(** A successful walk consumed exactly [num_leaves] values. *)
Lemma unflatten_from_ok (td : PyTreeDef) :
  forall leaves t rest, unflatten_from td leaves = Ok (t, rest) ->
  num_leaves td <= length leaves /\ rest = drop (num_leaves td) leaves.
Proof.
  induction td as [|ty aux children IH] using PyTreeDef_Forall_ind;
    intros leaves t rest.
  { destruct leaves; simpl; intros ?; simplify_eq. split; [lia|done]. }
  simpl.
  assert (forall leaves kids rest,
    unflatten_children unflatten_from children leaves = Ok (kids, rest) ->
    sum_list (num_leaves <$> children) <= length leaves /\
    rest = drop (sum_list (num_leaves <$> children)) leaves) as Hchildren.
  { clear t rest leaves.
    induction children as [|c children IHc]; intros leaves kids rest; csimpl.
    { intros ?; simplify_eq. split; [lia|done]. }
    apply Forall_cons in IH as [IHhd IHtl].
    destruct (unflatten_from c leaves) as [[kid leaves']|] eqn:Ec; [|done].
    simpl. apply IHhd in Ec as [Hle ->].
    destruct (unflatten_children unflatten_from children _)
      as [[kids' leaves'']|] eqn:Ecs; [|done].
    simpl. intros ?; simplify_eq.
    apply (IHc IHtl) in Ecs as [Hle' ->]. rewrite length_drop in Hle'.
    split; [lia|]. by rewrite drop_drop. }
  destruct (unflatten_children unflatten_from children leaves)
    as [[kids rest']|] eqn:E; [|done].
  simpl. destruct (from_iter ty aux kids); [|done].
  simpl. intros ?; simplify_eq. by apply Hchildren in E.
Qed.

Lemma treedef_unflatten_ok (td : PyTreeDef) (leaves : list pyobj) t :
  treedef_unflatten td leaves = Ok t -> length leaves = num_leaves td.
Proof.
  unfold treedef_unflatten.
  destruct (unflatten_from td leaves) as [[t' rest]|] eqn:E; [|done].
  simpl. apply unflatten_from_ok in E as [Hle ->].
  destruct (drop (num_leaves td) leaves) eqn:Ed; [|done].
  intros _. apply (f_equal length) in Ed. rewrite length_drop in Ed.
  simpl in Ed. lia.
Qed.

Lemma map_result_Forall2 {A B} (f : A -> result B) (l : list A) (ys : list B) :
  map_result f l = Ok ys <-> Forall2 (fun x y => f x = Ok y) l ys.
Proof.
  revert ys. induction l as [|x l IH]; intros ys; simpl.
  { split; [intros ?; simplify_eq; constructor|by inversion 1]. }
  split.
  - destruct (f x) as [y|] eqn:Ex; [|done]. simpl.
    destruct (map_result f l) as [ys'|] eqn:El; [|done]. simpl.
    intros ?; simplify_eq. constructor; [done|]. by apply IH.
  - inversion 1 as [|? y ? ys' Hx Hl]; subst. rewrite Hx. simpl.
    apply IH in Hl. rewrite Hl. done.
Qed.

Lemma num_leaves_compose (outer inner : PyTreeDef) :
  num_leaves (compose outer inner) = num_leaves outer * num_leaves inner.
Proof.
  induction outer as [|ty aux children IH] using PyTreeDef_Forall_ind; simpl.
  { lia. }
  induction children as [|c children IHc]; csimpl; [done|].
  apply Forall_cons in IH as [-> IHtl]. rewrite IHc by done. lia.
Qed.

(** C6: [tree_transpose] raises the mismatch that names the composed treedef
    unless the tree has [outer * inner] leaves; when it returns, row [i] of
    the result is [outer_treedef] rewrapped around the elements
    [o * inner_size + i] of the flat leaves, and the rows are wrapped with
    [inner_treedef]; with recomposable treedefs and a positive outer size the
    leaf count is all it needs.  The example of the docstring evaluates to
    [([1, 4], [2, 5], [3, 6])], with the inner treedef given or inferred. *)
Theorem tree_transpose_spec st (outer_treedef inner_treedef : PyTreeDef)
    (tree : pyobj) :
  let flat := fst (tree_flatten st tree None) in
  let treedef := snd (tree_flatten st tree None) in
  let inner_size := num_leaves inner_treedef in
  let outer_size := num_leaves outer_treedef in
  (num_leaves treedef <> inner_size * outer_size ->
     tree_transpose st outer_treedef (Some inner_treedef) tree
     = Raise (StructureMismatch
                (Composed treedef (compose outer_treedef inner_treedef)))) /\
  (forall out,
     tree_transpose st outer_treedef (Some inner_treedef) tree = Ok out ->
     num_leaves treedef = inner_size * outer_size /\
     exists rows,
       Forall2 (fun i row =>
                  tree_unflatten outer_treedef
                    (omap (fun o => flat !! (o * inner_size + i))
                          (seq 0 outer_size)) = Ok row)
               (seq 0 inner_size) rows /\
       tree_unflatten inner_treedef rows = Ok out) /\
  (wf_treedef outer_treedef -> wf_treedef inner_treedef -> 0 < outer_size ->
   num_leaves treedef = inner_size * outer_size ->
   exists out,
     tree_transpose st outer_treedef (Some inner_treedef) tree = Ok out) /\
  num_leaves (compose outer_treedef inner_treedef) = outer_size * inner_size /\
  (let outer := tree_structure st (PyList [PyStr "*"; PyStr "*"]) None in
   let inner := tree_structure st (PyTuple [PyStr "*"; PyStr "*"; PyStr "*"]) None in
   let t := PyList [PyTuple [PyInt 1; PyInt 2; PyInt 3];
                    PyTuple [PyInt 4; PyInt 5; PyInt 6]] in
   let expected := PyTuple [PyList [PyInt 1; PyInt 4]; PyList [PyInt 2; PyInt 5];
                            PyList [PyInt 3; PyInt 6]] in
   tree_transpose st outer (Some inner) t = Ok expected /\
   tree_transpose st outer None t = Ok expected).
Proof.
  intros flat treedef inner_size outer_size.
  assert (length flat = num_leaves treedef) as Hflat.
  { symmetry. apply num_leaves_registry_flatten. }
  unfold tree_transpose.
  destruct (tree_flatten st tree None) as [flat' treedef'] eqn:Ef.
  simpl in flat, treedef. subst flat treedef. simpl.
  fold inner_size outer_size.
  split_and!.
  - intros Hne. by rewrite decide_True.
  - intros out. case_decide as Hc; [done|].
    intros Hout. split; [done|].
    destruct (map_result (tree_unflatten outer_treedef)
                (zip_star (rows_of outer_size inner_size flat')))
      as [rows|] eqn:Erows; [|done].
    simpl in Hout. exists rows. split; [|done].
    apply map_result_Forall2 in Erows.
    destruct (decide (0 < outer_size)) as [Hpos|Hzero].
    + rewrite zip_star_rows_of in Erows by lia.
      by apply Forall2_fmap_l in Erows.
    + assert (outer_size = 0) as Ho by lia. rewrite Ho in Erows.
      simpl in Erows. apply Forall2_nil_inv_l in Erows as ->.
      apply treedef_unflatten_ok in Hout. simpl in Hout.
      fold inner_size in Hout. rewrite <- Hout. constructor.
  - intros Hwfo Hwfi Hpos Hcount. rewrite decide_False by lia.
    rewrite zip_star_rows_of by lia.
    assert (exists rows,
      map_result (tree_unflatten outer_treedef)
        ((fun i => omap (fun o => flat' !! (o * inner_size + i))
                        (seq 0 outer_size)) <$> seq 0 inner_size) = Ok rows /\
      length rows = length (seq 0 inner_size)) as (rows & -> & Hrows).
    { assert (forall i, i ∈ seq 0 inner_size -> exists row,
        tree_unflatten outer_treedef
          (omap (fun o => flat' !! (o * inner_size + i)) (seq 0 outer_size))
        = Ok row) as Hrow.
      { intros i Hi%elem_of_seq.
        apply (treedef_unflatten_spec outer_treedef _ Hwfo).
        apply omap_total_length_seq. intros o Ho.
        apply lookup_lt_is_Some. nia. }
      revert Hrow. generalize (seq 0 inner_size) as l.
      induction l as [|i l IH]; intros Hrow; csimpl.
      { by exists []. }
      destruct (Hrow i) as [row ->]; [by left|]. simpl.
      destruct IH as (rows & -> & Hlen).
      { intros j Hj. apply Hrow. by right. }
      simpl. exists (row :: rows). split; [done|].
      simpl. rewrite Hlen. done. }
    rewrite length_seq in Hrows.
    simpl. by apply (treedef_unflatten_spec inner_treedef rows Hwfi).
  - apply num_leaves_compose.
  - done.
  - done.
Qed.

Lemma tree_transpose_spec_witness :
  exists out,
    tree_transpose initial
      (TNode TyList AuxNone [TLeaf; TLeaf]) (Some (TNode TyTuple AuxNone [TLeaf]))
      (PyDict [("x", PyInt 1); ("y", PyInt 2)]) = Ok out.
Proof.
  apply (proj1 (proj2 (proj2 (tree_transpose_spec initial
    (TNode TyList AuxNone [TLeaf; TLeaf]) (TNode TyTuple AuxNone [TLeaf])
    (PyDict [("x", PyInt 1); ("y", PyInt 2)]))))).
  - constructor; [simpl; eauto|repeat constructor].
  - constructor; [simpl; eauto|repeat constructor].
  - simpl. lia.
  - reflexivity.
Defined.

(** ** Structural diagnostics *)

(** A strict leaf treedef is the leaf treedef. *)
Lemma treedef_is_strict_leaf_TLeaf (td : PyTreeDef) :
  treedef_is_strict_leaf td = true <-> td = TLeaf.
Proof.
  unfold treedef_is_strict_leaf. split; [|by intros ->].
  rewrite andb_true_iff, !bool_decide_eq_true. intros [Hn Hl].
  by destruct (single_node_cases td Hn) as [->|(ty & aux & ->)].
Qed.

(** At a call whose prefix tree is a leaf under the predicate it is given,
    [_prefix_error] yields nothing, whatever the full tree is. *)
Lemma _prefix_error_leaf st key_path (prefix_tree full_tree : pyobj) is_leaf :
  treedef_is_strict_leaf (tree_structure st prefix_tree is_leaf) = true ->
  _prefix_error st key_path prefix_tree full_tree is_leaf = gen_done.
Proof. intros H. unfold _prefix_error. simpl. by rewrite H. Qed.

Lemma prefix_errors_leaf st (prefix_tree full_tree : pyobj) is_leaf :
  treedef_is_strict_leaf (tree_structure st prefix_tree is_leaf) = true ->
  prefix_errors st prefix_tree full_tree is_leaf = Ok [].
Proof. intros H. unfold prefix_errors. by rewrite _prefix_error_leaf. Qed.

(** The example of the specification: leaves of the prefix tree stand for
    whole subtrees. *)
Lemma prefix_errors_coarsening st :
  prefix_errors st (PyList [PyInt 1; PyInt 2])
    (PyList [PyList [PyInt 1; PyInt 2]; PyList [PyInt 3; PyInt 4]]) None = Ok [].
Proof. reflexivity. Qed.

Lemma gen_for_ext {A B} (f g : A -> gen B) (l : list A) :
  (forall x, x ∈ l -> f x = g x) -> gen_for f l = gen_for g l.
Proof.
  induction l as [|x l IH]; intros H; simpl; [done|].
  rewrite H by (by left). rewrite IH; [done|].
  intros y Hy. apply H. by right.
Qed.

Lemma elem_of_zip3_mid {A B C} (ks : list A) (xs : list B) (ys : list C) k x y :
  (k, x, y) ∈ zip3 ks xs ys -> x ∈ xs.
Proof.
  unfold zip3. intros H%elem_of_zip_l. by apply elem_of_zip_r in H.
Qed.

Lemma flatten_one_level_Ok st (t : pyobj) children meta :
  flatten_one_level st t = Ok (children, meta) <->
  registry_flatten_one_level (default_registry st) t = Some (children, meta).
Proof.
  unfold flatten_one_level.
  destruct (registry_flatten_one_level _ t) as [[]|]; split; intros ?; by simplify_eq.
Qed.

Lemma _equality_errors_fuel_enough st il (n m : nat) path (t1 t2 : pyobj) :
  depth t1 < n -> depth t1 < m ->
  _equality_errors_fuel st n path t1 t2 il
    = _equality_errors_fuel st m path t1 t2 il.
Proof.
  revert m path t1 t2.
  induction n as [|n IH]; intros [|m] path t1 t2 Hn Hm; try lia.
  simpl. unfold gen_try.
  destruct (flatten_one_level st t1) as [[cs1 meta1]|] eqn:E1;
    repeat case_match; try done.
  apply gen_for_ext. intros [[k c1] c2] Hx.
  apply elem_of_zip3_mid in Hx. apply flatten_one_level_Ok in E1.
  pose proof (one_level_depth _ _ _ _ _ E1 Hx). apply IH; lia.
Qed.

Lemma tree_structure_eq st (t : pyobj) :
  tree_structure st t None =
    match registry_flatten_one_level (default_registry st) t with
    | None => TLeaf
    | Some (children, aux) =>
        TNode (type_of t) aux ((fun c => tree_structure st c None) <$> children)
    end.
Proof.
  unfold tree_structure. rewrite registry_flatten_eq. simpl.
  destruct (registry_flatten_one_level _ t) as [[children aux]|]; [|done].
  simpl. by rewrite <- list_fmap_compose.
Qed.

Lemma treedef_is_strict_leaf_TNode ty aux children :
  treedef_is_strict_leaf (TNode ty aux children) = false.
Proof.
  apply not_true_is_false. by intros H%treedef_is_strict_leaf_TLeaf.
Qed.

Lemma length_sorted_keys (keys : list string) :
  length (sorted_keys keys) = length keys.
Proof. unfold sorted_keys. by rewrite merge_sort_Permutation. Qed.

Lemma length_sorted_items {A} (items : list (string * A)) :
  length (sorted_items items) = length items.
Proof. unfold sorted_items. by rewrite merge_sort_Permutation. Qed.

Ltac solve_length :=
  repeat (rewrite length_fmap || rewrite length_sorted_keys ||
          rewrite length_sorted_items || rewrite length_seq);
  try done; try lia.

Lemma namedtuple_keys (items : list (string * pyobj)) :
  (prod_map GetAttrKey id <$> items).*1 = GetAttrKey <$> items.*1.
Proof.
  rewrite <- !list_fmap_compose. apply list_fmap_ext'. by intros [k v] _.
Qed.

Lemma fst_zip_seq {A B} (f : nat -> A) (l : list B) :
  (zip (f <$> seq 0 (length l)) l).*1 = f <$> seq 0 (length l).
Proof. apply fst_zip. by rewrite length_fmap, length_seq. Qed.

(** The keys of the children of a node depend on its type, its metadata and
    the number of its children only, when the keys of defaultdicts were
    inserted in sorted order. *)
Lemma _child_keys_agree st (t1 t2 : pyobj) cs1 cs2 aux :
  registry_flatten_one_level (default_registry st) t1 = Some (cs1, aux) ->
  registry_flatten_one_level (default_registry st) t2 = Some (cs2, aux) ->
  type_of t1 = type_of t2 -> length cs1 = length cs2 ->
  defaultdict_in_key_order t1 -> defaultdict_in_key_order t2 ->
  exists keys, _child_keys st t1 = Ok keys /\ _child_keys st t2 = Ok keys /\
               length keys = length cs1.
Proof.
  intros E1 E2 Hty Hlen Hd1 Hd2. unfold _child_keys.
  rewrite !tree_structure_eq, E1, E2, !treedef_is_strict_leaf_TNode.
  simpl. rewrite !length_fmap.
  unfold registry_flatten_one_level in E1, E2.
  destruct (registered _ (type_of t1)); [|done].
  destruct (registered _ (type_of t2)); [|done].
  unfold flatten_with_keys.
  destruct t1 as [| | |xs1|xs1|items1|items1|f1 items1|name1 items1|cls1 a1 xs1],
           t2 as [| | |xs2|xs2|items2|items2|f2 items2|name2 items2|cls2 a2 xs2];
    simpl in Hty, E1, E2; try done; simplify_eq; simpl.
  - by exists [].
  - rewrite !fst_zip_seq, <- Hlen. eexists; split_and!; [reflexivity..|].
    by rewrite length_fmap, length_seq.
  - rewrite !fst_zip_seq, <- Hlen. eexists; split_and!; [reflexivity..|].
    by rewrite length_fmap, length_seq.
  - rewrite !fst_zip by solve_length.
    rewrite !sorted_items_keys in *.
    match goal with H : sorted_keys _ = sorted_keys _ |- _ => rewrite H end.
    eexists; split_and!; [reflexivity..|].
    rewrite Hlen. solve_length.
  - rewrite !fst_zip by solve_length.
    match goal with H : items1.*1 = items2.*1 |- _ => rewrite H end.
    eexists; split_and!; [reflexivity..|]. rewrite Hlen. solve_length.
  - unfold _flatten_defaultdict in *. simplify_eq.
    pose proof (_flatten_defaultdict_length f2 items1) as Hl1.
    pose proof (_flatten_defaultdict_length f2 items2) as Hl2.
    unfold _flatten_defaultdict in Hl1, Hl2. simpl in Hl1, Hl2.
    rewrite !fst_zip by (rewrite ?Hl1, ?Hl2; solve_length).
    simpl in Hd1, Hd2.
    assert (items1.*1 = items2.*1) as Hk by congruence.
    exists (DictKey <$> items1.*1). split_and!; [done|by rewrite Hk|].
    rewrite Hl1. solve_length.
  - rewrite !namedtuple_keys. exists (GetAttrKey <$> items2.*1).
    split_and!; [by f_equal; f_equal|done|].
    rewrite !length_fmap in *. lia.
  - destruct (_registry_with_keypaths st !! cls2) as [keys|]; simpl.
    + rewrite !fst_zip_seq, <- Hlen. eexists; split_and!; [reflexivity..|].
      solve_length.
    + rewrite <- Hlen. eexists; split_and!; [reflexivity..|]. solve_length.
Qed.

Lemma one_level_registered r (t : pyobj) :
  registry_flatten_one_level r t = None <-> registered r (type_of t) = false.
Proof.
  unfold registry_flatten_one_level.
  destruct (registered r (type_of t)) eqn:E; [|done].
  destruct (registered_to_iter r t E) as [out ->]. done.
Qed.

Lemma one_level_types_differ r (t1 t2 : pyobj) out :
  registry_flatten_one_level r t1 = None ->
  registry_flatten_one_level r t2 = Some out ->
  type_of t1 <> type_of t2.
Proof.
  intros H1%one_level_registered H2 Heq. rewrite Heq in H1.
  apply one_level_registered in H1. congruence.
Qed.

Lemma one_level_py_len r (t : pyobj) children aux :
  is_list_or_tuple t = true ->
  registry_flatten_one_level r t = Some (children, aux) ->
  length children = py_len t.
Proof.
  unfold registry_flatten_one_level. case_match; [|done].
  destruct t; simpl; try done; intros _ ?; simplify_eq; try done.
  by rewrite length_fmap.
Qed.

Lemma key_ordered_inv (x : pyobj) :
  key_ordered x ->
  defaultdict_in_key_order x /\ forall c, c ∈ sub_objects x -> key_ordered c.
Proof. by inversion 1. Qed.

(** The reports for the children of two nodes, taken pairwise. *)
Lemma gen_for_children {S : Type} (structure : pyobj -> S)
    (errors : KeyPath -> pyobj -> pyobj -> gen (KeyPath * difference))
    (ok : pyobj -> Prop) path (cs1 : list pyobj) :
  (forall c1, c1 ∈ cs1 -> forall c2 p, ok c2 ->
     exists errs, errors p c1 c2 = (errs, None) /\
                  (errs = [] <-> structure c1 = structure c2)) ->
  forall keys cs2, length keys = length cs1 -> length cs1 = length cs2 ->
  Forall ok cs2 ->
  exists errs,
    gen_for (fun '(k, c1, c2) => errors (path ++ [k]) c1 c2)
      (zip3 keys cs1 cs2) = (errs, None) /\
    (errs = [] <-> structure <$> cs1 = structure <$> cs2).
Proof.
  induction cs1 as [|c1 cs1 IH]; intros Hrec keys cs2 Hk Hlen Hok.
  { destruct keys, cs2; try done. by exists []. }
  destruct keys as [|k keys], cs2 as [|c2 cs2]; try done.
  apply Forall_cons in Hok as [Hc2 Hcs2]. simpl in *.
  destruct (Hrec c1) with (c2 := c2) (p := path ++ [k])
    as (errs1 & -> & Hiff1); [by left|done|].
  destruct (IH) with (keys := keys) (cs2 := cs2) as (errs2 & He2 & Hiff2);
    [|lia|lia|done|].
  { intros c Hc. apply Hrec. by right. }
  unfold zip3 in He2. rewrite He2. exists (errs1 ++ errs2).
  split; [done|]. csimpl. split.
  - intros [-> ->]%app_eq_nil. f_equal; [by apply Hiff1|by apply Hiff2].
  - intros ?; simplify_eq.
    rewrite (proj2 Hiff1), (proj2 Hiff2); done.
Qed.

(** When the keys of defaultdicts were inserted in sorted order,
    [_equality_errors] ends normally, and reports nothing exactly when the two
    trees have the same treedef. *)
Lemma _equality_errors_iff st (t1 : pyobj) :
  key_ordered t1 -> forall t2 path, key_ordered t2 ->
  exists errs,
    _equality_errors_fuel st (S (depth t1)) path t1 t2 None = (errs, None) /\
    (errs = [] <-> tree_structure st t1 None = tree_structure st t2 None).
Proof.
  induction t1 as [t1 IH] using pyobj_sub_ind.
  intros [Hd1 Hsub1]%key_ordered_inv t2 path [Hd2 Hsub2]%key_ordered_inv.
  simpl. rewrite (tree_structure_eq st t1), (tree_structure_eq st t2).
  destruct (registry_flatten_one_level _ t1) as [[cs1 aux1]|] eqn:E1;
    destruct (registry_flatten_one_level _ t2) as [[cs2 aux2]|] eqn:E2.
  4:{ exists []. done. }
  3:{ rewrite treedef_is_strict_leaf_TNode. simpl.
      rewrite decide_True by (by eapply one_level_types_differ).
      eexists. split; [done|]. split; done. }
  2:{ rewrite treedef_is_strict_leaf_TNode. simpl.
      rewrite decide_True.
      2:{ intros Heq. symmetry in Heq. revert Heq.
          by eapply one_level_types_differ. }
      eexists. split; [done|]. split; done. }
  rewrite !treedef_is_strict_leaf_TNode. simpl.
  destruct (decide (type_of t1 <> type_of t2)) as [Hty|Hty].
  { eexists. split; [done|]. split; [done|]. intros ?; simplify_eq. }
  apply dec_stable in Hty.
  destruct (is_list_or_tuple t1 && negb (bool_decide (py_len t1 = py_len t2)))
    eqn:Elen.
  { eexists. split; [done|]. split; [done|]. intros Heq. simplify_eq.
    apply andb_true_iff in Elen as [Hl Hne].
    apply negb_true_iff, bool_decide_eq_false in Hne. destruct Hne.
    assert (is_list_or_tuple t2 = true) as Hl2.
    { destruct t1, t2; simpl in *; done. }
    rewrite <- (one_level_py_len _ _ _ _ Hl E1).
    rewrite <- (one_level_py_len _ _ _ _ Hl2 E2).
    match goal with H : _ <$> cs1 = _ <$> cs2 |- _ =>
      apply (f_equal length) in H; rewrite !length_fmap in H; done end. }
  rewrite (proj2 (flatten_one_level_Ok st t1 cs1 aux1) E1).
  rewrite (proj2 (flatten_one_level_Ok st t2 cs2 aux2) E2).
  simpl.
  destruct (_child_keys_agree st t1 t1 cs1 cs1 aux1)
    as (keys1 & Hk1 & _ & Hlen1); try done.
  destruct (_child_keys_agree st t2 t2 cs2 cs2 aux2)
    as (keys2 & Hk2 & _ & Hlen2); try done.
  rewrite Hk1, Hk2. simpl.
  destruct (decide (length cs1 <> length cs2)) as [Hn|Hn].
  { eexists. split; [done|]. split; [done|]. intros Heq. simplify_eq.
    match goal with H : _ <$> cs1 = _ <$> cs2 |- _ =>
      apply (f_equal length) in H; rewrite !length_fmap in H; done end. }
  apply dec_stable in Hn.
  destruct (decide (aux1 <> aux2)) as [Hmeta|Hmeta].
  { eexists. split; [done|]. split; [done|]. intros ?; simplify_eq. }
  apply dec_stable in Hmeta. subst aux2.
  destruct (_child_keys_agree st t1 t2 cs1 cs2 aux1)
    as (keys & Hk1' & Hk2' & _); try done.
  assert (keys1 = keys2) as <- by congruence.
  rewrite decide_False by (by intros []).
  destruct (gen_for_children (fun c => tree_structure st c None)
    (fun p c1 c2 => _equality_errors_fuel st (depth t1) p c1 c2 None)
    key_ordered path cs1) with (keys := keys1) (cs2 := cs2)
    as (errs & -> & Hiff); try done.
  - intros c1 Hc1 c2 p Hc2.
    pose proof (one_level_sub_objects _ _ _ _ E1 c1 Hc1) as Hs.
    pose proof (sub_objects_depth _ _ Hs).
    rewrite (_equality_errors_fuel_enough st None _ (S (depth c1))) by lia.
    apply IH; auto.
  - apply Forall_forall. intros c2 Hc2. apply Hsub2.
    by eapply one_level_sub_objects.
  - exists errs. split; [done|]. rewrite Hiff, Hty. split; [by intros ->|].
    by intros ?; simplify_eq.
Qed.

(** Fuel beyond the depth of the prefix tree does not change the reports of
    [_prefix_error]. *)
Lemma _prefix_error_fuel_enough st il (n m : nat) key_path (t1 t2 : pyobj) :
  depth t1 < n -> depth t1 < m ->
  _prefix_error_fuel st n key_path t1 t2 il
    = _prefix_error_fuel st m key_path t1 t2 il.
Proof.
  revert m key_path t1 t2 il.
  induction n as [|n IH]; intros [|m] key_path t1 t2 il Hn Hm; try lia.
  simpl. unfold gen_try.
  destruct (flatten_one_level st t1) as [[cs1 meta1]|] eqn:E1;
    repeat case_match; try done.
  all: apply gen_for_ext; intros [[k c1] c2] Hx;
    apply elem_of_zip3_mid in Hx; apply flatten_one_level_Ok in E1;
    pose proof (one_level_depth _ _ _ _ _ E1 Hx); apply IH; lia.
Qed.

(** So, apart from defaultdicts filled out of key order, [equality_errors]
    reports nothing exactly for trees of identical structure, and leaf values
    play no part. *)
Lemma equality_errors_same_structure st (t1 t2 : pyobj) :
  key_ordered t1 -> key_ordered t2 ->
  exists errs,
    equality_errors st t1 t2 None = (errs, None) /\
    (errs = [] <-> tree_structure st t1 None = tree_structure st t2 None).
Proof. intros H1 H2. by apply _equality_errors_iff. Qed.

(** C8: the recursive call of [_prefix_error] does not pass [is_leaf] on, so
    a subtree of the prefix tree that the caller's predicate makes a leaf is
    compared as a node below the root: with [is_leaf] true on tuples,
    [[(1, 2)]] is reported not to be a prefix of [[5]], at the position of a
    leaf of the prefix tree.  [_equality_errors] does pass the predicate on. *)
Theorem prefix_errors_nested_is_leaf :
  let is_tuple := fun x => match x with PyTuple _ => true | _ => false end in
  let prefix_tree := PyList [PyTuple [PyInt 1; PyInt 2]] in
  let full_tree := PyList [PyInt 5] in
  tree_flatten initial prefix_tree (Some is_tuple)
    = ([PyTuple [PyInt 1; PyInt 2]], TNode TyList AuxNone [TLeaf]) /\
  generate_key_paths initial prefix_tree (Some is_tuple)
    = [([SequenceKey 0], PyTuple [PyInt 1; PyInt 2])] /\
  prefix_errors initial prefix_tree full_tree (Some is_tuple)
    = Ok [([SequenceKey 0], TypesDiffer TyTuple TyInt)] /\
  equality_errors initial prefix_tree full_tree (Some is_tuple) = ([], None).
Proof. by split_and!. Qed.

(** C7: two [defaultdict]s with the same keys, filled in different orders,
    have the same treedef, but their key handler lists the keys in insertion
    order while the children are in sorted order, so the assertion of
    [_equality_errors] on the child keys fails: the generator ends with an
    [AssertionError], and a structural difference further on is never
    reported. *)
Theorem equality_errors_defaultdict_order :
  let t1 := PyDefaultDict None [("a", PyInt 1); ("b", PyInt 2)] in
  let t2 := PyDefaultDict None [("b", PyInt 2); ("a", PyInt 1)] in
  tree_structure initial t1 None = tree_structure initial t2 None /\
  equality_errors initial t1 t2 None = ([], Some AssertionError) /\
  tree_structure initial (PyList [t1; PyInt 0]) None
    <> tree_structure initial (PyList [t2; PyTuple []]) None /\
  equality_errors initial (PyList [t1; PyInt 0]) (PyList [t2; PyTuple []]) None
    = ([], Some AssertionError).
Proof. by split_and!. Qed.

(** * Further properties *)

(** ** Unflattening is inverted by flattening *)

Lemma StronglySorted_items {A} (z : list (string * A)) :
  StronglySorted key_le (z.*1) -> StronglySorted item_le z.
Proof.
  induction z as [|[k v] z IH]; csimpl; intros H.
  - constructor.
  - inversion H as [|? ? Hs Hk]; subst. constructor; [by apply IH|].
    rewrite Forall_fmap in Hk. eapply Forall_impl; [exact Hk|]. by intros [k' v'].
Qed.

(** Sorting items that are in key order already changes nothing. *)
Lemma sorted_items_id {A} (z : list (string * A)) :
  StronglySorted key_le (z.*1) -> NoDup (z.*1) -> sorted_items z = z.
Proof.
  intros Hs Hnd.
  eapply (StronglySorted_unique_strong item_le).
  - intros [k1 v1] [k2 v2] H1 H2 Hle1 Hle2.
    assert (k1 = k2) as <- by (by apply (anti_symm key_le)).
    rewrite sorted_items_perm in H1. f_equal. by eapply NoDup_fst_inj.
  - apply sorted_items_sorted.
  - by apply StronglySorted_items.
  - apply sorted_items_perm.
Qed.

Lemma sorted_items_zip_sorted (items : list (string * pyobj)) (kids : list pyobj) :
  NoDup (items.*1) -> length kids = length items ->
  let z := zip ((sorted_items items).*1) kids in
  sorted_items z = z /\ z.*1 = (sorted_items items).*1 /\ z.*2 = kids.
Proof.
  intros Hnd Hlen z.
  assert (z.*1 = (sorted_items items).*1) as H1.
  { apply fst_zip. rewrite length_fmap, length_sorted_items. lia. }
  assert (z.*2 = kids) as H2.
  { apply snd_zip. rewrite length_fmap, length_sorted_items. lia. }
  split_and!; [|done..]. apply sorted_items_id; rewrite H1.
  - rewrite sorted_items_keys. apply sorted_keys_sorted.
  - by rewrite sorted_items_perm.
Qed.

(** One level of the converse round trip: decomposing what the recompose
    function built gives back the children and the metadata. *)
Lemma to_iter_from_iter (x : pyobj) children aux (kids : list pyobj) x' :
  keys_unique x -> to_iter x = Some (children, aux) ->
  length kids = length children ->
  from_iter (type_of x) aux kids = Ok x' ->
  to_iter x' = Some (kids, aux) /\ type_of x' = type_of x /\ keys_unique x'.
Proof.
  intros Hu Hx Hlen.
  destruct x as [| | |xs|xs|items|items|f items|name items|cls a xs]; simpl in *;
    try rewrite _flatten_defaultdict_sorted in Hx by done; simplify_eq; simpl.
  - destruct kids; [|done]. intros ?; by simplify_eq.
  - intros ?; by simplify_eq.
  - intros ?; by simplify_eq.
  - rewrite length_fmap, length_sorted_items in Hlen.
    destruct (sorted_items_zip_sorted items kids Hu Hlen) as (Hs & H1 & H2).
    assert (NoDup ((sorted_items items).*1)) as Hnd by (by rewrite sorted_items_perm).
    rewrite dict_of_pairs_NoDup by (by rewrite H1).
    intros ?; simplify_eq. simpl. by rewrite Hs, H1, H2.
  - rewrite length_fmap in Hlen. unfold safe_zip.
    rewrite length_fmap, decide_True by done. simpl.
    rewrite dict_of_pairs_NoDup by (by rewrite zip_items_keys).
    intros ?; simplify_eq. simpl.
    rewrite zip_items_keys by done.
    by rewrite snd_zip by (rewrite length_fmap; lia).
  - rewrite length_fmap, length_sorted_items in Hlen.
    destruct (sorted_items_zip_sorted items kids Hu Hlen) as (Hs & H1 & H2).
    assert (NoDup ((sorted_items items).*1)) as Hnd by (by rewrite sorted_items_perm).
    unfold safe_zip. rewrite length_fmap, length_sorted_items, decide_True by done.
    simpl. rewrite dict_of_pairs_NoDup by (by rewrite H1).
    intros ?; simplify_eq. simpl.
    rewrite _flatten_defaultdict_sorted by (by rewrite H1).
    by rewrite Hs, H1, H2.
  - rewrite length_fmap in Hlen. rewrite length_fmap, decide_True by done.
    intros ?; simplify_eq. simpl. rewrite zip_items_keys by done.
    by rewrite snd_zip by (rewrite length_fmap; lia).
  - intros ?; by simplify_eq.
Qed.

Lemma one_level_to_iter r (x : pyobj) out :
  registry_flatten_one_level r x = Some out <->
  registered r (type_of x) = true /\ to_iter x = Some out.
Proof.
  unfold registry_flatten_one_level.
  destruct (registered r (type_of x)); split; try done.
  - by intros [_ ?].
  - by intros [? _].
Qed.

(** Unflattening any leaves with the treedef of a tree gives a value that
    flattens, up to that treedef, into the leaves given. *)
Lemma unflatten_from_inverse r (t : pyobj) il :
  wf_pyobj t -> forall xs rest,
  length xs = num_leaves (snd (registry_flatten r t il)) ->
  exists out,
    unflatten_from (snd (registry_flatten r t il)) (xs ++ rest) = Ok (out, rest) /\
    flatten_up_to r (snd (registry_flatten r t il)) out = Ok xs /\
    (Forall (fun x => registry_flatten_one_level r x = None) xs ->
     registry_flatten r out None = (xs, snd (registry_flatten r t il))).
Proof.
  induction t as [t IH] using pyobj_sub_ind. intros [Hu Hwf]%wf_pyobj_inv.
  rewrite registry_flatten_eq.
  assert (forall xs rest, length xs = 1 -> exists out,
    unflatten_from TLeaf (xs ++ rest) = Ok (out, rest) /\
    flatten_up_to r TLeaf out = Ok xs /\
    (Forall (fun x => registry_flatten_one_level r x = None) xs ->
     registry_flatten r out None = (xs, TLeaf))) as Hleaf.
  { intros [|x [|? ?]] rest Hlen; try done. exists x. split_and!; [done..|].
    intros Hx%Forall_inv. rewrite registry_flatten_eq. simpl. by rewrite Hx. }
  destruct (leaf_predicate il t); [apply Hleaf|].
  destruct (registry_flatten_one_level r t) as [[children aux]|] eqn:E;
    [|apply Hleaf].
  pose proof (one_level_sub_objects _ _ _ _ E) as Hsub.
  apply one_level_to_iter in E as [Hreg E].
  set (tds := ((fun c => registry_flatten r c il) <$> children).*2).
  assert (forall xs rest, length xs = sum_list (num_leaves <$> tds) ->
    exists kids chunks,
      unflatten_children unflatten_from tds (xs ++ rest) = Ok (kids, rest) /\
      length kids = length children /\
      map2_result (flatten_up_to r) tds kids = Ok chunks /\
      concat chunks = xs /\
      (Forall (fun x => registry_flatten_one_level r x = None) xs ->
       ((fun c => registry_flatten r c None) <$> kids).*1 = chunks /\
       ((fun c => registry_flatten r c None) <$> kids).*2 = tds))
    as Hchildren.
  { subst tds. clear E. induction children as [|c children IHc];
      intros xs rest Hlen; csimpl in *.
    { destruct xs; [|done]. exists [], []. by split_and!. }
    assert (exists xs1 xs2, xs = xs1 ++ xs2 /\
              length xs1 = num_leaves (registry_flatten r c il).2 /\
              length xs2 = sum_list (num_leaves <$>
                ((fun c => registry_flatten r c il) <$> children).*2))
      as (xs1 & xs2 & -> & Hl1 & Hl2).
    { exists (take (num_leaves (registry_flatten r c il).2) xs),
             (drop (num_leaves (registry_flatten r c il).2) xs).
      rewrite take_drop, length_take, length_drop. split_and!; [done|lia..]. }
    destruct (IH c) with (xs := xs1) (rest := xs2 ++ rest)
      as (kid & Hkid & Hup & Hfl);
      [apply Hsub; by left|apply Hwf, Hsub; by left|done|].
    destruct (IHc) with (xs := xs2) (rest := rest)
      as (kids & chunks & Hkids & Hlk & Hups & Hcat & Hfls).
    { intros x Hx. apply Hsub. by right. }
    { done. }
    rewrite <- app_assoc, Hkid. simpl. rewrite Hkids. simpl.
    exists (kid :: kids), (xs1 :: chunks).
    split_and!; [done|simpl; lia| | |].
    - simpl. rewrite Hup. simpl. rewrite Hups. done.
    - simpl. by rewrite Hcat.
    - intros [H1 H2]%Forall_app. csimpl.
      rewrite (Hfl H1). destruct (Hfls H2) as [-> ->]. done. }
  simpl. intros xs rest Hlen. fold tds in Hlen |- *.
  destruct (Hchildren xs rest Hlen) as (kids & chunks & -> & Hlk & Hups & Hcat & Hfls).
  simpl.
  destruct (from_iter_to_iter_arity t children aux kids E Hlk) as [out Hout].
  rewrite Hout. simpl. exists out.
  destruct (to_iter_from_iter t children aux kids out Hu E Hlk Hout)
    as (Hto & Hty & _).
  assert (registry_flatten_one_level r out = Some (kids, aux)) as Eout.
  { apply one_level_to_iter. by rewrite Hty. }
  assert (length tds = length children) as Htds.
  { subst tds. by rewrite !length_fmap. }
  split_and!; [done| |].
  - rewrite Eout, decide_True by (split_and!; [done|done|lia]).
    rewrite Hups. simpl. by rewrite Hcat.
  - intros Hall. rewrite registry_flatten_eq. simpl. rewrite Eout.
    destruct (Hfls Hall) as [-> ->]. by rewrite Hcat, Hty.
Qed.

(** A tree flattened without predicate has only values of unregistered type
    as leaves. *)
Lemma registry_flatten_leaves r (t : pyobj) :
  Forall (fun x => registry_flatten_one_level r x = None)
    (fst (registry_flatten r t None)).
Proof.
  induction t as [t IH] using pyobj_sub_ind.
  rewrite registry_flatten_eq. simpl.
  destruct (registry_flatten_one_level r t) as [[children aux]|] eqn:E.
  2:{ by constructor. }
  simpl. apply Forall_concat, Forall_fmap, Forall_fmap, Forall_forall.
  intros c Hc. apply IH. by eapply one_level_sub_objects.
Qed.

Lemma treedef_unflatten_inverse r (t : pyobj) il (xs : list pyobj) :
  wf_pyobj t -> length xs = num_leaves (snd (registry_flatten r t il)) ->
  exists out,
    treedef_unflatten (snd (registry_flatten r t il)) xs = Ok out /\
    flatten_up_to r (snd (registry_flatten r t il)) out = Ok xs /\
    (Forall (fun x => registered r (type_of x) = false) xs ->
     registry_flatten r out None = (xs, snd (registry_flatten r t il))).
Proof.
  intros Hwf Hlen.
  destruct (unflatten_from_inverse r t il Hwf xs [] Hlen) as (out & Ho & Hup & Hfl).
  exists out. rewrite app_nil_r in Ho. unfold treedef_unflatten. rewrite Ho.
  split_and!; [done..|]. intros Hall. apply Hfl.
  eapply Forall_impl; [exact Hall|]. intros x. apply one_level_registered.
Qed.

(** X1: [tree_unflatten] is inverted by flattening.  With the treedef of any
    tree and as many values as it has leaves, [tree_unflatten] succeeds; the
    result flattens up to the treedef into the values given, and when these
    are of unregistered type [tree_flatten] returns exactly them together
    with the treedef. *)
Theorem tree_flatten_unflatten st (t : pyobj) is_leaf (xs : list pyobj) :
  wf_pyobj t -> length xs = num_leaves (tree_structure st t is_leaf) ->
  exists out,
    tree_unflatten (tree_structure st t is_leaf) xs = Ok out /\
    flatten_up_to (default_registry st) (tree_structure st t is_leaf) out = Ok xs /\
    (Forall (fun x => registered (default_registry st) (type_of x) = false) xs ->
     tree_flatten st out None = (xs, tree_structure st t is_leaf)).
Proof. apply treedef_unflatten_inverse. Qed.

Lemma tree_flatten_unflatten_witness :
  exists out,
    tree_unflatten
      (tree_structure initial (PyDict [("b", PyInt 1); ("a", PyTuple [PyInt 2])]) None)
      [PyStr "x"; PyStr "y"] = Ok out /\
    tree_flatten initial out None
    = ([PyStr "x"; PyStr "y"],
       tree_structure initial (PyDict [("b", PyInt 1); ("a", PyTuple [PyInt 2])]) None).
Proof.
  destruct (tree_flatten_unflatten initial
    (PyDict [("b", PyInt 1); ("a", PyTuple [PyInt 2])]) None [PyStr "x"; PyStr "y"])
    as (out & H1 & _ & H3); [solve_wf_pyobj|reflexivity|].
  exists out. split; [done|]. apply H3. by repeat constructor.
Defined.

(** X2: the result of [tree_map] has the structure of its first argument.
    When [tree_map] returns, the result flattens up to the treedef of [tree]
    into the values of [f] on the zipped per-leaf tuples; when [f] returns
    values of unregistered type the result has exactly the treedef of [tree]
    and these values as leaves.  With no further trees [tree_map] always
    returns. *)
Theorem tree_map_structure st (f : list pyobj -> pyobj) (tree : pyobj)
    (rest : list pyobj) is_leaf :
  wf_pyobj tree ->
  (forall out, tree_map st f tree rest is_leaf = Ok out ->
     exists rest_leaves,
       map_result (flatten_up_to (default_registry st)
                     (tree_structure st tree is_leaf)) rest = Ok rest_leaves /\
       let values := f <$> zip_star (tree_leaves st tree is_leaf :: rest_leaves) in
       flatten_up_to (default_registry st) (tree_structure st tree is_leaf) out
         = Ok values /\
       ((forall xs, registered (default_registry st) (type_of (f xs)) = false) ->
        tree_flatten st out None = (values, tree_structure st tree is_leaf))) /\
  (exists out, tree_map st f tree [] is_leaf = Ok out).
Proof.
  intros Hwf. unfold tree_map, tree_structure, tree_leaves, tree_flatten.
  pose proof (num_leaves_registry_flatten (default_registry st) tree is_leaf) as Hn.
  destruct (registry_flatten (default_registry st) tree is_leaf)
    as [leaves treedef] eqn:Ef. simpl in Hn. simpl.
  assert (treedef = snd (registry_flatten (default_registry st) tree is_leaf))
    as Htd by (by rewrite Ef).
  split.
  - intros out.
    destruct (map_result_flatten_up_to (default_registry st) treedef rest)
      as [(rls & -> & _ & Hlen & _)|[-> _]]; [|done].
    simpl. intros Hout. exists rls. split; [done|].
    pose proof (treedef_unflatten_ok _ _ _ Hout) as Hl.
    rewrite Htd in Hl.
    destruct (treedef_unflatten_inverse (default_registry st) tree is_leaf
      (f <$> zip_rows leaves rls) Hwf Hl) as (out' & Ho' & Hup & Hfl).
    rewrite <- Htd in Ho', Hup, Hfl.
    assert (out' = out) as -> by congruence.
    split; [done|]. intros Hf. apply Hfl.
    apply Forall_fmap, Forall_forall. intros xs _. apply Hf.
  - simpl.
    destruct (treedef_unflatten_spec treedef (f <$> zip_rows leaves []))
      as [Hok _].
    { rewrite Htd. apply registry_flatten_wf_treedef. }
    apply Hok. rewrite zip_rows_per_leaf by constructor.
    by rewrite !length_fmap, length_seq.
Qed.

Lemma tree_map_structure_witness :
  exists out,
    tree_map initial (fun xs => PyStr "leaf") (PyList [PyInt 1; PyTuple [PyInt 2]])
      [] None = Ok out /\
    tree_flatten initial out None
    = ([PyStr "leaf"; PyStr "leaf"],
       tree_structure initial (PyList [PyInt 1; PyTuple [PyInt 2]]) None).
Proof.
  pose proof (tree_map_structure initial (fun xs => PyStr "leaf")
    (PyList [PyInt 1; PyTuple [PyInt 2]]) [] None) as [H1 [out Hout]];
    [solve_wf_pyobj|].
  exists out. split; [done|].
  destruct (H1 out Hout) as (rls & Hr & _ & H3).
  simpl in Hr. injection Hr as <-. by apply H3.
Defined.

(** X3: [_replace_nones] keeps the structure and replaces exactly the
    [None] leaves.  For a sentinel whose type is no node type of the
    none-leaf registry, the call returns a tree that this registry flattens
    into the same treedef, with the sentinel where the input had [None] and
    the other leaves unchanged; so no leaf of the result is [None] unless
    the sentinel is. *)
Theorem _replace_nones_spec st (sentinel tree : pyobj) :
  wf_pyobj tree ->
  registered (none_leaf_registry st) (type_of sentinel) = false ->
  let leaves := fst (registry_flatten (none_leaf_registry st) tree None) in
  let treedef := snd (registry_flatten (none_leaf_registry st) tree None) in
  exists out,
    _replace_nones st sentinel tree = Ok out /\
    registry_flatten (none_leaf_registry st) out None
    = ((fun x => match x with PyNone => sentinel | _ => x end) <$> leaves,
       treedef) /\
    (sentinel <> PyNone ->
     PyNone ∉ fst (registry_flatten (none_leaf_registry st) out None)).
Proof.
  intros Hwf Hs leaves treedef. unfold _replace_nones.
  pose proof (num_leaves_registry_flatten (none_leaf_registry st) tree None) as Hn.
  pose proof (registry_flatten_leaves (none_leaf_registry st) tree) as Hl.
  subst leaves treedef.
  destruct (treedef_unflatten_inverse (none_leaf_registry st) tree None
    ((fun x => match x with PyNone => sentinel | _ => x end)
       <$> fst (registry_flatten (none_leaf_registry st) tree None)) Hwf)
    as (out & Ho & _ & Hfl).
  { by rewrite length_fmap. }
  destruct (registry_flatten (none_leaf_registry st) tree None)
    as [leaves treedef] eqn:Ef. simpl in *.
  exists out. rewrite Ho. split; [done|].
  assert (registry_flatten (none_leaf_registry st) out None
    = ((fun x => match x with PyNone => sentinel | _ => x end) <$> leaves,
       treedef)) as Hout.
  { apply Hfl. apply Forall_fmap. eapply Forall_impl; [exact Hl|].
    intros x Hx. simpl. apply one_level_registered in Hx. by destruct x. }
  split; [done|]. intros Hne. rewrite Hout. simpl.
  intros ([] & Heq & _)%list_elem_of_fmap; done.
Qed.

Lemma _replace_nones_spec_witness :
  exists out,
    _replace_nones initial (PyStr "sentinel")
      (PyList [PyNone; PyInt 1; PyDict [("k", PyNone)]]) = Ok out /\
    PyNone ∉ fst (registry_flatten (none_leaf_registry initial) out None).
Proof.
  destruct (_replace_nones_spec initial (PyStr "sentinel")
    (PyList [PyNone; PyInt 1; PyDict [("k", PyNone)]]))
    as (out & H1 & _ & H3); [solve_wf_pyobj|reflexivity|].
  exists out. split; [done|]. by apply H3.
Defined.

(** ** Broadcasting a prefix tree *)

(** A tree flattens, up to its own treedef, into its own leaves. *)
Lemma flatten_up_to_own r (t : pyobj) il :
  flatten_up_to r (snd (registry_flatten r t il)) t
  = Ok (fst (registry_flatten r t il)).
Proof.
  induction t as [t IH] using pyobj_sub_ind.
  rewrite registry_flatten_eq.
  destruct (leaf_predicate il t); [done|].
  destruct (registry_flatten_one_level r t) as [[children aux]|] eqn:E; [|done].
  simpl. rewrite E. rewrite decide_True
    by (split_and!; [done|done|by rewrite !length_fmap]).
  pose proof (one_level_sub_objects _ _ _ _ E) as Hsub. clear E.
  assert (map2_result (flatten_up_to r)
            (((fun c => registry_flatten r c il) <$> children).*2) children
          = Ok (((fun c => registry_flatten r c il) <$> children).*1)) as ->;
    [|done].
  induction children as [|c children IHc]; csimpl; [done|].
  rewrite IH by (apply Hsub; by left). simpl.
  rewrite IHc; [done|]. intros x Hx. apply Hsub. by right.
Qed.

(** The values [flatten_up_to] returns hold, in order, all the leaves of the
    value it decomposed. *)
Lemma flatten_up_to_leaves r (td : PyTreeDef) :
  forall (x : pyobj) ls, flatten_up_to r td x = Ok ls ->
  concat ((fun s => fst (registry_flatten r s None)) <$> ls)
  = fst (registry_flatten r x None).
Proof.
  induction td as [|ty aux tds IH] using PyTreeDef_Forall_ind; intros x ls.
  { simpl. intros ?; simplify_eq. simpl. by rewrite app_nil_r. }
  simpl. destruct (registry_flatten_one_level r x) as [[xs aux']|] eqn:E; [|done].
  case_decide as Hc; [|done]. destruct Hc as (_ & _ & Hlen).
  destruct (map2_result (flatten_up_to r) tds xs) as [lss|] eqn:Em; [|done].
  simpl. intros ?; simplify_eq.
  rewrite (registry_flatten_eq r x). simpl. rewrite E. simpl.
  rewrite <- list_fmap_compose. clear E. revert xs lss Hlen Em.
  induction tds as [|td tds IHtds]; intros [|y ys] lss Hlen Em; simpl in *;
    simplify_eq; [done|].
  apply Forall_cons in IH as [IHhd IHtl].
  destruct (flatten_up_to r td y) as [l|] eqn:Ey; [|done]. simpl in Em.
  destruct (map2_result (flatten_up_to r) tds ys) as [lss'|] eqn:Eys; [|done].
  simpl in Em. simplify_eq. csimpl.
  rewrite fmap_app, concat_app, (IHhd _ _ Ey), (IHtds IHtl ys lss'); done.
Qed.

Lemma zip_star_pair {A} (l1 l2 : list A) :
  length l1 = length l2 ->
  zip_star [l1; l2] = zip_with (fun a b => [a; b]) l1 l2.
Proof.
  revert l2. induction l1 as [|x l1 IH]; intros [|y l2] Hlen; try done.
  simpl in *. f_equal. apply (IH l2). lia.
Qed.

Lemma sum_list_replicate_counts {A} (count : pyobj -> nat) (xs : list A)
    (ss : list pyobj) :
  length xs = length ss ->
  length (concat (zip_with (fun x s => replicate (count s) x) xs ss))
  = sum_list (count <$> ss).
Proof.
  revert ss. induction xs as [|x xs IH]; intros [|s ss] Hlen; try done.
  csimpl in *. rewrite length_app, length_replicate, IH; [done|lia].
Qed.

Lemma broadcast_leaves st (xs : list pyobj) :
  Forall (fun x => registry_flatten_one_level (default_registry st) x = None) xs ->
  concat (zip_with
    (fun x s => replicate (num_leaves (tree_structure st s None)) x) xs xs) = xs.
Proof.
  induction 1 as [|x xs Hx _ IH]; [done|].
  simpl. rewrite IH. unfold tree_structure.
  rewrite registry_flatten_eq. simpl. by rewrite Hx.
Qed.

(** X4: [broadcast_prefix] repeats every leaf of the prefix tree once per
    leaf of the subtree it stands for.  When the full tree has the treedef of
    the prefix tree as a prefix the call returns, for the leaves [x] of the
    prefix tree and the matching subtrees [s] of the full tree in order,
    [num_leaves(s)] copies of [x]; the result has one entry per leaf of the
    full tree.  A tree broadcast against itself gives its own leaves. *)
Theorem broadcast_prefix_spec st (prefix_tree full_tree : pyobj) is_leaf :
  let treedef := tree_structure st prefix_tree is_leaf in
  (prefix_of (default_registry st) treedef full_tree ->
   exists subtrees,
     flatten_up_to (default_registry st) treedef full_tree = Ok subtrees /\
     broadcast_prefix st prefix_tree full_tree is_leaf
     = Ok (concat (zip_with
             (fun x s => replicate (num_leaves (tree_structure st s None)) x)
             (tree_leaves st prefix_tree is_leaf) subtrees)) /\
     forall result,
       broadcast_prefix st prefix_tree full_tree is_leaf = Ok result ->
       length result = num_leaves (tree_structure st full_tree None)) /\
  broadcast_prefix st full_tree full_tree None
  = Ok (tree_leaves st full_tree None).
Proof.
  assert (forall p f il subtrees,
    flatten_up_to (default_registry st) (tree_structure st p il) f = Ok subtrees ->
    broadcast_prefix st p f il
    = Ok (concat (zip_with
            (fun x s => replicate (num_leaves (tree_structure st s None)) x)
            (tree_leaves st p il) subtrees)) /\
    length (tree_leaves st p il) = length subtrees) as Hrun.
  { intros p f il subtrees Hup.
    unfold broadcast_prefix, tree_structure, tree_leaves, tree_flatten in *.
    pose proof (num_leaves_registry_flatten (default_registry st) p il) as Hn.
    pose proof (registry_flatten_wf_treedef (default_registry st) p il) as Hwf.
    destruct (registry_flatten (default_registry st) p il) as [leaves td].
    simpl in *. rewrite Hup. simpl.
    destruct (flatten_up_to_cases (default_registry st) td f)
      as [(ls & Hls & Hlen & _)|[Hr _]]; [|congruence].
    assert (ls = subtrees) as -> by congruence.
    assert (length leaves = length subtrees) as Hll by lia.
    fold (zip_star [leaves; subtrees]). rewrite zip_star_pair by done.
    destruct (treedef_unflatten_spec td
      ((fun _ => PyNone) <$> zip_with (fun a b => [a; b]) leaves subtrees) Hwf)
      as [[out ->] _].
    { rewrite length_fmap, length_zip_with. lia. }
    simpl. split; [|done]. do 2 f_equal. clear.
    revert subtrees. induction leaves as [|x leaves IH]; intros [|s ss];
      simpl; try done. by rewrite IH. }
  intros treedef. subst treedef. split_and!.
  - intros Hp.
    destruct (flatten_up_to_cases (default_registry st)
      (tree_structure st prefix_tree is_leaf) full_tree)
      as [(subtrees & Hup & _ & _)|[_ Hn]]; [|done].
    destruct (Hrun _ _ _ _ Hup) as [Hb Hlen].
    exists subtrees. split_and!; [done..|].
    intros result Hres. rewrite Hb in Hres. simplify_eq.
    rewrite (sum_list_replicate_counts
      (fun s => num_leaves (tree_structure st s None))) by done.
    unfold tree_structure.
    rewrite num_leaves_registry_flatten.
    rewrite <- (flatten_up_to_leaves _ _ _ _ Hup).
    rewrite length_concat, <- list_fmap_compose. f_equal.
    apply list_fmap_ext'. intros s _. simpl.
    apply num_leaves_registry_flatten.
  - pose proof (flatten_up_to_own (default_registry st) full_tree None) as Hown.
    destruct (Hrun full_tree full_tree None _ Hown) as [-> _]. f_equal.
    apply broadcast_leaves, registry_flatten_leaves.
Qed.

Lemma broadcast_prefix_spec_witness :
  broadcast_prefix initial (PyList [PyInt 1; PyInt 2])
    (PyList [PyTuple [PyInt 3; PyInt 4; PyInt 5]; PyDict []]) None
  = Ok [PyInt 1; PyInt 1; PyInt 1].
Proof.
  destruct (proj1 (broadcast_prefix_spec initial (PyList [PyInt 1; PyInt 2])
    (PyList [PyTuple [PyInt 3; PyInt 4; PyInt 5]; PyDict []]) None))
    as (subtrees & Hup & Hb & _).
  - repeat econstructor.
  - rewrite Hb. vm_compute in Hup. by injection Hup as <-.
Defined.

(** ** Prefix diagnostics agree with flattening up to a treedef *)

Lemma gen_for_children_rel
    (errors : KeyPath -> pyobj -> pyobj -> gen (KeyPath * difference))
    (R : pyobj -> pyobj -> Prop) (ok : pyobj -> Prop) path (cs1 : list pyobj) :
  (forall c1, c1 ∈ cs1 -> forall c2 p, ok c2 ->
     exists errs, errors p c1 c2 = (errs, None) /\ (errs = [] <-> R c1 c2)) ->
  forall keys cs2, length keys = length cs1 -> length cs1 = length cs2 ->
  Forall ok cs2 ->
  exists errs,
    gen_for (fun '(k, c1, c2) => errors (path ++ [k]) c1 c2)
      (zip3 keys cs1 cs2) = (errs, None) /\
    (errs = [] <-> Forall2 R cs1 cs2).
Proof.
  induction cs1 as [|c1 cs1 IH]; intros Hrec keys cs2 Hk Hlen Hok.
  { destruct keys, cs2; try done. exists []. split; [done|].
    split; [constructor|done]. }
  destruct keys as [|k keys], cs2 as [|c2 cs2]; try done.
  apply Forall_cons in Hok as [Hc2 Hcs2]. simpl in *.
  destruct (Hrec c1) with (c2 := c2) (p := path ++ [k])
    as (errs1 & -> & Hiff1); [by left|done|].
  destruct (IH) with (keys := keys) (cs2 := cs2) as (errs2 & He2 & Hiff2);
    [|lia|lia|done|].
  { intros c Hc. apply Hrec. by right. }
  unfold zip3 in He2. rewrite He2. exists (errs1 ++ errs2).
  split; [done|]. split.
  - intros [-> ->]%app_eq_nil. constructor; [by apply Hiff1|by apply Hiff2].
  - intros [H1 H2]%Forall2_cons.
    rewrite (proj2 Hiff1), (proj2 Hiff2); done.
Qed.

Lemma _prefix_error_iff st (p : pyobj) :
  key_ordered p -> forall f key_path, key_ordered f ->
  exists errs,
    _prefix_error_fuel st (S (depth p)) key_path p f None = (errs, None) /\
    (errs = [] <->
     prefix_of (default_registry st) (tree_structure st p None) f).
Proof.
  induction p as [p IH] using pyobj_sub_ind.
  intros [Hd1 Hsub1]%key_ordered_inv f path [Hd2 Hsub2]%key_ordered_inv.
  simpl. rewrite (tree_structure_eq st p).
  destruct (registry_flatten_one_level _ p) as [[cs1 aux1]|] eqn:E1.
  2:{ exists []. split; [done|]. split; [constructor|done]. }
  rewrite treedef_is_strict_leaf_TNode.
  destruct (decide (type_of p <> type_of f)) as [Hty|Hty].
  { eexists. split; [done|]. split; [done|].
    inversion 1; subst. by destruct Hty. }
  apply dec_stable in Hty.
  destruct (registry_flatten_one_level (default_registry st) f)
    as [[cs2 aux2]|] eqn:E2.
  2:{ apply one_level_registered in E2. rewrite <- Hty in E2.
      apply one_level_registered in E2. congruence. }
  rewrite (proj2 (flatten_one_level_Ok st p cs1 aux1) E1).
  rewrite (proj2 (flatten_one_level_Ok st f cs2 aux2) E2).
  simpl.
  destruct (_child_keys_agree st p p cs1 cs1 aux1)
    as (keys1 & Hk1 & _ & Hlen1); try done.
  destruct (_child_keys_agree st f f cs2 cs2 aux2)
    as (keys2 & Hk2 & _ & Hlen2); try done.
  rewrite Hk1, Hk2. simpl.
  assert (forall P : Prop,
    prefix_of (default_registry st)
      (TNode (type_of p) aux1 ((fun c => tree_structure st c None) <$> cs1)) f ->
    (aux2 = aux1 -> length cs1 = length cs2 ->
     Forall2 (fun c1 c2 =>
       prefix_of (default_registry st) (tree_structure st c1 None) c2) cs1 cs2 ->
     P) -> P) as Hinv.
  { intros P Hp HP. inversion Hp as [|? ? ? ? ? E' _ Hf]; subst.
    rewrite E2 in E'. simplify_eq. rewrite Forall2_fmap_l in Hf.
    apply HP; [done| |exact Hf]. by eapply Forall2_length. }
  assert (length cs1 = length cs2 ->
    exists errs,
      (if decide (aux1 <> aux2)
       then gen_yield (path, MetadataDiffer (type_of p) aux1 aux2)
       else if decide (keys1 <> keys2) then gen_raise AssertionError
       else gen_for
              (fun '(k, t1, t2) =>
                 _prefix_error_fuel st (depth p) (path ++ [k]) t1 t2 None)
              (zip3 keys1 cs1 cs2)) = (errs, None) /\
      (errs = [] <->
       prefix_of (default_registry st)
         (TNode (type_of p) aux1 ((fun c => tree_structure st c None) <$> cs1))
         f)) as Hcont.
  { intros Hn.
    destruct (decide (aux1 <> aux2)) as [Hmeta|Hmeta].
    { eexists. split; [done|]. split; [done|].
      intros Hp. apply (Hinv _ Hp). intros -> _ _. by destruct Hmeta. }
    apply dec_stable in Hmeta. subst aux2.
    destruct (_child_keys_agree st p f cs1 cs2 aux1)
      as (keys & Hk1' & Hk2' & _); try done.
    assert (keys1 = keys2) as <- by congruence.
    rewrite decide_False by (by intros []).
    destruct (gen_for_children_rel
      (fun kp c1 c2 => _prefix_error_fuel st (depth p) kp c1 c2 None)
      (fun c1 c2 => prefix_of (default_registry st) (tree_structure st c1 None) c2)
      key_ordered path cs1) with (keys := keys1) (cs2 := cs2)
      as (errs & -> & Hiff); try done.
    - intros c1 Hc1 c2 kp Hc2.
      pose proof (one_level_sub_objects _ _ _ _ E1 c1 Hc1) as Hs.
      pose proof (sub_objects_depth _ _ Hs).
      rewrite (_prefix_error_fuel_enough st None _ (S (depth c1))) by lia.
      apply IH; auto.
    - apply Forall_forall. intros c2 Hc2. apply Hsub2.
      by eapply one_level_sub_objects.
    - exists errs. split; [done|]. rewrite Hiff. split.
      + intros Hf. econstructor; [done..|]. rewrite Forall2_fmap_l. exact Hf.
      + intros Hp. apply (Hinv _ Hp). auto. }
  destruct (is_list_or_tuple p) eqn:Elt.
  - assert (is_list_or_tuple f = true) as Elt2.
    { destruct p, f; simpl in *; done. }
    pose proof (one_level_py_len _ _ _ _ Elt E1) as Hl1.
    pose proof (one_level_py_len _ _ _ _ Elt2 E2) as Hl2.
    destruct (decide (py_len p <> py_len f)) as [Hlen|Hlen].
    { eexists. split; [done|]. split; [done|].
      intros Hp. apply (Hinv _ Hp). intros _ Hn _. destruct Hlen. congruence. }
    apply dec_stable in Hlen. apply Hcont. congruence.
  - destruct (decide (length cs1 <> length cs2)) as [Hlen|Hlen].
    { eexists. split; [done|]. split; [done|].
      intros Hp. apply (Hinv _ Hp). intros _ Hn _. by destruct Hlen. }
    apply dec_stable in Hlen. by apply Hcont.
Qed.

Ltac solve_key_ordered :=
  repeat (constructor;
          [simpl; try done
          |simpl; let c := fresh "c" in let Hc := fresh "Hc" in
           intros c Hc;
           repeat (apply elem_of_cons in Hc as [->|Hc]);
           try (by apply elem_of_nil in Hc)]).

(** X5: without predicate, and with the keys of defaultdicts inserted in
    sorted order, [prefix_errors] never raises and reports nothing exactly
    when the full tree has the treedef of the prefix tree as a prefix; and
    when it reports nothing, flattening the full tree up to that treedef (as
    [tree_map] and [broadcast_prefix] do) succeeds. *)
Theorem prefix_errors_iff st (prefix_tree full_tree : pyobj) :
  key_ordered prefix_tree -> key_ordered full_tree ->
  exists errs,
    prefix_errors st prefix_tree full_tree None = Ok errs /\
    (errs = [] <->
     prefix_of (default_registry st) (tree_structure st prefix_tree None)
       full_tree) /\
    (errs = [] ->
     exists subtrees,
       flatten_up_to (default_registry st) (tree_structure st prefix_tree None)
         full_tree = Ok subtrees).
Proof.
  intros Hp Hf.
  destruct (_prefix_error_iff st prefix_tree Hp full_tree [] Hf)
    as (errs & He & Hiff).
  exists errs. unfold prefix_errors, _prefix_error. rewrite He.
  split_and!; [done..|]. rewrite Hiff.
  destruct (flatten_up_to_cases (default_registry st)
    (tree_structure st prefix_tree None) full_tree)
    as [(ls & Hls & _ & Hpre)|[Hr Hn]]; [eauto|done].
Qed.

Lemma prefix_errors_iff_witness :
  prefix_errors initial (PyDict [("a", PyInt 1); ("b", PyNone)])
    (PyDict [("b", PyNone); ("a", PyList [PyInt 2; PyInt 3])]) None = Ok [].
Proof.
  destruct (prefix_errors_iff initial (PyDict [("a", PyInt 1); ("b", PyNone)])
    (PyDict [("b", PyNone); ("a", PyList [PyInt 2; PyInt 3])]))
    as (errs & -> & Hiff & _); [solve_key_ordered..|].
  f_equal. apply Hiff. vm_compute.
  eapply prefix_of_node; [reflexivity..|].
  repeat first [apply Forall2_cons_2|apply Forall2_nil_2|apply prefix_of_leaf].
  by eapply prefix_of_node; [reflexivity..|constructor].
Defined.

(** ** Registration *)

(** X7: the registration functions keep the tables aligned.  In every state
    reached by registration calls a type other than [NoneType] is a node type
    of all three registries or of none; [None] is a node for the default and
    the dispatch registry and a leaf for the none-leaf registry; the Python
    table [_registry] lists exactly the registered classes, and every class
    with a key handler is among them. *)
Theorem registries_aligned st :
  reachable st ->
  (forall ty, ty <> TyNoneType ->
     registered (none_leaf_registry st) ty = registered (default_registry st) ty /\
     registered (dispatch_registry st) ty = registered (default_registry st) ty) /\
  (registered (default_registry st) TyNoneType = true /\
   registered (none_leaf_registry st) TyNoneType = false /\
   registered (dispatch_registry st) TyNoneType = true) /\
  (forall cls, cls ∈ _registry st <-> cls ∈ custom_nodes (default_registry st)) /\
  (forall cls, is_Some (_registry_with_keypaths st !! cls) -> cls ∈ _registry st).
Proof.
  intros Hst.
  assert (enable_none (default_registry st) = true /\
          enable_none (none_leaf_registry st) = false /\
          enable_none (dispatch_registry st) = true /\
          custom_nodes (none_leaf_registry st) = custom_nodes (default_registry st) /\
          custom_nodes (dispatch_registry st) = custom_nodes (default_registry st) /\
          _registry st = custom_nodes (default_registry st) /\
          (forall cls, is_Some (_registry_with_keypaths st !! cls) ->
                       cls ∈ _registry st)) as (H1 & H2 & H3 & H4 & H5 & H6 & H7).
  { induction Hst as [|st cls _ (H1 & H2 & H3 & H4 & H5 & H6 & H7)
                      |st cls keys _ (H1 & H2 & H3 & H4 & H5 & H6 & H7)].
    - split_and!; try done. intros cls [keys H]. simpl in H.
      by rewrite lookup_empty in H.
    - simpl. split_and!; try done; try congruence.
      intros c Hc. apply elem_of_union. right. by apply H7.
    - simpl. split_and!; try done; try congruence.
      intros c Hc. apply elem_of_union.
      destruct (decide (cls = c)) as [->|Hne]; [left; by apply elem_of_singleton|].
      rewrite lookup_insert_ne in Hc by done. right. by apply H7. }
  split_and!; try done.
  - intros ty Hty. destruct ty; simpl; try done; by rewrite ?H4, ?H5.
  - intros cls. by rewrite H6.
Qed.

Lemma registries_aligned_witness :
  registered
    (none_leaf_registry
       (register_pytree_with_keys "Point" (fun _ => GetAttrKey "x") initial))
    (TyClass "Point") = true.
Proof.
  pose proof (registries_aligned
    (register_pytree_with_keys "Point" (fun _ => GetAttrKey "x") initial)
    (reachable_with_keys _ _ _ reachable_initial)) as (H & _).
  destruct (H (TyClass "Point")) as [-> _]; [done|]. reflexivity.
Defined.

Lemma registered_register_node cls r ty :
  ty <> TyClass cls -> registered (register_node cls r) ty = registered r ty.
Proof.
  intros Hne. destruct ty as [| | | | | | | | |c]; simpl; try done.
  apply bool_decide_ext. rewrite elem_of_union, elem_of_singleton.
  split; [|by right]. intros [->|?]; done.
Qed.

Lemma free_of_inv cls (x : pyobj) :
  free_of cls x ->
  type_of x <> TyClass cls /\ forall c, c ∈ sub_objects x -> free_of cls c.
Proof. by inversion 1. Qed.

Lemma registry_flatten_register_node cls r (t : pyobj) il :
  free_of cls t ->
  registry_flatten (register_node cls r) t il = registry_flatten r t il.
Proof.
  induction t as [t IH] using pyobj_sub_ind. intros [Hty Hsub]%free_of_inv.
  rewrite !(registry_flatten_eq _ t).
  destruct (leaf_predicate il t); [done|].
  unfold registry_flatten_one_level. rewrite registered_register_node by done.
  destruct (registered r (type_of t)); [|done].
  destruct (to_iter t) as [[children aux]|] eqn:E; [|done].
  simpl. assert ((fun c => registry_flatten (register_node cls r) c il) <$> children
    = (fun c => registry_flatten r c il) <$> children) as ->; [|done].
  apply list_fmap_ext'. intros c Hc.
  pose proof (to_iter_sub_objects _ _ _ E c Hc). apply IH; auto.
Qed.

(** X8: what a registration changes.  An instance of a class is a single
    leaf while the class is unregistered, and after [register_pytree_node] it
    is a node with its children flattened in order and its metadata in the
    treedef; the flattening of trees in which the class does not occur is
    unchanged by the registration. *)
Theorem register_pytree_node_effect st cls aux (kids : list pyobj) is_leaf :
  leaf_predicate is_leaf (PyObject cls aux kids) = false ->
  (cls ∉ custom_nodes (default_registry st) ->
   tree_flatten st (PyObject cls aux kids) is_leaf
   = ([PyObject cls aux kids], TLeaf)) /\
  (let st' := register_pytree_node cls st in
   tree_flatten st' (PyObject cls aux kids) is_leaf
   = (concat ((fun c => fst (tree_flatten st' c is_leaf)) <$> kids),
      TNode (TyClass cls) aux
        ((fun c => snd (tree_flatten st' c is_leaf)) <$> kids))) /\
  (forall t, free_of cls t ->
     tree_flatten (register_pytree_node cls st) t is_leaf
     = tree_flatten st t is_leaf).
Proof.
  intros Hl. unfold tree_flatten. split_and!.
  - intros Hn. rewrite registry_flatten_eq, Hl.
    unfold registry_flatten_one_level. simpl.
    by rewrite bool_decide_eq_false_2.
  - simpl. rewrite registry_flatten_eq, Hl.
    unfold registry_flatten_one_level. simpl.
    rewrite bool_decide_eq_true_2
      by (apply elem_of_union; left; by apply elem_of_singleton).
    simpl. by rewrite <- !list_fmap_compose.
  - intros t Ht. simpl. by apply registry_flatten_register_node.
Qed.

Lemma register_pytree_node_effect_witness :
  tree_flatten initial (PyObject "Box" (AuxInt 3) [PyInt 1; PyInt 2]) None
  = ([PyObject "Box" (AuxInt 3) [PyInt 1; PyInt 2]], TLeaf) /\
  tree_flatten (register_pytree_node "Box" initial)
    (PyList [PyInt 1; PyObject "Other" AuxNone []]) None
  = tree_flatten initial (PyList [PyInt 1; PyObject "Other" AuxNone []]) None.
Proof.
  destruct (register_pytree_node_effect initial "Box" (AuxInt 3)
    [PyInt 1; PyInt 2] None eq_refl) as (H1 & _ & H3).
  split.
  - apply H1. apply not_elem_of_empty.
  - apply H3. repeat (constructor;
      [done|simpl; intros c Hc;
            repeat (apply elem_of_cons in Hc as [->|Hc]);
            try (by apply elem_of_nil in Hc)]).
Defined.

(** ** Folding over the leaves *)

Lemma fold_left_concat {A B} (f : B -> A -> B) (ls : list (list A)) (b : B) :
  fold_left f (concat ls) b = fold_left (fun acc l => fold_left f l acc) ls b.
Proof.
  revert b. induction ls as [|l ls IH]; intros b; simpl; [done|].
  by rewrite fold_left_app, IH.
Qed.

Lemma fold_left_fmap {A B C} (g : A -> B) (f : C -> B -> C) (l : list A) (c : C) :
  fold_left f (g <$> l) c = fold_left (fun acc x => f acc (g x)) l c.
Proof. revert c. induction l as [|x l IH]; intros c; simpl; [done|]. by rewrite IH. Qed.

Lemma tree_leaves_node st (t : pyobj) children aux il :
  leaf_predicate il t = false ->
  flatten_one_level st t = Ok (children, aux) ->
  tree_leaves st t il = concat ((fun c => tree_leaves st c il) <$> children) /\
  tree_structure st t il
  = TNode (type_of t) aux ((fun c => tree_structure st c il) <$> children).
Proof.
  intros Hl E%flatten_one_level_Ok. unfold tree_leaves, tree_structure.
  rewrite (registry_flatten_eq _ t), Hl, E. simpl.
  by rewrite <- !list_fmap_compose.
Qed.

(** X9: [tree_reduce] folds child by child.  With an initializer the result
    is the left fold over the leaves, which for a node is the fold, from left
    to right over its children, of reducing each child from the value
    accumulated so far; without initializer the call fails exactly for trees
    without leaves, and with one such a tree reduces to the initializer. *)
Theorem tree_reduce_spec st (function : pyobj -> pyobj -> pyobj) (tree : pyobj)
    (initializer : pyobj) is_leaf :
  (forall children aux,
     leaf_predicate is_leaf tree = false ->
     flatten_one_level st tree = Ok (children, aux) ->
     tree_reduce st function tree (Some initializer) is_leaf
     = Some (fold_left
               (fun acc c =>
                  default acc (tree_reduce st function c (Some acc) is_leaf))
               children initializer)) /\
  (tree_reduce st function tree None is_leaf = None <->
   num_leaves (tree_structure st tree is_leaf) = 0) /\
  (num_leaves (tree_structure st tree is_leaf) = 0 ->
   tree_reduce st function tree (Some initializer) is_leaf = Some initializer).
Proof.
  assert (num_leaves (tree_structure st tree is_leaf) = 0 <->
          tree_leaves st tree is_leaf = []) as Hzero.
  { unfold tree_structure, tree_leaves.
    rewrite num_leaves_registry_flatten. apply length_zero_iff_nil. }
  split_and!.
  - intros children aux Hl E. unfold tree_reduce.
    destruct (tree_leaves_node st tree children aux is_leaf Hl E) as [-> _].
    simpl. by rewrite fold_left_concat, fold_left_fmap.
  - rewrite Hzero. unfold tree_reduce.
    destruct (tree_leaves st tree is_leaf); simpl; split; done.
  - intros H%Hzero. unfold tree_reduce. by rewrite H.
Qed.

(** X10: [tree_all] is the conjunction over the children.  A value of
    unregistered type is tested itself; a node holds when all its children
    do, so a tree without leaves, such as [None] or an empty container,
    holds. *)
Theorem tree_all_spec st (truth : pyobj -> bool) (tree : pyobj) :
  (registered (default_registry st) (type_of tree) = false ->
   tree_all st truth tree = truth tree) /\
  (forall children aux,
     flatten_one_level st tree = Ok (children, aux) ->
     tree_all st truth tree = forallb (tree_all st truth) children) /\
  (num_leaves (tree_structure st tree None) = 0 -> tree_all st truth tree = true).
Proof.
  unfold tree_all. split_and!.
  - intros H. unfold tree_leaves.
    change (registry_flatten (default_registry st) tree None)
      with (tree_flatten st tree None).
    rewrite (tree_flatten_unregistered st tree None H). simpl.
    by rewrite andb_true_r.
  - intros children aux E.
    destruct (tree_leaves_node st tree children aux None eq_refl E) as [-> _].
    clear E. induction children as [|c children IH]; csimpl; [done|].
    by rewrite forallb_app, IH.
  - unfold tree_structure, tree_leaves.
    rewrite num_leaves_registry_flatten. intros H%length_zero_iff_nil.
    by rewrite H.
Qed.

Lemma tree_all_spec_witness :
  tree_all initial (fun _ => false) (PyList [PyNone; PyTuple []; PyDict []])
  = true.
Proof.
  apply (proj2 (proj2 (tree_all_spec initial (fun _ => false)
    (PyList [PyNone; PyTuple []; PyDict []])))).
  reflexivity.
Defined.

Lemma tree_reduce_spec_witness :
  tree_reduce initial (fun a b => PyTuple [a; b])
    (PyList [PyInt 1; PyTuple [PyInt 2; PyInt 3]]) (Some (PyInt 0)) None
  = Some (PyTuple [PyTuple [PyTuple [PyInt 0; PyInt 1]; PyInt 2]; PyInt 3]).
Proof.
  rewrite (proj1 (tree_reduce_spec initial (fun a b => PyTuple [a; b])
    (PyList [PyInt 1; PyTuple [PyInt 2; PyInt 3]]) (PyInt 0) None)
    [PyInt 1; PyTuple [PyInt 2; PyInt 3]] AuxNone eq_refl eq_refl).
  reflexivity.
Defined.


(** ** Key paths *)

Lemma zip_fmap_fst_snd {A B C} (f : A -> C) (l : list (A * B)) :
  zip (f <$> l.*1) (l.*2) = prod_map f id <$> l.
Proof. induction l as [|[a b] l IH]; csimpl; [done|]. by rewrite IH. Qed.

Lemma elem_of_zip_seq {A B} (f : nat -> A) (l : list B) k c :
  (k, c) ∈ zip (f <$> seq 0 (length l)) l -> exists i, k = f i /\ l !! i = Some c.
Proof.
  intros [i Hi]%list_elem_of_lookup. exists i.
  apply lookup_zip_with_Some in Hi as (k' & c' & Heq & Hk & Hc).
  simplify_eq. split; [|done].
  rewrite list_lookup_fmap in Hk.
  destruct (seq 0 (length l) !! i) as [j|] eqn:Ej; simplify_eq/=.
  apply lookup_seq in Ej as [-> _]. done.
Qed.

Lemma NoDup_fst_zip {A B} (ks : list A) (cs : list B) :
  NoDup ks -> NoDup (zip ks cs).*1.
Proof.
  intros Hks. revert cs. induction Hks as [|k ks Hk _ IH]; intros [|c cs]; csimpl;
    try by constructor.
  constructor; [|by apply IH].
  intros ([k' c'] & -> & Hin)%list_elem_of_fmap. simpl in Hk.
  apply Hk. eapply elem_of_zip_l. exact Hin.
Qed.

Lemma elem_of_concat {A} (x : A) (ls : list (list A)) :
  x ∈ concat ls <-> exists l, x ∈ l /\ l ∈ ls.
Proof.
  induction ls as [|l ls IH]; simpl.
  - split; [by intros ?%elem_of_nil|]. by intros (l & _ & ?%elem_of_nil).
  - rewrite elem_of_app, IH. split.
    + intros [?|(l' & ? & ?)]; [exists l|exists l']; split; try done;
        apply elem_of_cons; auto.
    + intros (l' & ? & [->|?]%elem_of_cons); [by left|right; eauto].
Qed.

(** The key the handler pairs with a child names that child, for values
    other than instances of classes with a key handler of their own. *)
Lemma flatten_with_keys_key_child st (t : pyobj) kcs k c :
  keys_unique t -> defaultdict_in_key_order t ->
  (forall cls, type_of t = TyClass cls -> _registry_with_keypaths st !! cls = None) ->
  flatten_with_keys st t = Some kcs -> (k, c) ∈ kcs -> key_child k t = Some c.
Proof.
  intros Hu Ho Hc E Hin.
  assert (forall items : list (string * pyobj),
    NoDup (items.*1) -> forall s, s ⊆ items ->
    (k, c) ∈ zip (DictKey <$> s.*1) (s.*2) ->
    exists key, k = DictKey key /\ dict_getitem key items = Some c) as Hdict.
  { intros items Hnd s Hs. rewrite zip_fmap_fst_snd.
    intros ([key v] & Heq & Hkv)%list_elem_of_fmap. simplify_eq/=.
    exists key. split; [done|]. apply dict_getitem_NoDup; [done|]. by apply Hs. }
  destruct t; simpl in E, Hu, Ho; simplify_eq/=.
  - apply elem_of_zip_seq in Hin as (i & -> & ?). done.
  - apply elem_of_zip_seq in Hin as (i & -> & ?). done.
  - rewrite <- sorted_items_keys in Hin.
    destruct (Hdict items Hu (sorted_items items)) as (key & -> & ?); [|done..].
    intros x. by rewrite sorted_items_perm.
  - destruct (Hdict items Hu items) as (key & -> & ?); done.
  - assert (sorted_items items ⊆ items) as Hsub
      by (intros x; by rewrite sorted_items_perm).
    rewrite <- sorted_items_keys in Ho, Hin.
    rewrite omap_dict_getitem in Hin by done. rewrite Ho in Hin.
    destruct (Hdict items Hu (sorted_items items)) as (key & -> & ?); [|done..].
    intros x. by rewrite sorted_items_perm.
  - rewrite (Hc cls eq_refl) in E. done.
Qed.

Lemma namedtuple_fields_key_child (t : pyobj) kcs k c :
  keys_unique t -> namedtuple_fields t = Some kcs -> (k, c) ∈ kcs ->
  key_child k t = Some c.
Proof.
  intros Hu E Hin. destruct t; simplify_eq/=.
  apply list_elem_of_fmap in Hin as ([key v] & Heq & Hkv). simplify_eq/=.
  by apply dict_getitem_NoDup.
Qed.

Lemma flat_index_key_child r (t : pyobj) children aux k c :
  registry_flatten_one_level r t = Some (children, aux) ->
  (k, c) ∈ zip (FlattenedIndexKey <$> seq 0 (length children)) children ->
  key_child k t = Some c.
Proof.
  intros [_ E]%one_level_to_iter Hin.
  apply elem_of_zip_seq in Hin as (i & -> & Hi). simpl. by rewrite E.
Qed.

(** Every pair that [_generate_key_paths_] yields below the key path [p]
    carries a path that extends [p] by the keys leading from the tree to the
    value of the pair. *)
Lemma generate_key_paths_fuel_lookup st il (t : pyobj) :
  wf_pyobj t -> key_ordered t ->
  (forall cls, is_Some (_registry_with_keypaths st !! cls) -> free_of cls t) ->
  forall p q x,
    (q, x) ∈ generate_key_paths_fuel st (S (depth t)) p t il ->
    exists q', q = p ++ q' /\ lookup_path q' t = Some x.
Proof.
  induction t as [t IH] using pyobj_sub_ind.
  intros [Hu Hwf]%wf_pyobj_inv [Ho Hko]%key_ordered_inv Hfree p q x.
  assert (forall kcs : list (KeyEntry * pyobj),
    (forall k c, (k, c) ∈ kcs -> c ∈ sub_objects t /\ key_child k t = Some c) ->
    (q, x) ∈ concat ((fun kc => generate_key_paths_fuel st (depth t)
                        (p ++ [fst kc]) (snd kc) il) <$> kcs) ->
    exists q', q = p ++ q' /\ lookup_path q' t = Some x) as Hrec.
  { intros kcs Hkcs (l & Hq & Hl)%elem_of_concat.
    apply list_elem_of_fmap in Hl as ([k c] & -> & Hkc). simpl in Hq.
    destruct (Hkcs k c Hkc) as [Hsub Hk].
    pose proof (sub_objects_depth _ _ Hsub).
    rewrite (generate_key_paths_fuel_enough st il _ (S (depth c))) in Hq by lia.
    apply IH in Hq as (q' & -> & Hq'); auto.
    - exists (k :: q'). rewrite <- app_assoc. split; [done|].
      simpl. by rewrite Hk.
    - intros cls Hcls. by apply (free_of_inv cls t (Hfree cls Hcls)). }
  simpl. destruct (leaf_predicate il t).
  { intros Heq%list_elem_of_singleton; simplify_eq. exists []. by rewrite app_nil_r. }
  destruct (flatten_with_keys st t) as [kcs|] eqn:Ek.
  { apply Hrec. intros k c Hkc. split.
    - by apply (flatten_with_keys_sub_objects st t kcs (k, c)).
    - apply (flatten_with_keys_key_child st t kcs); auto.
      intros cls Hty.
      destruct (_registry_with_keypaths st !! cls) eqn:El; [|done].
      destruct (free_of_inv cls t (Hfree cls (mk_is_Some _ _ El))) as [Hne _].
      done. }
  destruct (registry_flatten_one_level _ t) as [[children aux]|] eqn:E.
  2:{ intros Heq%list_elem_of_singleton; simplify_eq. exists [].
      by rewrite app_nil_r. }
  assert (forall k c,
    (k, c) ∈ zip (FlattenedIndexKey <$> seq 0 (length children)) children ->
    c ∈ sub_objects t /\ key_child k t = Some c) as Hflat.
  { intros k c Hkc. split.
    - apply elem_of_zip_r in Hkc. eapply one_level_sub_objects; eauto.
    - by eapply flat_index_key_child. }
  destruct (namedtuple_fields t) as [kcs|] eqn:En; [|by apply Hrec].
  case_decide; [|by apply Hrec].
  apply Hrec. intros k c Hkc. split.
  - by apply (namedtuple_fields_sub_objects t kcs (k, c)).
  - by apply (namedtuple_fields_key_child t kcs).
Qed.

(** X12: key paths address the leaves.  For a tree with unique mapping keys,
    whose defaultdicts were filled in sorted key order and which holds no
    instance of a class with a key handler of its own, following the key path
    of an entry of [tree_leaves_with_path] from the root, by indexing,
    attribute access or flat child position, reaches the leaf of that
    entry. *)
Theorem key_paths_address st (tree : pyobj) is_leaf key_path (leaf : pyobj) :
  wf_pyobj tree -> key_ordered tree ->
  (forall cls, is_Some (_registry_with_keypaths st !! cls) -> free_of cls tree) ->
  (key_path, leaf) ∈ tree_leaves_with_path st tree is_leaf ->
  lookup_path key_path tree = Some leaf.
Proof.
  intros Hwf Hko Hfree Hin.
  by destruct (generate_key_paths_fuel_lookup st is_leaf tree Hwf Hko Hfree
    [] key_path leaf Hin) as (q' & -> & ?).
Qed.

Lemma key_paths_address_witness :
  lookup_path [DictKey "b"; SequenceKey 0]
    (PyDict [("b", PyList [PyInt 1]); ("a", PyInt 2)]) = Some (PyInt 1).
Proof.
  apply (key_paths_address initial
    (PyDict [("b", PyList [PyInt 1]); ("a", PyInt 2)]) None).
  - solve_wf_pyobj.
  - solve_key_ordered.
  - intros cls [keys H]. simpl in H. by rewrite lookup_empty in H.
  - vm_compute. apply elem_of_cons. right. apply elem_of_cons. by left.
Defined.

(** Every path yielded below the key path [p] extends [p]. *)
Lemma generate_key_paths_fuel_extends st il (n : nat) :
  forall p (t : pyobj) q,
    q ∈ (generate_key_paths_fuel st n p t il).*1 -> exists q', q = p ++ q'.
Proof.
  induction n as [|n IH]; intros p t q; simpl.
  { intros ->%list_elem_of_singleton. exists []. by rewrite app_nil_r. }
  assert (forall kcs : list (KeyEntry * pyobj),
    q ∈ (concat ((fun kc => generate_key_paths_fuel st n (p ++ [fst kc])
                    (snd kc) il) <$> kcs)).*1 ->
    exists q', q = p ++ q') as Hrec.
  { intros kcs ([q0 x] & -> & (l & Hq & Hl)%elem_of_concat)%list_elem_of_fmap.
    apply list_elem_of_fmap in Hl as ([k c] & -> & Hkc). simpl in *.
    destruct (IH (p ++ [k]) c q0) as [q' ->].
    { apply list_elem_of_fmap. by exists (q0, x). }
    exists (k :: q'). by rewrite <- app_assoc. }
  assert (q ∈ [(p, t)].*1 -> exists q', q = p ++ q') as Hleaf.
  { intros ->%list_elem_of_singleton. exists []. by rewrite app_nil_r. }
  destruct (leaf_predicate il t); [done|].
  destruct (flatten_with_keys st t); [by apply Hrec|].
  destruct (registry_flatten_one_level _ t) as [[children aux]|]; [|done].
  destruct (namedtuple_fields t); [|by apply Hrec].
  case_decide; by apply Hrec.
Qed.

Lemma fst_concat_fmap {A B C} (g : A -> list (B * C)) (l : list A) :
  (concat (g <$> l)).*1 = concat ((fun x => (g x).*1) <$> l).
Proof. induction l as [|x l IH]; csimpl; [done|]. by rewrite fmap_app, IH. Qed.

(** Lists of paths that start with pairwise different keys below [p] have no
    path in common. *)
Lemma NoDup_key_children {A} (g : KeyEntry * A -> list KeyPath) (p : KeyPath)
    (kcs : list (KeyEntry * A)) :
  NoDup (kcs.*1) ->
  (forall kc, kc ∈ kcs -> NoDup (g kc)) ->
  (forall kc q, kc ∈ kcs -> q ∈ g kc -> exists q', q = (p ++ [fst kc]) ++ q') ->
  NoDup (concat (g <$> kcs)).
Proof.
  induction kcs as [|kc kcs IH]; csimpl; [constructor|].
  intros [Hk Hnd]%NoDup_cons Hg Hp. apply NoDup_app. split_and!.
  - apply Hg. by left.
  - intros q Hq (l & Hl & (kc' & -> & Hkc')%list_elem_of_fmap)%elem_of_concat.
    destruct (Hp kc q) as [q1 E1]; [by left|done|].
    destruct (Hp kc' q) as [q2 E2]; [by right|done|].
    rewrite E1, <- !app_assoc in E2. apply app_inv_head in E2.
    simpl in E2. injection E2 as Heq _.
    apply Hk. rewrite Heq. apply list_elem_of_fmap. by exists kc'.
  - apply IH; [done|..].
    + intros kc' ?. apply Hg. by right.
    + intros kc' q ?. apply Hp. by right.
Qed.

Lemma flatten_with_keys_NoDup st (t : pyobj) kcs :
  keys_unique t ->
  (forall cls keys i j,
     _registry_with_keypaths st !! cls = Some keys -> keys i = keys j -> i = j) ->
  flatten_with_keys st t = Some kcs -> NoDup (kcs.*1).
Proof.
  intros Hu Hinj E.
  assert (forall n, NoDup (SequenceKey <$> seq 0 n)) as Hseq.
  { intros n. apply NoDup_fmap_2; [by intros ?? [= ->]|apply NoDup_seq]. }
  assert (forall keys : list string, NoDup keys -> NoDup (DictKey <$> keys))
    as Hdict.
  { intros keys. apply NoDup_fmap_2. by intros ?? [= ->]. }
  destruct t; simpl in E, Hu; simplify_eq/=; try (apply NoDup_fst_zip; auto).
  - apply Hdict. by rewrite sorted_keys_perm.
  - destruct (_registry_with_keypaths st !! cls) as [keys|] eqn:El;
      simplify_eq/=.
    apply NoDup_fst_zip. apply NoDup_fmap_2_strong; [|apply NoDup_seq].
    intros i j _ _. by apply (Hinj cls).
Qed.

(** The key paths yielded for a tree are pairwise different. *)
Lemma generate_key_paths_fuel_NoDup st il (t : pyobj) :
  wf_pyobj t ->
  (forall cls keys i j,
     _registry_with_keypaths st !! cls = Some keys -> keys i = keys j -> i = j) ->
  forall p, NoDup (generate_key_paths_fuel st (S (depth t)) p t il).*1.
Proof.
  intros Hwf Hinj. induction t as [t IH] using pyobj_sub_ind.
  apply wf_pyobj_inv in Hwf as [Hu Hwf]. intros p.
  assert (forall kcs : list (KeyEntry * pyobj),
    NoDup (kcs.*1) -> (forall kc, kc ∈ kcs -> snd kc ∈ sub_objects t) ->
    NoDup (concat ((fun kc => generate_key_paths_fuel st (depth t)
                      (p ++ [fst kc]) (snd kc) il) <$> kcs)).*1) as Hrec.
  { intros kcs Hnd Hsub. rewrite fst_concat_fmap.
    apply (NoDup_key_children _ p); [done|..].
    - intros kc Hkc. pose proof (sub_objects_depth _ _ (Hsub kc Hkc)).
      rewrite (generate_key_paths_fuel_enough st il _ (S (depth (snd kc))))
        by lia.
      apply IH; auto.
    - intros kc q _. apply generate_key_paths_fuel_extends. }
  assert (NoDup [(p, t)].*1) as Hleaf by (apply NoDup_singleton).
  simpl. destruct (leaf_predicate il t); [done|].
  destruct (flatten_with_keys st t) as [kcs|] eqn:Ek.
  { apply Hrec; [by eapply flatten_with_keys_NoDup|].
    intros kc. by apply (flatten_with_keys_sub_objects st). }
  destruct (registry_flatten_one_level _ t) as [[children aux]|] eqn:E; [|done].
  assert (NoDup (concat ((fun kc => generate_key_paths_fuel st (depth t)
                      (p ++ [fst kc]) (snd kc) il) <$>
            zip (FlattenedIndexKey <$> seq 0 (length children)) children)).*1)
    as Hflat.
  { apply Hrec.
    - apply NoDup_fst_zip, NoDup_fmap_2; [by intros ?? [= ->]|apply NoDup_seq].
    - intros [k c] Hkc%elem_of_zip_r. eapply one_level_sub_objects; eauto. }
  destruct (namedtuple_fields t) as [kcs|] eqn:En; [|done].
  case_decide; [|done].
  apply Hrec; [|intros kc; by apply namedtuple_fields_sub_objects].
  destruct t; simplify_eq/=. rewrite namedtuple_keys.
  apply NoDup_fmap_2; [by intros ?? [= ->]|done].
Qed.

(** X13: key paths identify the leaves.  For a tree with unique mapping keys
    and field names, in a state whose key handlers give different children
    different keys, the key paths that [tree_flatten_with_path] returns are
    pairwise different. *)
Theorem key_paths_distinct st (tree : pyobj) is_leaf :
  wf_pyobj tree ->
  (forall cls keys i j,
     _registry_with_keypaths st !! cls = Some keys -> keys i = keys j -> i = j) ->
  NoDup (fst (tree_flatten_with_path st tree is_leaf)).*1.
Proof.
  intros Hwf Hinj. unfold tree_flatten_with_path.
  destruct (tree_flatten st tree is_leaf) as [leaves tree_def]. simpl.
  by apply generate_key_paths_fuel_NoDup.
Qed.

Lemma key_paths_distinct_witness :
  NoDup (fst (tree_flatten_with_path
    (register_pytree_with_keys "Pair" SequenceKey initial)
    (PyList [PyObject "Pair" AuxNone [PyInt 1; PyInt 2]; PyInt 1]) None)).*1.
Proof.
  apply key_paths_distinct.
  - solve_wf_pyobj.
  - intros cls keys i j. simpl.
    destruct (decide (cls = "Pair")) as [->|Hne].
    + rewrite lookup_insert. intros [= <-] [= ->]. done.
    + rewrite lookup_insert_ne by done. by rewrite lookup_empty.
Defined.

(** ** Mapping with key paths *)

Lemma heads_fmap {A B} (f : A -> B) (lists : list (list A)) :
  heads ((fun l : list A => f <$> l) <$> lists)
  = (fun l : list A => f <$> l) <$> heads lists.
Proof.
  induction lists as [|[|x l] lists IH]; csimpl; [done..|].
  rewrite IH. by destruct (heads lists).
Qed.

Lemma tail_fmap {A B} (f : A -> B) (lists : list (list A)) :
  tail <$> ((fun l : list A => f <$> l) <$> lists)
  = (fun l : list A => f <$> l) <$> (tail <$> lists).
Proof.
  rewrite <- !list_fmap_compose. apply list_fmap_ext'. by intros [|x l] _.
Qed.

(** Unzipping the key-leaf pairs gives the row of the key paths and the row
    of the leaves, or no row when there is no pair. *)
Lemma zip_star_keypath_leaves (kls : list (KeyPath * pyobj)) :
  zip_star ((fun kl => [ArgPath (fst kl); ArgValue (snd kl)]) <$> kls)
  = match kls with
    | [] => []
    | _ :: _ => [ArgPath <$> kls.*1; ArgValue <$> kls.*2]
    end.
Proof.
  destruct kls as [|kl kls]; [done|]. csimpl.
  assert (heads ((fun kl => [ArgPath (fst kl); ArgValue (snd kl)]) <$> kls)
          = Some (ArgPath <$> kls.*1)) as ->.
  { induction kls as [|kl' kls IH]; csimpl; [done|]. by rewrite IH. }
  assert (heads (tail <$> ((fun kl => [ArgPath (fst kl); ArgValue (snd kl)]) <$> kls))
          = Some (ArgValue <$> kls.*2)) as ->.
  { induction kls as [|kl' kls IH]; csimpl; [done|]. by rewrite IH. }
  done.
Qed.

(** Zipping the row of the key paths with the rows of values puts each key
    path in front of the tuple of values at its position. *)
Lemma zip_rows_keypaths (kps : list KeyPath) (l : list pyobj)
    (rest : list (list pyobj)) :
  zip_rows (ArgPath <$> kps) ((fun l : list pyobj => ArgValue <$> l) <$> (l :: rest))
  = zip_with (fun (kp : KeyPath) (xs : list pyobj) => ArgPath kp :: (ArgValue <$> xs)) kps (zip_rows l rest).
Proof.
  revert l rest. induction kps as [|kp kps IH]; intros l rest; [done|].
  destruct l as [|x l]; [done|]. csimpl.
  rewrite (heads_fmap ArgValue rest).
  destruct (heads rest) as [hs|]; [|done]. csimpl. f_equal.
  rewrite (tail_fmap ArgValue rest). apply (IH l (tail <$> rest)).
Qed.

Lemma length_zip_rows {A} (l : list A) (rest : list (list A)) :
  length (zip_rows l rest) <= length l.
Proof.
  revert rest. induction l as [|x l IH]; intros rest; simpl; [done|].
  destruct (heads rest); simpl; [|lia]. specialize (IH (tail <$> rest)). lia.
Qed.

(** X14: [tree_map_with_path] calls [f] on the key path of each leaf, the
    leaf, and the values at its position in the further trees, and rewraps
    the results with the treedef of [tree]; so with a function that ignores
    the key path it is [tree_map]. *)
Theorem tree_map_with_path_spec st (f : list arg -> pyobj) (tree : pyobj)
    (rest : list pyobj) is_leaf :
  reachable st ->
  (forall rest_leaves,
     map_result (flatten_up_to (default_registry st)
                   (tree_structure st tree is_leaf)) rest = Ok rest_leaves ->
     tree_map_with_path st f tree rest is_leaf
     = tree_unflatten (tree_structure st tree is_leaf)
         (f <$> zip_with (fun (kl : KeyPath * pyobj) (xs : list pyobj) =>
            ArgPath (fst kl) :: (ArgValue <$> xs))
                  (tree_leaves_with_path st tree is_leaf)
                  (zip_star (tree_leaves st tree is_leaf :: rest_leaves)))) /\
  (forall g : list pyobj -> pyobj,
     (forall key_path (xs : list pyobj),
        f (ArgPath key_path :: (ArgValue <$> xs)) = g xs) ->
     tree_map_with_path st f tree rest is_leaf = tree_map st g tree rest is_leaf).
Proof.
  intros Hst%reachable_consistent.
  pose proof (generate_key_paths_fuel_leaves st is_leaf tree Hst []) as Hleaves.
  fold (generate_key_paths st tree is_leaf) in Hleaves.
  unfold tree_map_with_path, tree_map, tree_flatten_with_path,
    tree_leaves_with_path, tree_structure, tree_leaves, tree_unflatten,
    tree_flatten.
  pose proof (num_leaves_registry_flatten (default_registry st) tree is_leaf) as Hn.
  destruct (registry_flatten (default_registry st) tree is_leaf)
    as [leaves treedef]. simpl in *.
  set (kls := generate_key_paths st tree is_leaf) in *.
  assert (forall rls,
    map_result (flatten_up_to (default_registry st) treedef) rest = Ok rls ->
    zip_star (zip_star ((fun kl => [ArgPath (fst kl); ArgValue (snd kl)]) <$> kls)
              ++ ((fun l : list pyobj => ArgValue <$> l) <$> rls))
    = zip_with (fun (kl : KeyPath * pyobj) (xs : list pyobj) =>
            ArgPath (fst kl) :: (ArgValue <$> xs)) kls
        (zip_rows leaves rls)) as Hrows.
  { intros rls Hrls.
    destruct (map_result_flatten_up_to (default_registry st) treedef rest)
      as [(rls' & Hrls' & _ & Hlen & _)|[Hr _]]; [|congruence].
    assert (rls' = rls) as -> by congruence.
    rewrite zip_star_keypath_leaves. destruct kls as [|kl kls'] eqn:Ekls.
    - assert (leaves = []) as -> by (by rewrite <- Hleaves).
      destruct Hlen as [|rl rls Hrl _]; [done|].
      destruct rl; [done|]. simpl in Hrl, Hn. lia.
    - rewrite <- Ekls in *. simpl.
      change ((ArgValue <$> kls.*2) :: ((fun l : list pyobj => ArgValue <$> l) <$> rls))
        with ((fun l : list pyobj => ArgValue <$> l) <$> (kls.*2 :: rls)).
      rewrite zip_rows_keypaths, Hleaves. by rewrite zip_with_fmap_l. }
  split.
  - intros rls Hrls. rewrite Hrls. simpl. by rewrite (Hrows rls Hrls).
  - intros g Hg.
    destruct (map_result (flatten_up_to (default_registry st) treedef) rest)
      as [rls|e] eqn:Hrls; [|done].
    simpl. rewrite (Hrows rls eq_refl). f_equal.
    assert (length (zip_rows leaves rls) <= length kls) as Hle.
    { etrans; [apply length_zip_rows|]. by rewrite <- Hleaves, length_fmap. }
    clearbody kls.
    generalize dependent (zip_rows leaves rls). clear -Hg.
    induction kls as [|kl kls IH]; intros [|xs rows] Hle; simpl in *;
      try done; try lia.
    rewrite Hg. f_equal. apply IH. lia.
Qed.

Lemma tree_map_with_path_spec_witness :
  tree_map_with_path initial
    (fun args => match args with
                 | [_; ArgValue x; ArgValue y] => PyTuple [x; y]
                 | _ => PyNone
                 end)
    (PyList [PyInt 1; PyInt 2]) [PyList [PyStr "a"; PyStr "b"]] None
  = Ok (PyList [PyTuple [PyInt 1; PyStr "a"]; PyTuple [PyInt 2; PyStr "b"]]).
Proof.
  rewrite (proj1 (tree_map_with_path_spec initial _ (PyList [PyInt 1; PyInt 2])
    [PyList [PyStr "a"; PyStr "b"]] None reachable_initial)
    [[PyStr "a"; PyStr "b"]] eq_refl).
  reflexivity.
Defined.

(** ** The keys of the children of a node *)

(** For a node, [_child_keys] returns the keys that [_generate_key_paths_]
    pairs with the children of the node. *)
Lemma _child_keys_keyed st (t : pyobj) children aux :
  consistent st ->
  registry_flatten_one_level (default_registry st) t = Some (children, aux) ->
  exists kcs : list (KeyEntry * pyobj),
    _child_keys st t = Ok (kcs.*1) /\ kcs.*2 = children /\
    forall n p,
      generate_key_paths_fuel st (S n) p t None
      = concat ((fun kc => generate_key_paths_fuel st n (p ++ [fst kc])
                             (snd kc) None) <$> kcs).
Proof.
  intros Hst E. unfold _child_keys.
  rewrite tree_structure_eq, E, treedef_is_strict_leaf_TNode. simpl.
  rewrite length_fmap.
  destruct (flatten_with_keys st t) as [kcs|] eqn:Ek.
  { exists kcs. split; [done|].
    destruct (flatten_with_keys_children st t kcs Hst Ek) as [aux' E'].
    rewrite E in E'. by simplify_eq. }
  rewrite E.
  destruct (namedtuple_fields t) as [kcs|] eqn:En.
  - exists kcs. split; [done|].
    destruct t; simplify_eq/=.
    unfold registry_flatten_one_level in E. simpl in E. simplify_eq.
    split.
    + rewrite <- list_fmap_compose. apply list_fmap_ext'. by intros [k v] _.
    + intros n p. by rewrite decide_True.
  - exists (zip (FlattenedIndexKey <$> seq 0 (length children)) children).
    rewrite fst_zip_seq. split; [done|]. split; [|done].
    apply snd_zip. by rewrite length_fmap, length_seq.
Qed.

(** X15: [_child_keys] and the key paths agree.  In every state reached by
    registration calls [_child_keys] fails its assertion on a value of
    unregistered type; for a node it returns one key per child, and every key
    path that [generate_key_paths] yields for the node starts with one of
    these keys. *)
Theorem _child_keys_spec st (pytree : pyobj) :
  reachable st ->
  (registered (default_registry st) (type_of pytree) = false ->
   _child_keys st pytree = Raise AssertionError) /\
  (forall children aux,
     flatten_one_level st pytree = Ok (children, aux) ->
     exists keys,
       _child_keys st pytree = Ok keys /\ length keys = length children /\
       forall key_path x,
         (key_path, x) ∈ generate_key_paths st pytree None ->
         exists k key_path', key_path = k :: key_path' /\ k ∈ keys).
Proof.
  intros Hst%reachable_consistent. split.
  - intros H%one_level_registered. unfold _child_keys.
    by rewrite tree_structure_eq, H.
  - intros children aux E%flatten_one_level_Ok.
    destruct (_child_keys_keyed st pytree children aux Hst E)
      as (kcs & Hk & Hc & Hg).
    exists (kcs.*1). split; [done|]. split.
    { by rewrite <- Hc, !length_fmap. }
    intros key_path x. unfold generate_key_paths. rewrite Hg.
    intros (l & Hq & Hl)%elem_of_concat.
    apply list_elem_of_fmap in Hl as ([k c] & -> & Hkc). simpl in Hq.
    destruct (generate_key_paths_fuel_extends st None (depth pytree) [k] c
      key_path) as [q' ->].
    { apply list_elem_of_fmap. by exists (key_path, x). }
    exists k, q'. split; [done|]. apply list_elem_of_fmap. by exists (k, c).
Qed.

Lemma _child_keys_spec_witness :
  _child_keys (register_pytree_node "Box" initial) (PyInt 3)
  = Raise AssertionError.
Proof.
  apply (proj1 (_child_keys_spec (register_pytree_node "Box" initial) (PyInt 3)
    (reachable_node _ _ reachable_initial))).
  reflexivity.
Defined.

(** ** Laws of [tree_map] *)

Lemma zip_rows_nil {A} (l : list A) : zip_rows l [] = (fun x => [x]) <$> l.
Proof. induction l as [|x l IH]; csimpl; [done|]. by rewrite IH. Qed.

(** X16: [tree_map] over a single tree is a functor on the leaves.  Mapping
    the identity rebuilds a tree equal to the argument, and mapping [g] over
    the result of mapping [f] is mapping their composition, when [f] returns
    values of unregistered type (which are the leaves of its result). *)
Theorem tree_map_laws st (f g : list pyobj -> pyobj) (tree : pyobj) is_leaf :
  wf_pyobj tree ->
  ((forall x, f [x] = x) ->
   exists out, tree_map st f tree [] is_leaf = Ok out /\ py_eq out tree) /\
  ((forall xs, registered (default_registry st) (type_of (f xs)) = false) ->
   forall out, tree_map st f tree [] is_leaf = Ok out ->
     tree_map st g out [] None
     = tree_map st (fun xs => g [f xs]) tree [] is_leaf).
Proof.
  intros Hwf. unfold tree_map, tree_flatten.
  pose proof (num_leaves_registry_flatten (default_registry st) tree is_leaf) as Hn.
  split.
  - intros Hf.
    destruct (unflatten_from_flatten (default_registry st) tree is_leaf Hwf [])
      as (t' & Ht' & Heq).
    destruct (registry_flatten (default_registry st) tree is_leaf)
      as [leaves treedef]. simpl in *.
    exists t'. split; [|done]. rewrite zip_rows_nil, <- list_fmap_compose.
    rewrite (list_fmap_ext' _ id leaves) by (intros x _; apply Hf).
    rewrite list_fmap_id. unfold treedef_unflatten.
    rewrite app_nil_r in Ht'. by rewrite Ht'.
  - intros Hf out.
    destruct (treedef_unflatten_inverse (default_registry st) tree is_leaf
      (f <$> zip_rows (fst (registry_flatten (default_registry st) tree is_leaf)) [])
      Hwf) as (out' & Ho' & _ & Hfl).
    { by rewrite zip_rows_nil, !length_fmap. }
    destruct (registry_flatten (default_registry st) tree is_leaf)
      as [leaves treedef]. simpl in *.
    rewrite Ho'. intros ?; simplify_eq.
    rewrite Hfl by (apply Forall_fmap, Forall_forall; intros xs _; apply Hf).
    simpl. f_equal. rewrite !zip_rows_nil, <- !list_fmap_compose.
    by apply list_fmap_ext'.
Qed.

Lemma tree_map_laws_witness :
  exists out,
    tree_map initial (fun xs => default PyNone (head xs))
      (PyDict [("b", PyInt 1); ("a", PyTuple [PyInt 2])]) [] None = Ok out /\
    py_eq out (PyDict [("b", PyInt 1); ("a", PyTuple [PyInt 2])]).
Proof.
  apply (proj1 (tree_map_laws initial (fun xs => default PyNone (head xs))
    (fun xs => PyNone) (PyDict [("b", PyInt 1); ("a", PyTuple [PyInt 2])]) None
    ltac:(solve_wf_pyobj))).
  done.
Defined.

(** ** Equality of structure *)

Lemma prefix_of_own r (t : pyobj) :
  prefix_of r (snd (registry_flatten r t None)) t.
Proof.
  destruct (flatten_up_to_cases r (snd (registry_flatten r t None)) t)
    as [(ls & _ & _ & Hp)|[Hr _]]; [done|].
  by rewrite flatten_up_to_own in Hr.
Qed.

(** X6: reporting nothing is an equivalence.  With the keys of defaultdicts
    inserted in sorted order, [equality_errors] without predicate reports
    nothing for two trees exactly when they have the same treedef; so it
    reports nothing for a tree and itself, in either order of the arguments,
    and transitively; and then [prefix_errors] reports nothing either. *)
Theorem equality_errors_equivalence st (t1 t2 t3 : pyobj) :
  key_ordered t1 -> key_ordered t2 -> key_ordered t3 ->
  equality_errors st t1 t1 None = ([], None) /\
  (equality_errors st t1 t2 None = ([], None) <->
   tree_structure st t1 None = tree_structure st t2 None) /\
  (equality_errors st t1 t2 None = ([], None) ->
   equality_errors st t2 t1 None = ([], None)) /\
  (equality_errors st t1 t2 None = ([], None) ->
   equality_errors st t2 t3 None = ([], None) ->
   equality_errors st t1 t3 None = ([], None)) /\
  (equality_errors st t1 t2 None = ([], None) ->
   prefix_errors st t1 t2 None = Ok []).
Proof.
  intros H1 H2 H3.
  assert (forall a b, key_ordered a -> key_ordered b ->
    (equality_errors st a b None = ([], None) <->
     tree_structure st a None = tree_structure st b None)) as Hiff.
  { intros a b Ha Hb.
    destruct (_equality_errors_iff st a Ha b [] Hb) as (errs & He & Hiff).
    unfold equality_errors, _equality_errors. rewrite He, <- Hiff.
    split; [by intros [= ->]|by intros ->]. }
  split_and!.
  - by apply Hiff.
  - by apply Hiff.
  - rewrite !Hiff by done. done.
  - rewrite !Hiff by done. congruence.
  - intros Heq%Hiff; [|done..].
    destruct (_prefix_error_iff st t1 H1 t2 [] H2) as (errs & He & Hp).
    unfold prefix_errors, _prefix_error. rewrite He. simpl. f_equal.
    apply Hp. rewrite Heq. apply prefix_of_own.
Qed.

Lemma equality_errors_equivalence_witness :
  equality_errors initial (PyList [PyInt 1; PyDict [("k", PyStr "v")]])
    (PyList [PyStr "other"; PyDict [("k", PyInt 7)]]) None = ([], None).
Proof.
  destruct (equality_errors_equivalence initial
    (PyList [PyInt 1; PyDict [("k", PyStr "v")]])
    (PyList [PyStr "other"; PyDict [("k", PyInt 7)]]) PyNone)
    as (_ & Hiff & _); [solve_key_ordered..|].
  by apply Hiff.
Defined.

(** ** Transposing twice *)

(** Values after the ones a walk consumes are left untouched. *)
Lemma unflatten_from_app (td : PyTreeDef) :
  forall leaves t rest0 rest,
    unflatten_from td leaves = Ok (t, rest0) ->
    unflatten_from td (leaves ++ rest) = Ok (t, rest0 ++ rest).
Proof.
  induction td as [|ty aux children IH] using PyTreeDef_Forall_ind;
    intros leaves t rest0 rest.
  { destruct leaves; simpl; intros ?; by simplify_eq. }
  simpl.
  assert (forall leaves kids rest0,
    unflatten_children unflatten_from children leaves = Ok (kids, rest0) ->
    unflatten_children unflatten_from children (leaves ++ rest)
    = Ok (kids, rest0 ++ rest)) as Hc.
  { clear t rest0 leaves.
    induction children as [|c children IHc]; intros ls kids r0; csimpl.
    { intros ?; by simplify_eq. }
    apply Forall_cons in IH as [IHhd IHtl].
    destruct (unflatten_from c ls) as [[kid ls']|] eqn:Ec; [|done]. simpl.
    rewrite (IHhd _ _ _ rest Ec). simpl.
    destruct (unflatten_children unflatten_from children ls')
      as [[kids' ls'']|] eqn:Ecs; [|done].
    simpl. intros ?; simplify_eq. by rewrite (IHc IHtl _ _ _ Ecs). }
  destruct (unflatten_children unflatten_from children leaves)
    as [[kids r']|] eqn:E; [|done].
  rewrite (Hc _ _ _ E). simpl. destruct (from_iter ty aux kids); [|done].
  simpl. intros ?; by simplify_eq.
Qed.

(** Unflattening with a composed treedef is unflattening the inner trees
    first and the outer tree from them. *)
Lemma unflatten_from_compose (outer inner : PyTreeDef) :
  forall (rows : list (list pyobj)) (subs : list pyobj) rest rest',
    Forall2 (fun row s => treedef_unflatten inner row = Ok s) rows subs ->
    length rows = num_leaves outer ->
    unflatten_from (compose outer inner) (concat rows ++ rest)
    = '(t, _) ← unflatten_from outer (subs ++ rest'); Ok (t, rest).
Proof.
  induction outer as [|ty aux children IH] using PyTreeDef_Forall_ind;
    intros rows subs rest rest' Hrows Hlen.
  { destruct Hrows as [|row s rows subs Hrow Hrows]; [done|].
    destruct Hrows; [|done]. simpl. rewrite app_nil_r.
    unfold treedef_unflatten in Hrow.
    destruct (unflatten_from inner row) as [[s' r]|] eqn:E; [|done].
    simpl in Hrow. destruct r; [|done]. simplify_eq.
    by rewrite (unflatten_from_app inner row s [] rest E). }
  simpl in *.
  assert (forall rows subs rest rest',
    Forall2 (fun row s => treedef_unflatten inner row = Ok s) rows subs ->
    length rows = sum_list (num_leaves <$> children) ->
    unflatten_children unflatten_from ((fun c => compose c inner) <$> children)
      (concat rows ++ rest)
    = '(kids, _) ← unflatten_children unflatten_from children (subs ++ rest');
      Ok (kids, rest)) as Hc.
  { clear rows subs rest rest' Hrows Hlen.
    induction children as [|c children IHc];
      intros rows subs rest rest' Hrows Hlen; csimpl in *.
    { destruct Hrows; [done|done]. }
    apply Forall_cons in IH as [IHhd IHtl].
    assert (exists rowsA rowsB subsA subsB,
      rows = rowsA ++ rowsB /\ subs = subsA ++ subsB /\
      Forall2 (fun row s => treedef_unflatten inner row = Ok s) rowsA subsA /\
      Forall2 (fun row s => treedef_unflatten inner row = Ok s) rowsB subsB /\
      length rowsA = num_leaves c /\
      length rowsB = sum_list (num_leaves <$> children))
      as (rowsA & rowsB & subsA & subsB & -> & -> & HA & HB & HlA & HlB).
    { exists (take (num_leaves c) rows), (drop (num_leaves c) rows),
        (take (num_leaves c) subs), (drop (num_leaves c) subs).
      rewrite !take_drop. split_and!; try done.
      - by apply Forall2_take.
      - by apply Forall2_drop.
      - rewrite length_take. lia.
      - rewrite length_drop. lia. }
    rewrite concat_app, <- !app_assoc.
    rewrite (IHhd rowsA subsA (concat rowsB ++ rest) (subsB ++ rest') HA HlA).
    destruct (unflatten_from c (subsA ++ subsB ++ rest')) as [[kid r]|e] eqn:Ec;
      [|done].
    simpl. apply unflatten_from_ok in Ec as [_ ->].
    rewrite drop_app_length' by (by rewrite <- (Forall2_length _ _ _ HA)).
    rewrite (IHc IHtl rowsB subsB rest rest' HB HlB).
    by destruct (unflatten_children unflatten_from children (subsB ++ rest'))
      as [[kids r]|e]. }
  rewrite (Hc rows subs rest rest' Hrows Hlen).
  destruct (unflatten_children unflatten_from children (subs ++ rest'))
    as [[kids r]|e]; [|done].
  simpl. by destruct (from_iter ty aux kids).
Qed.

(** A value that flattens up to a treedef into trees of one structure has
    the composed structure. *)
Lemma flatten_up_to_compose r (td inner : PyTreeDef) :
  forall (x : pyobj) ls, flatten_up_to r td x = Ok ls ->
  Forall (fun s => snd (registry_flatten r s None) = inner) ls ->
  snd (registry_flatten r x None) = compose td inner.
Proof.
  induction td as [|ty aux tds IH] using PyTreeDef_Forall_ind; intros x ls.
  { simpl. intros ?; simplify_eq. by intros [? _]%Forall_cons. }
  simpl.
  destruct (registry_flatten_one_level r x) as [[xs aux']|] eqn:E; [|done].
  case_decide as Hc; [|done]. destruct Hc as (<- & -> & Hlen).
  destruct (map2_result (flatten_up_to r) tds xs) as [lss|] eqn:Em; [|done].
  simpl. intros ?; simplify_eq. intros Hall.
  rewrite (registry_flatten_eq r x). simpl. rewrite E. simpl. f_equal.
  rewrite <- list_fmap_compose. clear E. revert xs lss Hlen Em Hall.
  induction tds as [|td tds IHtds]; intros [|y ys] lss Hlen Em Hall; simpl in *;
    simplify_eq; [done|].
  apply Forall_cons in IH as [IHhd IHtl].
  destruct (flatten_up_to r td y) as [l|] eqn:Ey; [|done]. simpl in Em.
  destruct (map2_result (flatten_up_to r) tds ys) as [lss'|] eqn:Eys; [|done].
  simpl in Em. simplify_eq. csimpl in *.
  apply Forall_app in Hall as [Hl Hall].
  f_equal; [by apply (IHhd y l)|by apply (IHtds IHtl ys lss')].
Qed.

Lemma omap_ext_elem {A B} (f g : A -> option B) (l : list A) :
  (forall x, x ∈ l -> f x = g x) -> omap f l = omap g l.
Proof.
  induction l as [|x l IH]; intros H; csimpl; [done|].
  rewrite (H x) by (by left). rewrite IH; [done|]. intros; apply H; by right.
Qed.

Lemma omap_lookup_seq {A} (l pre : list A) :
  omap (fun j => (pre ++ l) !! j) (seq (length pre) (length l)) = l.
Proof.
  revert pre. induction l as [|x l IH]; intros pre; csimpl; [done|].
  rewrite list_lookup_middle by done. simpl. f_equal.
  specialize (IH (pre ++ [x])). rewrite length_app, <- app_assoc in IH.
  simpl in IH. by rewrite Nat.add_1_r in IH.
Qed.

Lemma per_leaf_lookup {A} (m : list (list A)) (n j : nat) :
  Forall (fun row => length row = n) m -> j < n ->
  length (per_leaf m j) = length m /\
  forall k, per_leaf m j !! k = m !! k ≫= (fun row => row !! j).
Proof.
  intros Hm Hj. unfold per_leaf.
  induction Hm as [|row m Hrow _ [IH1 IH2]]; csimpl; [done|].
  destruct (lookup_lt_is_Some_2 row j) as [x Hx]; [lia|]. rewrite Hx. simpl.
  split; [by rewrite IH1|]. intros [|k]; simpl; [done|apply IH2].
Qed.

(** Transposing a non-empty grid with non-empty rows of one length twice
    gives the grid back. *)
Lemma zip_star_involutive {A} (m : list (list A)) (n : nat) :
  Forall (fun row => length row = n) m -> 0 < length m -> 0 < n ->
  zip_star (zip_star m) = m.
Proof.
  intros Hm Hpos Hn.
  assert (zip_star m = per_leaf m <$> seq 0 n) as ->.
  { destruct m as [|row rows]; [simpl in Hpos; lia|]. simpl.
    apply Forall_cons in Hm as [Hrow Hrows].
    rewrite zip_rows_per_leaf by (by rewrite Hrow). by rewrite Hrow. }
  destruct n as [|n]; [lia|].
  change (seq 0 (S n)) with (0 :: seq 1 n). rewrite fmap_cons.
  change (zip_star (per_leaf m 0 :: (per_leaf m <$> seq 1 n)))
    with (zip_rows (per_leaf m 0) (per_leaf m <$> seq 1 n)).
  rewrite zip_rows_per_leaf.
  2:{ apply Forall_fmap, Forall_forall. intros j Hj%elem_of_seq. simpl.
      rewrite (proj1 (per_leaf_lookup m (S n) j Hm ltac:(lia))).
      by rewrite (proj1 (per_leaf_lookup m (S n) 0 Hm ltac:(lia))). }
  rewrite (proj1 (per_leaf_lookup m (S n) 0 Hm ltac:(lia))).
  change (per_leaf m 0 :: (per_leaf m <$> seq 1 n))
    with (per_leaf m <$> seq 0 (S n)).
  apply list_eq. intros k. rewrite list_lookup_fmap.
  destruct (decide (k < length m)) as [Hk|Hk].
  - rewrite lookup_seq_lt by done.
    destruct (lookup_lt_is_Some_2 m k Hk) as [row Hrow]. rewrite Hrow.
    change (Some (per_leaf (per_leaf m <$> seq 0 (S n)) k) = Some row).
    f_equal. unfold per_leaf at 1.
    rewrite (omap_fmap_seq (per_leaf m) _ (fun j => per_leaf m j !! k)) by done.
    rewrite (omap_ext_elem _ (fun j => row !! j)).
    + pose proof (Forall_lookup_1 _ _ _ _ Hm Hrow) as Hl. simpl in Hl.
      rewrite <- Hl. apply (omap_lookup_seq row []).
    + intros j Hj%elem_of_seq.
      rewrite (proj2 (per_leaf_lookup m (S n) j Hm ltac:(lia))).
      by rewrite Hrow.
  - rewrite lookup_seq_ge by lia. simpl. symmetry. apply lookup_ge_None. lia.
Qed.

Lemma rows_of_concat {A} (n : nat) (rows : list (list A)) :
  Forall (fun row => length row = n) rows ->
  rows_of (length rows) n (concat rows) = rows.
Proof.
  induction 1 as [|row rows Hrow _ IH]; simpl; [done|].
  rewrite take_app_length', drop_app_length' by done. by rewrite IH.
Qed.

Lemma rows_of_grid {A} (outer_size inner_size : nat) (flat : list A) :
  length flat = inner_size * outer_size ->
  concat (rows_of outer_size inner_size flat) = flat /\
  length (rows_of outer_size inner_size flat) = outer_size /\
  Forall (fun row => length row = inner_size)
    (rows_of outer_size inner_size flat).
Proof.
  revert flat. induction outer_size as [|m IH]; intros flat Hlen; simpl.
  { split_and!; [|done|constructor]. symmetry. apply nil_length_inv. lia. }
  destruct (IH (drop inner_size flat)) as (H1 & H2 & H3).
  { rewrite length_drop. lia. }
  split_and!.
  - by rewrite H1, take_drop.
  - by rewrite H2.
  - constructor; [|done]. rewrite length_take. nia.
Qed.

Lemma Forall_exists_Forall2 {A B} (P : A -> B -> Prop) (l : list A) :
  Forall (fun x => exists y, P x y) l -> exists k, Forall2 P l k.
Proof.
  induction 1 as [|x l [y Hy] _ [k Hk]]; [by exists []|].
  exists (y :: k). by constructor.
Qed.

(** One transposition: the columns of the grid of leaves are rewrapped with
    the outer treedef, the results with the inner treedef, and the result
    has the leaves column by column and the treedefs composed the other way
    round. *)
Lemma tree_transpose_once st (outer_tree inner_tree tree : pyobj) :
  let outer := tree_structure st outer_tree None in
  let inner := tree_structure st inner_tree None in
  let flat := tree_leaves st tree None in
  let columns :=
    zip_star (rows_of (num_leaves outer) (num_leaves inner) flat) in
  wf_pyobj outer_tree -> wf_pyobj inner_tree ->
  length flat = num_leaves inner * num_leaves outer ->
  0 < num_leaves outer ->
  exists subtrees out,
    Forall2 (fun column s => treedef_unflatten outer column = Ok s)
      columns subtrees /\
    length columns = num_leaves inner /\
    Forall (fun column => length column = num_leaves outer) columns /\
    treedef_unflatten inner subtrees = Ok out /\
    tree_transpose st outer (Some inner) tree = Ok out /\
    tree_flatten st out None = (concat columns, compose inner outer).
Proof.
  intros outer inner flat columns Hwo Hwi Hlen Hpos.
  pose proof (registry_flatten_leaves (default_registry st) tree) as Hleaves.
  fold (tree_leaves st tree None) in Hleaves. fold flat in Hleaves.
  assert (columns
    = (fun i => omap (fun o => flat !! (o * num_leaves inner + i))
                  (seq 0 (num_leaves outer))) <$> seq 0 (num_leaves inner))
    as Hcols by (by apply zip_star_rows_of).
  assert (length columns = num_leaves inner) as Hn
    by (by rewrite Hcols, length_fmap, length_seq).
  assert (Forall (fun column =>
    length column = num_leaves outer /\
    Forall (fun x => registry_flatten_one_level (default_registry st) x = None)
      column) columns)
    as Hcolumns.
  { rewrite Hcols. apply Forall_fmap, Forall_forall.
    intros i Hi%elem_of_seq. simpl. split.
    - apply omap_total_length_seq. intros o Ho.
      apply lookup_lt_is_Some_2. rewrite Hlen. nia.
    - apply Forall_forall. intros x (o & _ & Hx)%list_elem_of_omap.
      eapply Forall_lookup_1 in Hleaves; eauto. }
  assert (Forall (fun column => exists s,
    treedef_unflatten outer column = Ok s /\
    registry_flatten (default_registry st) s None = (column, outer)) columns)
    as Hsubs.
  { eapply Forall_impl; [exact Hcolumns|]. intros column [Hl Hc]. simpl.
    destruct (treedef_unflatten_inverse (default_registry st) outer_tree None
      column Hwo Hl)
      as (s & Hs & _ & Hfl).
    exists s. split; [done|]. apply Hfl.
    eapply Forall_impl; [exact Hc|]. intros x. apply one_level_registered. }
  apply Forall_exists_Forall2 in Hsubs as [subtrees Hsubs].
  destruct (treedef_unflatten_inverse (default_registry st) inner_tree None
    subtrees Hwi)
    as (out & Hout & Hup & _).
  { by rewrite <- (Forall2_length _ _ _ Hsubs). }
  exists subtrees, out. split_and!.
  - eapply Forall2_impl; [exact Hsubs|]. by intros ?? [? _].
  - done.
  - eapply Forall_impl; [exact Hcolumns|]. by intros ? [? _].
  - done.
  - assert (map_result (tree_unflatten outer) columns = Ok subtrees) as Hmap.
    { apply map_result_Forall2.
      eapply Forall2_impl; [exact Hsubs|]. by intros ?? [? _]. }
    pose proof (num_leaves_registry_flatten (default_registry st) tree None)
      as Hnl.
    unfold tree_transpose, tree_flatten. subst columns flat.
    unfold tree_leaves in *.
    destruct (registry_flatten (default_registry st) tree None)
      as [flat treedef]. simpl in *.
    rewrite decide_False by (intros Hne; apply Hne; congruence).
    fold outer inner. rewrite Hmap. simpl. exact Hout.
  - unfold tree_flatten.
    rewrite (surjective_pairing
      (registry_flatten (default_registry st) out None)).
    f_equal.
    + rewrite <- (flatten_up_to_leaves (default_registry st) inner out
        subtrees Hup).
      f_equal. clear -Hsubs.
      induction Hsubs as [|c s cs ss [_ Hs] _ IH]; csimpl; [done|].
      by rewrite Hs, IH.
    + apply (flatten_up_to_compose (default_registry st) inner outer out
        subtrees Hup).
      clear -Hsubs. induction Hsubs as [|c s cs ss [_ Hs] _ IH]; constructor;
        [by rewrite Hs|done].
Qed.

(** X17: transposing twice gives the tree back.  For a tree whose treedef is
    the outer treedef composed with the inner one, both with at least one
    leaf, [tree_transpose] returns a tree whose treedef is the inner treedef
    composed with the outer one, and transposing that with the treedefs
    exchanged returns a tree equal to the first. *)
Theorem tree_transpose_involution st (outer_tree inner_tree tree : pyobj) :
  let outer := tree_structure st outer_tree None in
  let inner := tree_structure st inner_tree None in
  wf_pyobj outer_tree -> wf_pyobj inner_tree -> wf_pyobj tree ->
  0 < num_leaves outer -> 0 < num_leaves inner ->
  tree_structure st tree None = compose outer inner ->
  exists transposed back,
    tree_transpose st outer (Some inner) tree = Ok transposed /\
    tree_structure st transposed None = compose inner outer /\
    tree_transpose st inner (Some outer) transposed = Ok back /\
    py_eq back tree.
Proof.
  intros outer inner Hwo Hwi Hwt Hpo Hpi Hstruct.
  assert (length (tree_leaves st tree None)
          = num_leaves inner * num_leaves outer) as Hlen.
  { unfold tree_leaves.
    rewrite <- num_leaves_registry_flatten.
    fold (tree_structure st tree None).
    rewrite Hstruct, num_leaves_compose. lia. }
  destruct (tree_transpose_once st outer_tree inner_tree tree Hwo Hwi Hlen Hpo)
    as (subtrees & transposed & _ & Hn & Hcl & _ & Ht & Hfl).
  fold outer inner in Hn, Hcl, Ht, Hfl. unfold tree_flatten in Hfl.
  destruct (rows_of_grid (num_leaves outer) (num_leaves inner)
    (tree_leaves st tree None) Hlen) as (Hcat & Hrows & Hrl).
  set (rows := rows_of (num_leaves outer) (num_leaves inner)
                 (tree_leaves st tree None)) in *.
  assert (tree_leaves st transposed None = concat (zip_star rows)) as Hleaves'
    by (unfold tree_leaves; by rewrite Hfl).
  assert (tree_structure st transposed None = compose inner outer) as Hstruct'
    by (unfold tree_structure; by rewrite Hfl).
  assert (length (tree_leaves st transposed None)
          = num_leaves outer * num_leaves inner) as Hlen'.
  { unfold tree_leaves. rewrite <- num_leaves_registry_flatten.
    fold (tree_structure st transposed None).
    rewrite Hstruct', num_leaves_compose. lia. }
  destruct (tree_transpose_once st inner_tree outer_tree transposed Hwi Hwo
    Hlen' Hpi) as (subtrees' & back & Hsubs' & _ & _ & Hback & Ht' & _).
  fold outer inner in Hsubs', Hback, Ht'.
  rewrite Hleaves', <- Hn, (rows_of_concat _ _ Hcl) in Hsubs'.
  rewrite (zip_star_involutive rows (num_leaves inner)) in Hsubs'
    by (done || lia).
  exists transposed, back. split_and!; [done..|].
  pose proof (unflatten_from_compose outer inner rows subtrees' [] []
    Hsubs' Hrows) as Hcomp.
  rewrite !app_nil_r, Hcat in Hcomp.
  unfold treedef_unflatten in Hback.
  destruct (unflatten_from outer subtrees') as [[back' rest]|] eqn:Eb; [|done].
  simpl in Hback, Hcomp. destruct rest; [|done]. simplify_eq.
  destruct (unflatten_from_flatten (default_registry st) tree None Hwt [])
    as (t' & Ht'' & Heq).
  rewrite app_nil_r in Ht''.
  fold (tree_structure st tree None) in Ht''.
  fold (tree_leaves st tree None) in Ht''.
  rewrite Hstruct, Hcomp in Ht''. by simplify_eq.
Qed.

Lemma tree_transpose_involution_witness :
  exists transposed back,
    tree_transpose initial
      (tree_structure initial (PyList [PyInt 0; PyInt 0]) None)
      (Some (tree_structure initial (PyTuple [PyInt 0; PyInt 0; PyInt 0]) None))
      (PyList [PyTuple [PyInt 1; PyInt 2; PyInt 3];
               PyTuple [PyInt 4; PyInt 5; PyInt 6]]) = Ok transposed /\
    tree_transpose initial
      (tree_structure initial (PyTuple [PyInt 0; PyInt 0; PyInt 0]) None)
      (Some (tree_structure initial (PyList [PyInt 0; PyInt 0]) None))
      transposed = Ok back /\
    py_eq back (PyList [PyTuple [PyInt 1; PyInt 2; PyInt 3];
                        PyTuple [PyInt 4; PyInt 5; PyInt 6]]).
Proof.
  destruct (tree_transpose_involution initial (PyList [PyInt 0; PyInt 0])
    (PyTuple [PyInt 0; PyInt 0; PyInt 0])
    (PyList [PyTuple [PyInt 1; PyInt 2; PyInt 3];
             PyTuple [PyInt 4; PyInt 5; PyInt 6]]))
    as (transposed & back & H1 & _ & H3 & H4);
    [solve_wf_pyobj..|vm_compute; lia|vm_compute; lia|reflexivity|].
  by exists transposed, back.
Defined.

(** A tree of composed structure flattens up to the outer treedef into
    subtrees of the inner structure. *)
Lemma flatten_up_to_composed r (outer inner : PyTreeDef) :
  forall x : pyobj,
    snd (registry_flatten r x None) = compose outer inner ->
    exists slots,
      flatten_up_to r outer x = Ok slots /\
      Forall (fun s => snd (registry_flatten r s None) = inner) slots.
Proof.
  induction outer as [|ty aux children IH] using PyTreeDef_Forall_ind; intros x.
  { simpl. intros Hx. exists [x]. split; [done|]. by constructor. }
  rewrite registry_flatten_eq. simpl.
  destruct (registry_flatten_one_level r x) as [[xs aux']|] eqn:E; [|done].
  simpl. rewrite <- list_fmap_compose. intros [= Hty -> Hcs].
  rewrite decide_True.
  2:{ split_and!; [done..|]. apply (f_equal length) in Hcs.
      by rewrite !length_fmap in Hcs. }
  assert (exists lss,
    map2_result (flatten_up_to r) children xs = Ok lss /\
    Forall (Forall (fun s => snd (registry_flatten r s None) = inner)) lss)
    as (lss & -> & Hlss).
  { clear E Hty. revert xs Hcs.
    induction children as [|c children IHc]; intros [|y ys] Hcs; simplify_eq/=.
    { exists []. split; [done|constructor]. }
    apply Forall_cons in IH as [IHhd IHtl].
    destruct (IHhd y) as (l & -> & Hl); [done|].
    destruct (IHc IHtl ys) as (lss & -> & Hlss); [done|].
    simpl. exists (l :: lss). split; [done|by constructor]. }
  simpl. exists (concat lss). split; [done|]. by apply Forall_concat.
Qed.

(** X18: the inner treedef left out.  [tree_transpose] then takes the
    treedef of the first subtree below the outer treedef: for a tree of
    composed structure, with an outer treedef that has a leaf, the call
    returns what it returns with the inner treedef given; with an outer
    treedef without leaves that the tree matches there is no first subtree
    and the call ends in an [IndexError]. *)
Theorem tree_transpose_inferred st (outer_treedef : PyTreeDef) (tree : pyobj) :
  (forall inner_treedef,
     0 < num_leaves outer_treedef ->
     tree_structure st tree None = compose outer_treedef inner_treedef ->
     tree_transpose st outer_treedef None tree
     = tree_transpose st outer_treedef (Some inner_treedef) tree) /\
  (num_leaves outer_treedef = 0 ->
   prefix_of (default_registry st) outer_treedef tree ->
   tree_transpose st outer_treedef None tree = Raise IndexError).
Proof.
  unfold tree_transpose, tree_structure, tree_flatten. split.
  - intros inner_treedef Hpos Hstruct.
    destruct (flatten_up_to_composed (default_registry st) outer_treedef
      inner_treedef tree Hstruct) as (slots & Hslots & Hall).
    destruct (flatten_up_to_cases (default_registry st) outer_treedef tree)
      as [(ls & Hls & Hlen & _)|[Hr _]]; [|congruence].
    rewrite Hslots in *. simplify_eq.
    destruct (registry_flatten (default_registry st) tree None)
      as [flat treedef].
    destruct ls as [|slot ls]; [simpl in Hlen; lia|].
    apply Forall_cons in Hall as [Hslot _]. simpl. by rewrite Hslot.
  - intros Hzero Hpre.
    destruct (flatten_up_to_cases (default_registry st) outer_treedef tree)
      as [(ls & -> & Hlen & _)|[_ Hn]]; [|done].
    destruct (registry_flatten (default_registry st) tree None)
      as [flat treedef].
    destruct ls; [done|simpl in Hlen; lia].
Qed.

Lemma tree_transpose_inferred_witness :
  tree_transpose initial (tree_structure initial (PyList [PyInt 0; PyInt 0]) None)
    None (PyList [PyTuple [PyInt 1; PyInt 2; PyInt 3];
                  PyTuple [PyInt 4; PyInt 5; PyInt 6]])
  = Ok (PyTuple [PyList [PyInt 1; PyInt 4]; PyList [PyInt 2; PyInt 5];
                 PyList [PyInt 3; PyInt 6]]) /\
  tree_transpose initial (TNode TyList AuxNone []) None (PyList [])
  = Raise IndexError.
Proof.
  split.
  - rewrite (proj1 (tree_transpose_inferred initial
      (tree_structure initial (PyList [PyInt 0; PyInt 0]) None)
      (PyList [PyTuple [PyInt 1; PyInt 2; PyInt 3];
               PyTuple [PyInt 4; PyInt 5; PyInt 6]]))
      (tree_structure initial (PyTuple [PyInt 0; PyInt 0; PyInt 0]) None));
      [reflexivity|vm_compute; lia|reflexivity].
  - apply (proj2 (tree_transpose_inferred initial
      (TNode TyList AuxNone []) (PyList []))); [done|].
    by apply (prefix_of_node _ TyList AuxNone [] (PyList []) []).
Defined.

(** ** Flattening with a leaf predicate *)

Lemma registry_flatten_leaves_pred r il (t : pyobj) :
  Forall (fun x => leaf_predicate il x = true \/
                   registry_flatten_one_level r x = None)
    (fst (registry_flatten r t il)).
Proof.
  induction t as [t IH] using pyobj_sub_ind.
  rewrite registry_flatten_eq.
  destruct (leaf_predicate il t) eqn:El.
  { simpl. constructor; [by left|constructor]. }
  destruct (registry_flatten_one_level r t) as [[children aux]|] eqn:E.
  2:{ simpl. constructor; [by right|constructor]. }
  simpl. apply Forall_concat, Forall_fmap, Forall_fmap, Forall_forall.
  intros c Hc. apply IH. by eapply one_level_sub_objects.
Qed.

(** X19: a leaf predicate only stops the traversal early.  Every leaf that
    [tree_flatten] returns is accepted by the predicate or of unregistered
    type; a tree the predicate accepts is returned whole; the treedef is a
    prefix of the tree; and flattening the leaves further, without predicate,
    gives the leaves of the tree flattened without predicate. *)
Theorem tree_flatten_is_leaf st (tree : pyobj) is_leaf :
  Forall (fun x => leaf_predicate is_leaf x = true \/
                   registered (default_registry st) (type_of x) = false)
    (tree_leaves st tree is_leaf) /\
  (leaf_predicate is_leaf tree = true ->
   tree_flatten st tree is_leaf = ([tree], TLeaf)) /\
  prefix_of (default_registry st) (tree_structure st tree is_leaf) tree /\
  concat ((fun x => tree_leaves st x None) <$> tree_leaves st tree is_leaf)
  = tree_leaves st tree None.
Proof.
  unfold tree_leaves, tree_structure, tree_flatten.
  pose proof (flatten_up_to_own (default_registry st) tree is_leaf) as Hown.
  split_and!.
  - eapply Forall_impl; [apply registry_flatten_leaves_pred|].
    intros x [?|?%one_level_registered]; auto.
  - intros Hl. by rewrite registry_flatten_eq, Hl.
  - destruct (flatten_up_to_cases (default_registry st)
      (snd (registry_flatten (default_registry st) tree is_leaf)) tree)
      as [(ls & _ & _ & Hp)|[Hr _]]; [done|congruence].
  - by apply (flatten_up_to_leaves _ _ _ _ Hown).
Qed.

(** ** Key paths of registered classes *)

Lemma generate_key_paths_fuel_step st (n : nat) p (t : pyobj) :
  generate_key_paths_fuel st (S n) p t None
  = match flatten_with_keys st t with
    | Some kcs =>
        concat ((fun kc => generate_key_paths_fuel st n (p ++ [fst kc])
                             (snd kc) None) <$> kcs)
    | None =>
        match registry_flatten_one_level (default_registry st) t,
              namedtuple_fields t with
        | None, _ => [(p, t)]
        | Some (children, aux), None =>
            concat ((fun kc => generate_key_paths_fuel st n (p ++ [fst kc])
                                 (snd kc) None) <$>
                    zip (FlattenedIndexKey <$> seq 0 (length children)) children)
        | Some (children, aux), Some kcs =>
            if decide (aux = AuxClass (type_of t))
            then concat ((fun kc => generate_key_paths_fuel st n
                            (p ++ [fst kc]) (snd kc) None) <$> kcs)
            else concat ((fun kc => generate_key_paths_fuel st n
                            (p ++ [fst kc]) (snd kc) None) <$>
                    zip (FlattenedIndexKey <$> seq 0 (length children))
                      children)
        end
    end.
Proof.
  simpl. destruct (flatten_with_keys st t); [done|].
  destruct (registry_flatten_one_level _ t) as [[children aux]|]; [|done].
  by destruct (namedtuple_fields t).
Qed.

(** X20: the keys of a registered class.  After [register_pytree_with_keys]
    every key path of an instance starts with the key the class gives to one
    of its children; after [register_pytree_node], for a class without key
    handler, it starts with the flat index of a child; and an instance of a
    class that was not registered is a leaf with the empty key path. *)
Theorem registered_class_key_paths st cls keys aux (kids : list pyobj) :
  let tree := PyObject cls aux kids in
  (forall key_path x,
     (key_path, x) ∈ tree_leaves_with_path
                       (register_pytree_with_keys cls keys st) tree None ->
     exists i key_path', i < length kids /\ key_path = keys i :: key_path') /\
  (_registry_with_keypaths st !! cls = None ->
   forall key_path x,
     (key_path, x) ∈ tree_leaves_with_path (register_pytree_node cls st) tree
                       None ->
     exists i key_path',
       i < length kids /\ key_path = FlattenedIndexKey i :: key_path') /\
  (_registry_with_keypaths st !! cls = None ->
   cls ∉ custom_nodes (default_registry st) ->
   tree_leaves_with_path st tree None = [([], tree)]).
Proof.
  intros tree.
  assert (forall st' (f : nat -> KeyEntry) key_path x,
    (key_path, x) ∈ concat ((fun kc => generate_key_paths_fuel st'
         (depth tree) ([] ++ [fst kc]) (snd kc) None) <$>
       zip (f <$> seq 0 (length kids)) kids) ->
    exists i key_path', i < length kids /\ key_path = f i :: key_path') as Hrec.
  { intros st' f key_path x (l & Hq & Hl)%elem_of_concat.
    apply list_elem_of_fmap in Hl as ([k c] & -> & Hkc). simpl in Hq.
    apply elem_of_zip_seq in Hkc as (i & -> & Hi).
    destruct (generate_key_paths_fuel_extends st' None (depth tree) [f i] c
      key_path) as [q' ->].
    { apply list_elem_of_fmap. by exists (key_path, x). }
    exists i, q'. split; [|done]. by eapply lookup_lt_Some. }
  unfold tree_leaves_with_path, generate_key_paths.
  rewrite !(generate_key_paths_fuel_step _ (depth tree) [] tree).
  unfold flatten_with_keys, registry_flatten_one_level. subst tree.
  cbn [type_of registered to_iter namedtuple_fields register_pytree_with_keys
       register_pytree_node _registry_with_keypaths default_registry
       register_node custom_nodes].
  split_and!.
  - intros key_path x. rewrite lookup_insert, decide_True by done.
    cbn [mbind option_bind]. apply Hrec.
  - intros Hnone key_path x. rewrite Hnone.
    rewrite bool_decide_eq_true_2
      by (apply elem_of_union; left; by apply elem_of_singleton).
    cbn [mbind option_bind]. apply Hrec.
  - intros Hnone Hcls. rewrite Hnone. cbn [mbind option_bind].
    by rewrite bool_decide_eq_false_2.
Qed.

Lemma registered_class_key_paths_witness :
  tree_leaves_with_path initial (PyObject "Box" AuxNone [PyInt 1]) None
  = [([], PyObject "Box" AuxNone [PyInt 1])].
Proof.
  apply (proj2 (proj2 (registered_class_key_paths initial "Box" SequenceKey
    AuxNone [PyInt 1]))); [done|]. apply not_elem_of_empty.
Defined.
